(** * run_benchmarks.py: the benchmark runner and the artifact summarizer

    A shallow embedding of [scripts/run_benchmarks.py].

    - Python [str] values are [string]s; a character stands for a code point
      below 256.
    - Python [float] values are IEEE 754 binary64 numbers, taken from the
      Standard Library's [SpecFloat] with [prec = 53] and [emax = 1024]:
      zeros and infinities of both signs, one NaN, and finite numbers.
    - A call that can raise returns a [result]: [Ok v], or [Raise msg] where
      [msg] is the text of the exception ([str(exc)]).
    - The decoders [json.loads] and [yaml.safe_load], the formatting of a
      float, the file system, the executable search path and the child
      process are the environment of the script: they are variables of the
      sections below. So is the result of [math.fsum] on summands so large
      that a partial sum may overflow.
    - The definitions come in two parts. The first follows the logic of
      the script where [print], the listing of the directory and the child
      process do not fail and the interpreter has stack for every
      document. The module [World] follows the same source lines where
      they can fail: the streams, [is_dir()], [exists()], [mkdir] and
      [subprocess.run] may raise, the stack is bounded, and the exit code
      is the one the operating system reports. *)

From Stdlib Require Import ZArith List String Ascii Bool Lia Permutation Sorted.
From Stdlib Require Import Floats.SpecFloat Numbers.DecimalString.
Import ListNotations.

Set Warnings "-register-all".

Local Open Scope string_scope.
Local Open Scope list_scope.

(** ** Results of calls that may raise *)

Inductive result (A : Type) : Type :=
| Ok (a : A)
| Raise (exc : string).

Arguments Ok {A} a.
Arguments Raise {A} exc.

Definition is_ok {A} (r : result A) : bool :=
  match r with Ok _ => true | Raise _ => false end.

Definition bind {A B} (r : result A) (k : A -> result B) : result B :=
  match r with
  | Ok a => k a
  | Raise exc => Raise exc
  end.

Notation "'let*' x ':=' r 'in' k" := (bind r (fun x => k))
  (at level 10, x name, r at level 100, k at level 200).

(** ** Strings *)

Module Str.

(** [bool(s)]: a string is true when it is not empty. *)
Definition truthy (s : string) : bool :=
  match s with EmptyString => false | String _ _ => true end.

(** [s.lstrip(chars)], with the set of characters given as a predicate. *)
Fixpoint lstrip (p : ascii -> bool) (s : string) : string :=
  match s with
  | EmptyString => EmptyString
  | String c rest => if p c then lstrip p rest else s
  end.

(** [s.rstrip(chars)]: every trailing character of the set is removed. *)
Fixpoint rstrip (p : ascii -> bool) (s : string) : string :=
  match s with
  | EmptyString => EmptyString
  | String c rest =>
      match rstrip p rest with
      | EmptyString => if p c then EmptyString else String c EmptyString
      | kept => String c kept
      end
  end.

Definition is_dot (c : ascii) : bool := Ascii.eqb c ".".

(** [str.isspace] on the code points below 256. *)
Definition isspace (c : ascii) : bool :=
  let n := nat_of_ascii c in
  ((9 <=? n) && (n <=? 13) || (28 <=? n) && (n <=? 32)
   || (n =? 133) || (n =? 160))%nat.

(** [s.strip()] *)
Definition strip (s : string) : string := lstrip isspace (rstrip isspace s).

(** The line boundaries of [str.splitlines] below 256: LF, VT, FF, CR,
    FS, GS, RS and NEL; CR followed by LF is one boundary. *)
Definition is_linebreak (c : ascii) : bool :=
  let n := nat_of_ascii c in
  ((10 <=? n) && (n <=? 13) || (28 <=? n) && (n <=? 30) || (n =? 133))%nat.

Definition is_cr (c : ascii) : bool := (nat_of_ascii c =? 13)%nat.
Definition is_lf (c : ascii) : bool := (nat_of_ascii c =? 10)%nat.

(** [cur] is the line read so far. *)
Fixpoint splitlines_from (s : string) (cur : string) : list string :=
  match s with
  | EmptyString => if truthy cur then [cur] else []
  | String c rest =>
      if is_linebreak c then
        match rest with
        | String c' rest' =>
            if is_cr c && is_lf c' then cur :: splitlines_from rest' ""
            else cur :: splitlines_from rest ""
        | EmptyString => cur :: splitlines_from rest ""
        end
      else splitlines_from rest (cur ++ String c "")
  end.

(** [s.splitlines()] *)
Definition splitlines (s : string) : list string := splitlines_from s "".

(** [sep.join(parts)] *)
Fixpoint join (sep : string) (parts : list string) : string :=
  match parts with
  | [] => ""
  | [p] => p
  | p :: rest => p ++ sep ++ join sep rest
  end.

(** [str(n)] for a non-negative integer, and for any integer. *)
Definition of_nat (n : nat) : string := NilEmpty.string_of_uint (Nat.to_uint n).
Definition of_Z (n : Z) : string := NilEmpty.string_of_int (Z.to_int n).

(** [c * n] for a one-character string [c]. *)
Fixpoint repeat (c : ascii) (n : nat) : string :=
  match n with
  | O => ""
  | S n' => String c (repeat c n')
  end.

(** The format specifications [{s:40}] and [{s:>5}]: padding with spaces
    on the right, or on the left, up to the width. *)
Definition ljust (width : nat) (s : string) : string :=
  s ++ repeat " " (width - String.length s).
Definition rjust (width : nat) (s : string) : string :=
  repeat " " (width - String.length s) ++ s.

(** [sorted(names)]: ascending in the order of the code points. *)
Fixpoint insert_sorted (name : string) (names : list string) : list string :=
  match names with
  | [] => [name]
  | other :: rest =>
      if String.leb name other then name :: names
      else other :: insert_sorted name rest
  end.

Definition sorted (names : list string) : list string :=
  fold_right insert_sorted [] names.

Definition LF : string := String (ascii_of_nat 10) "".
(** The double quote character, as a one-character string. *)
Definition DQ : string := String (ascii_of_nat 34) "".

End Str.

(** ** Floating-point numbers *)

Module Float.

Definition prec : Z := 53.
Definition emax : Z := 1024.

Definition float : Type := spec_float.

Definition nan : float := S754_nan.
Definition inf : float := S754_infinity false.
Definition neg_inf : float := S754_infinity true.

(** The binary64 number nearest to [m * 2^e] (ties to even), an infinity
    when it is out of range. *)
Definition round (m e : Z) : float := binary_normalize prec emax m e false.

Definition of_Z (z : Z) : float := round z 0.

Definition is_nan (x : float) : bool :=
  match x with S754_nan => true | _ => false end.

Definition is_inf (x : float) : bool :=
  match x with S754_infinity _ => true | _ => false end.

Definition eqb_pos_inf (x : float) : bool :=
  match x with S754_infinity false => true | _ => false end.

Definition eqb_neg_inf (x : float) : bool :=
  match x with S754_infinity true => true | _ => false end.

(** [x < y] and [x > y] on floats; both are false when a side is NaN. *)
Definition lt (x y : float) : bool := SFltb x y.
Definition gt (x y : float) : bool := SFltb y x.

(** [float(n)] for a Python [int]. *)
Definition of_int (n : Z) : result float :=
  let x := of_Z n in
  if is_inf x then Raise "int too large to convert to float" else Ok x.

(** [x / n] for a float [x] and a non-zero [int] [n]. *)
Definition div_int (x : float) (n : Z) : result float :=
  let* d := of_int n in Ok (SFdiv prec emax x d).

(** The value of a finite float in units of [2^-1074], the spacing of the
    smallest binary64 numbers: an integer for every binary64 number, whose
    exponent is at least [-1074]. *)
Definition scaled (x : float) : Z :=
  match x with
  | S754_finite s m e =>
      let v := Z.shiftl (Z.pos m) (e + 1074) in if s then (- v)%Z else v
  | _ => 0%Z
  end.

Definition exact_sum (xs : list float) : Z :=
  fold_right (fun x acc => (scaled x + acc)%Z) 0%Z xs.

(** The magnitudes of the finite summands, added up, in the same unit. *)
Definition magnitude (xs : list float) : Z :=
  fold_right (fun x acc => (Z.abs (scaled x) + acc)%Z) 0%Z xs.

(** Whether the magnitudes add up to less than [2^1022]: then no partial
    sum of the summands, in any order, leaves the range of binary64. *)
Definition in_range (xs : list float) : bool :=
  (magnitude xs <? 2 ^ (1022 + 1074))%Z.

(** [math.fsum(xs)]. Within the range it follows its contract: the exact
    sum of the summands, rounded once; as in CPython, summands that are not
    finite are added up apart, so that opposite infinities raise
    [ValueError] and otherwise their sum (an infinity or NaN) is returned.
    Beyond the range CPython adds partial sums that may overflow, and then
    raises [OverflowError] or not depending on the order of the summands;
    what it returns there is left to [beyond]. *)
Definition fsum (beyond : list float -> result float) (xs : list float)
  : result float :=
  if negb (in_range xs) then beyond xs
  else if existsb eqb_pos_inf xs && existsb eqb_neg_inf xs then
    Raise "-inf + inf in fsum"
  else if existsb is_nan xs then Ok nan
  else if existsb eqb_pos_inf xs then Ok inf
  else if existsb eqb_neg_inf xs then Ok neg_inf
  else Ok (round (exact_sum xs) (-1074)).

(** [statistics.fmean(xs)]: [fsum(xs) / len(xs)]. *)
Definition fmean (beyond : list float -> result float) (xs : list float)
  : result float :=
  match xs with
  | [] => Raise "fmean requires at least one data point"
  | _ =>
      let* total := fsum beyond xs in
      div_int total (Z.of_nat (List.length xs))
  end.

(** [min(xs)] and [max(xs)] on a non-empty list: the first element is the
    candidate, and a later element replaces it when it compares strictly
    below (above) the candidate. *)
Definition min_from (first : float) (others : list float) : float :=
  fold_left (fun best x => if lt x best then x else best) others first.

Definition max_from (first : float) (others : list float) : float :=
  fold_left (fun best x => if gt x best then x else best) others first.

Definition min (xs : list float) : result float :=
  match xs with
  | [] => Raise "min() arg is an empty sequence"
  | x :: others => Ok (min_from x others)
  end.

Definition max (xs : list float) : result float :=
  match xs with
  | [] => Raise "max() arg is an empty sequence"
  | x :: others => Ok (max_from x others)
  end.

(** [int(x)]: truncation toward zero. *)
Definition to_int (x : float) : result Z :=
  match x with
  | S754_zero _ => Ok 0%Z
  | S754_finite s m e =>
      let v := Z.shiftl (Z.pos m) e in Ok (if s then (- v)%Z else v)
  | S754_infinity _ => Raise "cannot convert float infinity to integer"
  | S754_nan => Raise "cannot convert float NaN to integer"
  end.

End Float.

(** ** Parsed documents *)

(** What a decoder returns: JSON's data model. The key of a mapping entry is
    kept as the text the f-string renders for it; entries are in the order
    the mapping iterates them. *)
Inductive value : Type :=
| VNone
| VBool (b : bool)
| VInt (n : Z)
| VFloat (x : Float.float)
| VStr (s : string)
| VList (elements : list value)
| VDict (items : list (string * value)).

(** ** The metric series *)

(** [metrics]: a [defaultdict(list)], as its items in insertion order. *)
Definition metrics_t : Type := list (string * list Float.float).

Module Metrics.

Fixpoint lookup {V} (name : string) (d : list (string * V)) : option V :=
  match d with
  | [] => None
  | (k, v) :: rest => if String.eqb k name then Some v else lookup name rest
  end.

Definition contains {V} (name : string) (d : list (string * V)) : bool :=
  match lookup name d with Some _ => true | None => false end.

(** [d[name] = v]: replaces the value of a present key in place, adds an
    absent key at the end. *)
Fixpoint set {V} (name : string) (v : V) (d : list (string * V))
  : list (string * V) :=
  match d with
  | [] => [(name, v)]
  | (k, old) :: rest =>
      if String.eqb k name then (k, v) :: rest
      else (k, old) :: set name v rest
  end.

(** [metrics[name]] on the [defaultdict]: an absent key is first bound to
    a new empty list. *)
Definition getitem (name : string) (metrics : metrics_t) : metrics_t :=
  if contains name metrics then metrics else metrics ++ [(name, [])].

(** [.append(x)] on the list bound to [name]. *)
Fixpoint append (name : string) (x : Float.float) (metrics : metrics_t)
  : metrics_t :=
  match metrics with
  | [] => []
  | (k, values) :: rest =>
      if String.eqb k name then (k, values ++ [x]) :: rest
      else (k, values) :: append name x rest
  end.

(** The samples of a series; none for a series that is not there. *)
Definition samples (name : string) (metrics : metrics_t) : list Float.float :=
  match lookup name metrics with Some values => values | None => [] end.

End Metrics.

(** ** collect_numeric *)

(** The nested function of [summarize_artifacts]. It appends to the
    enclosing [metrics], so it takes the dictionary and returns it, together
    with [Ok tt] or the exception that stopped the walk; what was appended
    before an exception stays. *)
Fixpoint collect_numeric (payload : value) (prefix : string)
    (metrics : metrics_t) {struct payload} : metrics_t * result unit :=
  match payload with
  | VDict items =>
      (fix each_item (items : list (string * value)) (metrics : metrics_t)
         : metrics_t * result unit :=
         match items with
         | [] => (metrics, Ok tt)
         | (key, v) :: rest =>
             match collect_numeric v (prefix ++ key ++ ".") metrics with
             | (metrics', Ok _) => each_item rest metrics'
             | (metrics', Raise exc) => (metrics', Raise exc)
             end
         end) items metrics
  | VList elements =>
      (fix each_element (elements : list value) (idx : nat)
           (metrics : metrics_t) : metrics_t * result unit :=
         match elements with
         | [] => (metrics, Ok tt)
         | v :: rest =>
             match collect_numeric v (prefix ++ Str.of_nat idx ++ ".") metrics with
             | (metrics', Ok _) => each_element rest (S idx) metrics'
             | (metrics', Raise exc) => (metrics', Raise exc)
             end
         end) elements 0%nat metrics
  | VInt n =>
      (* [metrics[...]] is evaluated before [float(payload)] *)
      let name := Str.rstrip Str.is_dot prefix in
      let metrics' := Metrics.getitem name metrics in
      match Float.of_int n with
      | Ok x => (Metrics.append name x metrics', Ok tt)
      | Raise exc => (metrics', Raise exc)
      end
  | VFloat x =>
      let name := Str.rstrip Str.is_dot prefix in
      (Metrics.append name x (Metrics.getitem name metrics), Ok tt)
  | VNone | VBool _ | VStr _ => (metrics, Ok tt)
  end.

(** ** The summary *)

Record stats : Type := mk_stats {
  count : Float.float;
  mean : Float.float;
  min : Float.float;
  max : Float.float
}.

Definition summary_t : Type := list (string * stats).

(** ** summarize_artifacts *)

(** An entry that [directory.rglob] yields: its path as text, the suffix
    [path.suffix] computes, whether it is a directory, and what
    [path.read_text()] returns or raises. *)
Record artifact : Type := mk_artifact {
  path : string;
  suffix : string;
  is_dir : bool;
  read_text : result string
}.

(** What a run of the script leaves behind. *)
Inductive status : Type :=
| Exit (code : Z)
| Uncaught (exc : string).

Record output : Type := mk_output {
  stdout : list string;
  stderr : list string;
  exit_status : status
}.

Section Summarizer.

(** [json.loads] *)
Variable json_loads : string -> result value.

(** [yaml.safe_load] when the module [yaml] was imported, [None] when the
    import failed. *)
Variable yaml : option (string -> result value).

(** [math.fsum] on summands whose partial sums may overflow. *)
Variable fsum_beyond : list Float.float -> result Float.float.

(** [format(x, '8.3f')] *)
Variable format_8_3f : Float.float -> string.

(** [data = loads(text); collect_numeric(data)] *)
Definition load_and_collect (loads : string -> result value) (text : string)
    (metrics : metrics_t) : metrics_t * result unit :=
  match loads text with
  | Ok data => collect_numeric data "" metrics
  | Raise exc => (metrics, Raise exc)
  end.

(** The loop over the lines of a [.jsonl] file. *)
Fixpoint collect_lines (lines : list string) (metrics : metrics_t)
  : metrics_t * result unit :=
  match lines with
  | [] => (metrics, Ok tt)
  | line :: rest =>
      if negb (Str.truthy (Str.strip line)) then collect_lines rest metrics
      else
        match load_and_collect json_loads line metrics with
        | (metrics', Ok _) => collect_lines rest metrics'
        | (metrics', Raise exc) => (metrics', Raise exc)
        end
  end.

(** The body of the [try] statement, for one file. *)
Definition scan_file (a : artifact) (metrics : metrics_t)
  : metrics_t * result unit :=
  if String.eqb (suffix a) ".json" then
    match read_text a with
    | Ok text => load_and_collect json_loads text metrics
    | Raise exc => (metrics, Raise exc)
    end
  else if String.eqb (suffix a) ".jsonl" then
    match read_text a with
    | Ok text => collect_lines (Str.splitlines text) metrics
    | Raise exc => (metrics, Raise exc)
    end
  else
    match yaml with
    | Some safe_load =>
        if String.eqb (suffix a) ".yml" || String.eqb (suffix a) ".yaml" then
          match read_text a with
          | Ok text => load_and_collect safe_load text metrics
          | Raise exc => (metrics, Raise exc)
          end
        else (metrics, Ok tt)
    | None => (metrics, Ok tt)
    end.

Definition skipping (a : artifact) (exc : string) : string :=
  "[summarize] Skipping " ++ path a ++ " (" ++ exc ++ ")".

(** The loop [for path in directory.rglob(...)]; [err] is what was
    written to the standard error so far. *)
Fixpoint scan (entries : list artifact) (metrics : metrics_t)
    (err : list string) : metrics_t * list string :=
  match entries with
  | [] => (metrics, err)
  | a :: rest =>
      if is_dir a then scan rest metrics err
      else
        match scan_file a metrics with
        | (metrics', Ok _) => scan rest metrics' err
        | (metrics', Raise exc) => scan rest metrics' (err ++ [skipping a exc])
        end
  end.

(** The dictionary literal of the summary loop; its four values are
    evaluated in the order they are written. *)
Definition summarize_values (values : list Float.float) : result stats :=
  let* c := Float.of_int (Z.of_nat (List.length values)) in
  let* m := Float.fmean fsum_beyond values in
  let* lo := Float.min values in
  let* hi := Float.max values in
  Ok (mk_stats c m lo hi).

(** The loop [for name, values in metrics.items()]. *)
Fixpoint summarize_metrics (items : metrics_t) (summary : summary_t)
  : result summary_t :=
  match items with
  | [] => Ok summary
  | (name, values) :: rest =>
      match values with
      | [] => summarize_metrics rest summary
      | _ =>
          let* st := summarize_values values in
          summarize_metrics rest (Metrics.set name st summary)
      end
  end.

(** [summarize_artifacts(directory)], on the entries of the directory in
    the order they are visited: the diagnostics written, and the summary
    returned or the exception raised. *)
Definition summarize_artifacts (entries : list artifact)
  : list string * result summary_t :=
  let '(metrics, err) := scan entries [] [] in
  (err, summarize_metrics metrics []).

(** *** print_summary_table *)

Definition no_metrics : string :=
  "[summarize] No numeric metrics discovered in artifacts.".

Definition header : string :=
  Str.ljust 40 "Metric" ++ " | " ++ Str.rjust 5 "Count" ++ " | "
  ++ Str.rjust 8 "Mean" ++ " | " ++ Str.rjust 8 "Min" ++ " | "
  ++ Str.rjust 8 "Max".

Definition row (metric_name : string) (st : stats) : result string :=
  let* n := Float.to_int (count st) in
  Ok (Str.ljust 40 metric_name ++ " | " ++ Str.rjust 5 (Str.of_Z n) ++ " | "
      ++ format_8_3f (mean st) ++ " | " ++ format_8_3f (min st) ++ " | "
      ++ format_8_3f (max st))%string.

(** The loop over the sorted metric names; [out] is what was printed. *)
Fixpoint print_rows (summary : summary_t) (names : list string)
    (out : list string) : list string * result unit :=
  match names with
  | [] => (out, Ok tt)
  | metric_name :: rest =>
      match Metrics.lookup metric_name summary with
      | None => (out, Raise ("'" ++ metric_name ++ "'"))
      | Some st =>
          match row metric_name st with
          | Ok line => print_rows summary rest (out ++ [line])
          | Raise exc => (out, Raise exc)
          end
      end
  end.

Definition print_summary_table (summary : summary_t)
  : list string * result unit :=
  match summary with
  | [] => ([no_metrics], Ok tt)
  | _ =>
      print_rows summary (Str.sorted (map fst summary))
        [header; Str.repeat "-" (String.length header)]
  end.

(** *** The summarize command of main *)

(** [listing] is [None] when the directory does not exist; argparse's
    [parser.error] then writes its usage and the message, and exits with
    status 2. *)
Definition main_summarize (directory : string)
    (listing : option (list artifact)) : output :=
  match listing with
  | None =>
      mk_output []
        [("Artifact directory '" ++ directory ++ "' does not exist.")%string]
        (Exit 2)
  | Some entries =>
      match summarize_artifacts entries with
      | (err, Raise exc) => mk_output [] err (Uncaught exc)
      | (err, Ok summary) =>
          match print_summary_table summary with
          | (out, Ok _) => mk_output out err (Exit 0)
          | (out, Raise exc) => mk_output out err (Uncaught exc)
          end
      end
  end.

End Summarizer.

(** ** The command builder and runner *)

Record profile : Type := mk_profile {
  executable : list string;
  config_flag : option string;
  model_flag : option string
}.

Definition TOOL_COMMANDS : list (string * profile) :=
  [ ("openai-evals", mk_profile ["oaieval"; "run"] None (Some "--model"));
    ("helm", mk_profile ["helm-run"] (Some "--config") (Some "--model"));
    ("lm-eval", mk_profile ["lm_eval"] (Some "--config") (Some "--model")) ].

(** [bool(x)] for a value that is a string or [None]. *)
Definition given (x : option string) : bool :=
  match x with
  | Some s => Str.truthy s
  | None => false
  end.

(** The text of a list of strings, as an f-string renders it. *)
Definition repr_list (names : list string) : string :=
  "[" ++ Str.join ", " (map (fun n => ("'" ++ n ++ "'")%string) names) ++ "]".

Definition unsupported_tool (tool : string) : string :=
  "Unsupported tool '" ++ tool ++ "'. Expected one of "
  ++ repr_list (Str.sorted (map fst TOOL_COMMANDS)).

(** [build_command(tool, config, model, extra)]; [config] is [str(config)]. *)
Definition build_command (tool : string) (config : string)
    (model : option string) (extra : list string) : result (list string) :=
  match Metrics.lookup tool TOOL_COMMANDS with
  | None => Raise (unsupported_tool tool)
  | Some meta =>
      let command := executable meta in
      let command :=
        match config_flag meta with
        | Some flag =>
            if Str.truthy flag then command ++ [flag; config]
            else command ++ [config]
        | None => command ++ [config]
        end in
      let command :=
        match model, model_flag meta with
        | Some m, Some flag =>
            if Str.truthy m && Str.truthy flag then command ++ [flag; m]
            else command
        | _, _ => command
        end in
      Ok (command ++ extra)
  end.

(** What the runner does to the world, in order. *)
Inductive event : Type :=
| Printed (line : string)
| Searched (exe : string)
| Spawned (command : list string).



Section Runner.

(** [shutil.which(exe) is not None] *)
Variable which : string -> bool.

(** The return code of [subprocess.run(command, check=False)]. *)
Variable subprocess_run : list string -> Z.

Definition command_available (command : list string) : list event * bool :=
  match command with
  | [] => ([], false)
  | exe :: _ => ([Searched exe], which exe)
  end.

Definition run_tool (tool : string) (config : string) (model : option string)
    (dry_run : bool) (extra : list string) : list event * result Z :=
  match build_command tool config model extra with
  | Raise exc => ([], Raise exc)
  | Ok command =>
      let banner :=
        [Printed ("[benchmark] Tool     : " ++ tool);
         Printed ("[benchmark] Config   : " ++ config)]
        ++ (if given model
            then [Printed ("[benchmark] Model    : "
                           ++ match model with Some m => m | None => "" end)]
            else [])
        ++ [Printed ("[benchmark] Extra    : "
                     ++ match extra with
                        | [] => "(none)"
                        | _ => Str.join " " extra
                        end);
            Printed ("[benchmark] Command  : " ++ Str.join " " command)] in
      if dry_run then
        (banner ++ [Printed "[benchmark] Dry run requested. Command not executed."],
         Ok 0%Z)
      else
        let '(looked, available) := command_available command in
        if negb available then
          (banner ++ looked
           ++ [Printed ("[benchmark] ERROR    : Executable not found on PATH. "
                        ++ "Install the relevant framework or run with --dry-run.")],
           Ok 127%Z)
        else
          let code := subprocess_run command in
          (banner ++ looked
           ++ [Spawned command;
               Printed ("[benchmark] Exit code: " ++ Str.of_Z code)],
           Ok code)
  end.

End Runner.

(** * Specification vocabulary *)

(** ** Induction over documents *)

Section ValueInduction.

Variable P : value -> Prop.
Hypothesis P_none : P VNone.
Hypothesis P_bool : forall b, P (VBool b).
Hypothesis P_int : forall n, P (VInt n).
Hypothesis P_float : forall x, P (VFloat x).
Hypothesis P_str : forall s, P (VStr s).
Hypothesis P_list : forall elements, Forall P elements -> P (VList elements).
Hypothesis P_dict :
  forall items, Forall (fun kv => P (snd kv)) items -> P (VDict items).

Fixpoint value_nested_ind (v : value) : P v :=
  match v with
  | VNone => P_none
  | VBool b => P_bool b
  | VInt n => P_int n
  | VFloat x => P_float x
  | VStr s => P_str s
  | VList elements =>
      P_list elements
        ((fix all (l : list value) : Forall P l :=
            match l with
            | [] => Forall_nil P
            | x :: rest => Forall_cons x (value_nested_ind x) (all rest)
            end) elements)
  | VDict items =>
      P_dict items
        ((fix all (l : list (string * value))
            : Forall (fun kv => P (snd kv)) l :=
            match l with
            | [] => Forall_nil _
            | kv :: rest =>
                Forall_cons kv (value_nested_ind (snd kv)) (all rest)
            end) items)
  end.

End ValueInduction.

(** ** Ordinary samples *)



Definition no_nan (xs : list Float.float) : Prop :=
  Forall (fun x => Float.is_nan x = false) xs.

(** The place of a float that is not NaN in the order of the numbers: the
    class (infinities, finite negatives, zero, finite positives), then
    exponent and mantissa. *)
Definition rank (x : Float.float) : Z * (Z * Z) :=
  match x with
  | S754_infinity true => (-2, (0, 0))%Z
  | S754_finite true m e => (-1, (- e, - Z.pos m))%Z
  | S754_zero _ | S754_nan => (0, (0, 0))%Z
  | S754_finite false m e => (1, (e, Z.pos m))%Z
  | S754_infinity false => (2, (0, 0))%Z
  end.

Definition rank_lt (a b : Z * (Z * Z)) : Prop :=
  (fst a < fst b
   \/ fst a = fst b
      /\ (fst (snd a) < fst (snd b)
          \/ fst (snd a) = fst (snd b) /\ snd (snd a) < snd (snd b)))%Z.

(** ** Steps that only append samples *)

Definition keys {V} (d : list (string * V)) : list string := map fst d.

(** A step of the scan is an appender when, from a dictionary with distinct
    keys, it leaves distinct keys, raises or not whatever the dictionary
    holds, and extends every series by the samples it yields from the empty
    dictionary. *)
Definition appender (step : metrics_t -> metrics_t * result unit) : Prop :=
  forall metrics,
    NoDup (keys metrics) ->
    NoDup (keys (fst (step metrics)))
    /\ snd (step metrics) = snd (step [])
    /\ forall name,
         Metrics.samples name (fst (step metrics))
         = Metrics.samples name metrics ++ Metrics.samples name (fst (step [])).

(** One step after another, the second only when the first did not raise. *)
Definition and_then (first second : metrics_t -> metrics_t * result unit)
    (metrics : metrics_t) : metrics_t * result unit :=
  match first metrics with
  | (metrics', Ok _) => second metrics'
  | (metrics', Raise exc) => (metrics', Raise exc)
  end.

(** ** What each file contributes *)

Section ScanVocabulary.

Variable json_loads : string -> result value.
Variable yaml : option (string -> result value).

(** One line of a [.jsonl] file: skipped when blank, decoded and walked
    otherwise. *)
Definition line_step (line : string) (metrics : metrics_t)
  : metrics_t * result unit :=
  if negb (Str.truthy (Str.strip line)) then (metrics, Ok tt)
  else load_and_collect json_loads line metrics.

(** The visit of one entry of the directory. *)
Definition visit (a : artifact) (metrics : metrics_t)
  : metrics_t * result unit :=
  if is_dir a then (metrics, Ok tt) else scan_file json_loads yaml a metrics.

(** The samples an entry yields for a series, and the diagnostic it
    causes, both read off its visit from the empty dictionary. *)
Definition contribution (a : artifact) (name : string) : list Float.float :=
  Metrics.samples name (fst (visit a [])).

Definition diagnostic (a : artifact) : list string :=
  match snd (visit a []) with
  | Ok _ => []
  | Raise exc => [skipping a exc]
  end.

(** The dictionary of series when the scan ends. *)
Definition scanned (entries : list artifact) : metrics_t :=
  fst (scan json_loads yaml entries [] []).



End ScanVocabulary.


(** The statistics of a series of the dictionary, when it has samples. *)
Definition series_stats (beyond : list Float.float -> result Float.float)
    (metrics : metrics_t) (name : string) : option (result stats) :=
  match Metrics.samples name metrics with
  | [] => None
  | values => Some (summarize_values beyond values)
  end.


(** A line is blank when stripping it leaves nothing. *)
Definition nonblank (line : string) : bool := Str.truthy (Str.strip line).

(** ** Commands *)

(** How a profile passes the config path: after its flag, or bare. *)
Definition config_arguments (meta : profile) (config : string) : list string :=
  match config_flag meta with
  | Some flag => if Str.truthy flag then [flag; config] else [config]
  | None => [config]
  end.

Definition supported (tool : string) : Prop := In tool (keys TOOL_COMMANDS).

(** The order in which [sorted] puts the metric names. *)
Definition name_le (a b : string) : Prop := String.leb a b = true.

(** ** Paths to the leaves of a document *)

(** The prefix with which the walk, started with [prefix], reaches the
    value under the keys and indices [parts]. *)
Fixpoint prefix_from (prefix : string) (parts : list string) : string :=
  match parts with
  | [] => prefix
  | part :: rest => prefix_from (prefix ++ part ++ ".") rest
  end.

(** [leaf_at doc parts leaf]: following the mapping keys and the list
    indices [parts] from the root of [doc] leads to the number [leaf]. *)
Inductive leaf_at : value -> list string -> value -> Prop :=
| leaf_int (n : Z) : leaf_at (VInt n) [] (VInt n)
| leaf_float (x : Float.float) : leaf_at (VFloat x) [] (VFloat x)
| leaf_in_dict (items : list (string * value)) (key : string) (child : value)
    (parts : list string) (leaf : value) :
    In (key, child) items -> leaf_at child parts leaf ->
    leaf_at (VDict items) (key :: parts) leaf
| leaf_in_list (elements : list value) (idx : nat) (child : value)
    (parts : list string) (leaf : value) :
    nth_error elements idx = Some child -> leaf_at child parts leaf ->
    leaf_at (VList elements) (Str.of_nat idx :: parts) leaf.

(** The walk over the items of a mapping, and over the elements of a list
    from the index [idx] on. *)
Fixpoint walk_items (prefix : string) (items : list (string * value))
    (metrics : metrics_t) : metrics_t * result unit :=
  match items with
  | [] => (metrics, Ok tt)
  | (key, v) :: rest =>
      and_then (collect_numeric v (prefix ++ key ++ "."))
        (walk_items prefix rest) metrics
  end.

Fixpoint walk_elements (prefix : string) (elements : list value) (idx : nat)
    (metrics : metrics_t) : metrics_t * result unit :=
  match elements with
  | [] => (metrics, Ok tt)
  | v :: rest =>
      and_then (collect_numeric v (prefix ++ Str.of_nat idx ++ "."))
        (walk_elements prefix rest (S idx)) metrics
  end.

(** The sample a numeric leaf stands for, when it converts to a float. *)
Definition sample_of (leaf : value) : option Float.float :=
  match leaf with
  | VFloat x => Some x
  | VInt n => match Float.of_int n with Ok x => Some x | Raise _ => None end
  | _ => None
  end.

(** The series [name] holds the sample of the leaf. *)
Definition has_sample (name : string) (leaf : value) (metrics : metrics_t)
  : Prop :=
  exists x, sample_of leaf = Some x /\ In x (Metrics.samples name metrics).

(** The walk of [child] with [prefix], when it does not raise, leaves the
    sample of the leaf in the series [name]. *)
Definition records (name : string) (leaf child : value) (prefix : string)
  : Prop :=
  forall metrics,
    NoDup (keys metrics) ->
    snd (collect_numeric child prefix metrics) = Ok tt ->
    has_sample name leaf (fst (collect_numeric child prefix metrics)).

(** ** Sample artifacts *)

Module Sample.

Definition quoted (s : string) : string := Str.DQ ++ s ++ Str.DQ.

Definition one : Float.float := Float.of_Z 1.
Definition two : Float.float := Float.of_Z 2.
Definition three : Float.float := Float.of_Z 3.
Definition two_and_a_half : Float.float := Float.round 5 (-1).

(** The texts of some JSON documents and the documents they decode to:
    a nested mapping, a mapping without numbers, mappings with the one
    key x (Python's decoder reads the literals NaN, Infinity and -Infinity
    as the floats they name), a mapping whose key ends with a dot, and a
    text that is not JSON. *)
Definition text_nested : string :=
  "{" ++ quoted "a" ++ ": {" ++ quoted "b" ++ ": 1, " ++ quoted "c" ++ ": 2.5}}".
Definition doc_nested : value :=
  VDict [("a", VDict [("b", VInt 1); ("c", VFloat two_and_a_half)])].

Definition text_flag : string :=
  "{" ++ quoted "flag" ++ ": true, " ++ quoted "name" ++ ": " ++ quoted "ok" ++ "}".
Definition doc_flag : value :=
  VDict [("flag", VBool true); ("name", VStr "ok")].

Definition text_x1 : string := "{" ++ quoted "x" ++ ": 1}".
Definition text_x3 : string := "{" ++ quoted "x" ++ ": 3}".
Definition text_xnan : string := "{" ++ quoted "x" ++ ": NaN}".
Definition text_xinf : string := "{" ++ quoted "x" ++ ": Infinity}".
Definition text_xneginf : string := "{" ++ quoted "x" ++ ": -Infinity}".
Definition doc_x (v : value) : value := VDict [("x", v)].

Definition text_dotted : string := "{" ++ quoted "a." ++ ": 1}".
Definition doc_dotted : value := VDict [("a.", VInt 1)].

Definition text_broken : string := "{not json".
Definition broken_message : string :=
  "Expecting property name enclosed in double quotes: line 1 column 2 (char 1)".

(** A decoder that knows these texts, and rejects every other text. *)
Definition loads (text : string) : result value :=
  if String.eqb text text_nested then Ok doc_nested
  else if String.eqb text text_flag then Ok doc_flag
  else if String.eqb text text_x1 then Ok (doc_x (VInt 1))
  else if String.eqb text text_x3 then Ok (doc_x (VInt 3))
  else if String.eqb text text_xnan then Ok (doc_x (VFloat Float.nan))
  else if String.eqb text text_xinf then Ok (doc_x (VFloat Float.inf))
  else if String.eqb text text_xneginf then Ok (doc_x (VFloat Float.neg_inf))
  else if String.eqb text text_dotted then Ok doc_dotted
  else Raise broken_message.

(** Sums beyond the range are not met in the samples; this stand-in
    raises as CPython does when a partial sum overflows. *)
Definition beyond (xs : list Float.float) : result Float.float :=
  Raise "intermediate overflow in fsum".

(** A formatter that prints every number alike. *)
Definition format (x : Float.float) : string := "     nan".

Definition json_file (name text : string) : artifact :=
  mk_artifact name ".json" false (Ok text).

Definition jsonl_file (name text : string) : artifact :=
  mk_artifact name ".jsonl" false (Ok text).

Definition file_one : artifact := json_file "runs/one.json" text_x1.
Definition file_three : artifact := json_file "runs/three.json" text_x3.
Definition file_lines : artifact :=
  jsonl_file "runs/log.jsonl" (text_x1 ++ Str.LF ++ text_x3 ++ Str.LF).

End Sample.

(** ** More vocabulary for the walk *)

(** No integer and no float anywhere in the document. *)
Fixpoint numberless (v : value) : bool :=
  match v with
  | VInt _ | VFloat _ => false
  | VNone | VBool _ | VStr _ => true
  | VList elements => forallb numberless elements
  | VDict items => forallb (fun kv => numberless (snd kv)) items
  end.


(** A name from which [rstrip] has nothing to remove. *)
Definition undotted (name : string) : Prop :=
  Str.rstrip Str.is_dot name = name.

(** The suffixes [summarize_artifacts] looks at. *)
Definition known_suffix (s : string) : bool :=
  String.eqb s ".json" || String.eqb s ".jsonl"
  || String.eqb s ".yml" || String.eqb s ".yaml".

(** ** ensure_output_directory and the run command of main *)

(** What [parse_args] returns for the run command. *)
Record run_args : Type := mk_run_args {
  arg_tool : string;
  arg_config : string;
  arg_model : option string;
  arg_extra : list string;
  arg_dry_run : bool;
  arg_artifacts : string
}.

(** What the run command does to the world, in order: an error reported
    through argparse (which exits with status 2), the call of [mkdir] for
    a directory and its parents (recorded whether or not it succeeds),
    and the events of [run_tool]. *)
Inductive action : Type :=
| Invalid_choice (tool : string)
| Parser_error (message : string)
| Made_dirs (dir : string)
| Did (e : event).

Definition is_made_dirs (a : action) : bool :=
  match a with Made_dirs _ => true | _ => false end.

Definition is_process (a : action) : bool :=
  match a with
  | Did (Spawned _) | Did (Searched _) => true
  | _ => false
  end.

Section RunCommand.

Variable which : string -> bool.
Variable subprocess_run : list string -> Z.

(** [path.exists()] *)
Variable exists_ : string -> bool.

(** [str(parent / child)] *)
Variable joinpath : string -> string -> string.

(** [datetime.utcnow().strftime(...)], the time stamp of this run. *)
Variable timestamp : string.

(** [run_dir.mkdir(parents=True, exist_ok=True)]: [Ok tt], or the error
    of the operating system. *)
Variable mkdir : string -> result unit.

Definition ensure_output_directory (base tool : string)
  : list action * result string :=
  let run_dir := joinpath (joinpath base tool) timestamp in
  match mkdir run_dir with
  | Ok _ => ([Made_dirs run_dir], Ok run_dir)
  | Raise exc => ([Made_dirs run_dir], Raise exc)
  end.

(** The run command of [main]. The choices of [--tool] are checked by
    [parse_args]. *)
Definition main_run (args : run_args) : list action * status :=
  if negb (Metrics.contains (arg_tool args) TOOL_COMMANDS) then
    ([Invalid_choice (arg_tool args)], Exit 2)
  else if negb (exists_ (arg_config args)) then
    ([Parser_error ("Configuration file '" ++ arg_config args
                    ++ "' does not exist.")],
     Exit 2)
  else
    match ensure_output_directory (arg_artifacts args) (arg_tool args) with
    | (made, Raise exc) => (made, Uncaught exc)
    | (made, Ok run_dir) =>
        let announced :=
          made
          ++ [Did (Printed ("[benchmark] Outputs will be saved under: "
                            ++ run_dir))] in
        match run_tool which subprocess_run (arg_tool args) (arg_config args)
                (arg_model args) (arg_dry_run args) (arg_extra args) with
        | (trace, Ok code) => (announced ++ map Did trace, Exit code)
        | (trace, Raise exc) => (announced ++ map Did trace, Uncaught exc)
        end
    end.

End RunCommand.

(** ** A sample run *)

Module SampleRun.

(** Every executable is on the path, and every child returns 3. *)
Definition which (exe : string) : bool := true.
Definition subprocess_run (command : list string) : Z := 3%Z.

(** The only config file there is. *)
Definition exists_ (path : string) : bool := String.eqb path "suite.yaml".

Definition joinpath (parent child : string) : string :=
  parent ++ "/" ++ child.

Definition timestamp : string := "20240101T000000Z".

Definition mkdir (dir : string) : result unit := Ok tt.

Definition args (tool config : string) (dry_run : bool) : run_args :=
  mk_run_args tool config (Some "gpt-4") ["--seed"; "7"] dry_run "artifacts".

End SampleRun.

(** * The script in a world that can fail

    The definitions above follow the logic of the script in a world where
    printing, the listing of the directory and the child process do not
    fail, and where the interpreter has stack for every document.  The
    module below follows the same source lines in a world where they can:

    - [print] raises when the stream does not take the text, as
      [UnicodeEncodeError] for a text it cannot encode;
    - the iteration of [rglob] and [path.is_dir()], which stand outside
      the [try] statement, raise [OSError] for an entry that cannot be
      examined;
    - [collect_numeric] raises [RecursionError] for a document nested
      deeper than the interpreter has frames;
    - [path.exists()], [mkdir] and [subprocess.run] raise [OSError];
    - [sys.exit(main())] hands the code to the operating system, which
      keeps its low eight bits.

    What the script does to the world is recorded, in order, as a list of
    effects; an exception that leaves [main] is [Uncaught]: the
    interpreter then writes the traceback and exits with status 1. *)

(** The lines of the table of a summary, as they are handed to [print]. *)
Definition table (format_8_3f : Float.float -> string) (summary : summary_t)
  : list string :=
  fst (print_summary_table format_8_3f summary).

Module World.

(** An effect is recorded when the call has been made and has returned;
    [Child] and [Makedirs] are recorded also when the call raises, since
    it may have acted before it raised. *)
Inductive effect : Type :=
| Stdout (line : string)         (* [print(line)] *)
| Stderr (line : string)         (* [print(line, file=sys.stderr)] *)
| Argparse_error (message : string)
    (* [parser.error(message)]: argparse writes the usage and the line
       [prog: error: message] to the standard error, and exits with 2 *)
| Looked_up (exe : string)       (* [shutil.which(exe)] *)
| Child (command : list string)  (* [subprocess.run(command, check=False)] *)
| Makedirs (dir : string).       (* [dir.mkdir(parents=True, exist_ok=True)] *)

Definition is_stdout (e : effect) : bool :=
  match e with Stdout _ => true | _ => false end.

Definition is_looked_up (e : effect) : bool :=
  match e with Looked_up _ => true | _ => false end.

Definition is_child (e : effect) : bool :=
  match e with Child _ => true | _ => false end.

Definition is_makedirs (e : effect) : bool :=
  match e with Makedirs _ => true | _ => false end.

(** The lines written to each stream by [print]. *)
Fixpoint stdout_of (trace : list effect) : list string :=
  match trace with
  | [] => []
  | Stdout line :: rest => line :: stdout_of rest
  | _ :: rest => stdout_of rest
  end.

Fixpoint stderr_of (trace : list effect) : list string :=
  match trace with
  | [] => []
  | Stderr line :: rest => line :: stderr_of rest
  | _ :: rest => stderr_of rest
  end.

(** An entry of the iteration [for path in directory.rglob(...)], up to
    the test [path.is_dir()]: the entry, or the exception that the
    iteration or the test raises at this point. *)
Inductive listed : Type :=
| Entry (a : artifact)
| Fails (exc : string).

(** The environment of the script. *)
Record env : Type := mk_env {
  json_loads : string -> result value;
  yaml : option (string -> result value);
  fsum_beyond : list Float.float -> result Float.float;
  format_8_3f : Float.float -> string;
  (** [print(line)] on the standard output and on the standard error:
      [Ok tt], or the exception it raises, and then nothing is written. *)
  print_stdout : string -> result unit;
  print_stderr : string -> result unit;
  (** [path.exists()] *)
  exists_ : string -> result bool;
  (** what [directory.rglob] yields, in its order *)
  rglob : string -> list listed;
  (** the number of nested calls of [collect_numeric] for which the
      interpreter has frames, and the text of the [RecursionError] it
      raises on entering the call for a value when it has none left *)
  frames : nat;
  recursion_error : value -> string;
  (** [shutil.which(exe) is not None] *)
  which : string -> bool;
  (** the return code of [subprocess.run(command, check=False)], or the
      exception it raises *)
  subprocess_run : list string -> result Z;
  (** [str(parent / child)] *)
  joinpath : string -> string -> string;
  (** [datetime.utcnow().strftime(...)], the time stamp of this run *)
  timestamp : string;
  (** [run_dir.mkdir(parents=True, exist_ok=True)] *)
  mkdir : string -> result unit
}.

(** ** Computations with effects *)

(** The effects performed, and the value returned or the exception
    raised. *)
Definition io (A : Type) : Type := (list effect * result A)%type.

Definition ret {A} (a : A) : io A := ([], Ok a).

Definition raise {A} (exc : string) : io A := ([], Raise exc).

Definition lift {A} (r : result A) : io A := ([], r).

Definition bind {A B} (m : io A) (k : A -> io B) : io B :=
  match m with
  | (done, Ok a) => let '(more, r) := k a in (done ++ more, r)
  | (done, Raise exc) => (done, Raise exc)
  end.

Notation "x <- m ;; k" := (bind m (fun x => k))
  (at level 61, m at next level, right associativity).
Notation "m ;; k" := (bind m (fun _ => k))
  (at level 61, right associativity).

Definition print (w : env) (line : string) : io unit :=
  match print_stdout w line with
  | Ok _ => ([Stdout line], Ok tt)
  | Raise exc => ([], Raise exc)
  end.

Definition eprint (w : env) (line : string) : io unit :=
  match print_stderr w line with
  | Ok _ => ([Stderr line], Ok tt)
  | Raise exc => ([], Raise exc)
  end.

(** ** collect_numeric *)

Definition each_item
    (walk : value -> string -> metrics_t -> metrics_t * result unit)
    (prefix : string)
  : list (string * value) -> metrics_t -> metrics_t * result unit :=
  fix each_item (items : list (string * value)) (metrics : metrics_t) :=
    match items with
    | [] => (metrics, Ok tt)
    | (key, v) :: rest =>
        match walk v (prefix ++ key ++ ".")%string metrics with
        | (metrics', Ok _) => each_item rest metrics'
        | (metrics', Raise exc) => (metrics', Raise exc)
        end
    end.

Definition each_element
    (walk : value -> string -> metrics_t -> metrics_t * result unit)
    (prefix : string)
  : list value -> nat -> metrics_t -> metrics_t * result unit :=
  fix each_element (elements : list value) (idx : nat) (metrics : metrics_t) :=
    match elements with
    | [] => (metrics, Ok tt)
    | v :: rest =>
        match walk v (prefix ++ Str.of_nat idx ++ ".")%string metrics with
        | (metrics', Ok _) => each_element rest (S idx) metrics'
        | (metrics', Raise exc) => (metrics', Raise exc)
        end
    end.

(** The walk with [left] frames left for its nested calls: every call
    takes one, and a call for which none is left raises before it does
    anything. *)
Fixpoint collect_numeric (w : env) (left : nat) (payload : value)
    (prefix : string) (metrics : metrics_t) {struct left}
  : metrics_t * result unit :=
  match left with
  | O => (metrics, Raise (recursion_error w payload))
  | S left' =>
      match payload with
      | VDict items => each_item (collect_numeric w left') prefix items metrics
      | VList elements =>
          each_element (collect_numeric w left') prefix elements 0%nat metrics
      | VInt n =>
          let name := Str.rstrip Str.is_dot prefix in
          let metrics' := Metrics.getitem name metrics in
          match Float.of_int n with
          | Ok x => (Metrics.append name x metrics', Ok tt)
          | Raise exc => (metrics', Raise exc)
          end
      | VFloat x =>
          let name := Str.rstrip Str.is_dot prefix in
          (Metrics.append name x (Metrics.getitem name metrics), Ok tt)
      | VNone | VBool _ | VStr _ => (metrics, Ok tt)
      end
  end.

(** ** summarize_artifacts *)

(** [data = loads(text); collect_numeric(data)] *)
Definition load_and_collect (w : env) (loads : string -> result value)
    (text : string) (metrics : metrics_t) : metrics_t * result unit :=
  match loads text with
  | Ok data => collect_numeric w (frames w) data "" metrics
  | Raise exc => (metrics, Raise exc)
  end.

(** The loop over the lines of a [.jsonl] file. *)
Fixpoint collect_lines (w : env) (lines : list string) (metrics : metrics_t)
  : metrics_t * result unit :=
  match lines with
  | [] => (metrics, Ok tt)
  | line :: rest =>
      if negb (Str.truthy (Str.strip line)) then collect_lines w rest metrics
      else
        match load_and_collect w (json_loads w) line metrics with
        | (metrics', Ok _) => collect_lines w rest metrics'
        | (metrics', Raise exc) => (metrics', Raise exc)
        end
  end.

(** The body of the [try] statement, for one file. *)
Definition scan_file (w : env) (a : artifact) (metrics : metrics_t)
  : metrics_t * result unit :=
  if String.eqb (suffix a) ".json" then
    match read_text a with
    | Ok text => load_and_collect w (json_loads w) text metrics
    | Raise exc => (metrics, Raise exc)
    end
  else if String.eqb (suffix a) ".jsonl" then
    match read_text a with
    | Ok text => collect_lines w (Str.splitlines text) metrics
    | Raise exc => (metrics, Raise exc)
    end
  else
    match yaml w with
    | Some safe_load =>
        if String.eqb (suffix a) ".yml" || String.eqb (suffix a) ".yaml" then
          match read_text a with
          | Ok text => load_and_collect w safe_load text metrics
          | Raise exc => (metrics, Raise exc)
          end
        else (metrics, Ok tt)
    | None => (metrics, Ok tt)
    end.

(** The loop [for path in directory.rglob(...)]. *)
Fixpoint scan (w : env) (listing : list listed) (metrics : metrics_t)
  : io metrics_t :=
  match listing with
  | [] => ret metrics
  | Fails exc :: _ => raise exc
  | Entry a :: rest =>
      if is_dir a then scan w rest metrics
      else
        match scan_file w a metrics with
        | (metrics', Ok _) => scan w rest metrics'
        | (metrics', Raise exc) =>
            eprint w ("[summarize] Skipping " ++ path a ++ " (" ++ exc ++ ")");;
            scan w rest metrics'
        end
  end.

Definition summarize_artifacts (w : env) (directory : string)
  : io summary_t :=
  metrics <- scan w (rglob w directory) [];;
  lift (summarize_metrics (fsum_beyond w) metrics []).

(** ** print_summary_table *)

Fixpoint print_rows (w : env) (summary : summary_t) (names : list string)
  : io unit :=
  match names with
  | [] => ret tt
  | metric_name :: rest =>
      st <- lift (match Metrics.lookup metric_name summary with
                  | Some st => Ok st
                  | None => Raise ("'" ++ metric_name ++ "'")%string
                  end);;
      line <- lift (row (format_8_3f w) metric_name st);;
      print w line;;
      print_rows w summary rest
  end.

Definition print_summary_table (w : env) (summary : summary_t) : io unit :=
  match summary with
  | [] => print w "[summarize] No numeric metrics discovered in artifacts."
  | _ =>
      print w header;;
      print w (Str.repeat "-" (String.length header));;
      print_rows w summary (Str.sorted (map fst summary))
  end.

(** ** main *)

(** [sys.exit(main())]: the value [main] returns is the exit code; an
    exception that leaves [main] is not caught. *)
Definition finish (m : io Z) : list effect * status :=
  match m with
  | (trace, Ok code) => (trace, Exit code)
  | (trace, Raise exc) => (trace, Uncaught exc)
  end.

(** The status the operating system reports (on POSIX, the low eight
    bits of the code) when the interpreter shuts down in order. *)
Definition reported (s : status) : Z :=
  match s with
  | Exit code => (code mod 256)%Z
  | Uncaught _ => 1%Z
  end.

(** The summarize command. *)
Definition main_summarize (w : env) (directory : string)
  : list effect * status :=
  match exists_ w directory with
  | Raise exc => ([], Uncaught exc)
  | Ok false =>
      ([Argparse_error
          ("Artifact directory '" ++ directory ++ "' does not exist.")],
       Exit 2)
  | Ok true =>
      finish (summary <- summarize_artifacts w directory;;
              print_summary_table w summary;;
              ret 0%Z)
  end.

(** ** The runner *)

Definition command_available (w : env) (command : list string) : io bool :=
  match command with
  | [] => ret false
  | exe :: _ => ([Looked_up exe], Ok (which w exe))
  end.

Definition run_tool (w : env) (tool : string) (config : string)
    (model : option string) (dry_run : bool) (extra : list string) : io Z :=
  command <- lift (build_command tool config model extra);;
  print w ("[benchmark] Tool     : " ++ tool);;
  print w ("[benchmark] Config   : " ++ config);;
  (if given model
   then print w ("[benchmark] Model    : "
                 ++ match model with Some m => m | None => "" end)
   else ret tt);;
  print w ("[benchmark] Extra    : "
           ++ match extra with
              | [] => "(none)"
              | _ => Str.join " " extra
              end);;
  print w ("[benchmark] Command  : " ++ Str.join " " command);;
  if dry_run then
    print w "[benchmark] Dry run requested. Command not executed.";;
    ret 0%Z
  else
    available <- command_available w command;;
    if negb available then
      print w ("[benchmark] ERROR    : Executable not found on PATH. "
               ++ "Install the relevant framework or run with --dry-run.");;
      ret 127%Z
    else
      code <- ([Child command], subprocess_run w command);;
      print w ("[benchmark] Exit code: " ++ Str.of_Z code);;
      ret code.

Definition ensure_output_directory (w : env) (base tool : string)
  : io string :=
  let run_dir := joinpath w (joinpath w base tool) (timestamp w) in
  ([Makedirs run_dir], mkdir w run_dir);;
  ret run_dir.

(** The run command, for arguments that [parse_args] has accepted: the
    tool is one of the choices. *)
Definition main_run (w : env) (args : run_args) : list effect * status :=
  match exists_ w (arg_config args) with
  | Raise exc => ([], Uncaught exc)
  | Ok false =>
      ([Argparse_error
          ("Configuration file '" ++ arg_config args ++ "' does not exist.")],
       Exit 2)
  | Ok true =>
      finish (run_dir <- ensure_output_directory w (arg_artifacts args)
                           (arg_tool args);;
              print w ("[benchmark] Outputs will be saved under: " ++ run_dir);;
              run_tool w (arg_tool args) (arg_config args) (arg_model args)
                (arg_dry_run args) (arg_extra args))
  end.

(** ** Vocabulary *)

(** The stream takes every one of the lines. *)
Definition accepts (print : string -> result unit) (lines : list string)
  : Prop :=
  Forall (fun line => print line = Ok tt) lines.

(** The visit of one entry that [is_dir()] has classified. *)
Definition visit (w : env) (a : artifact) (metrics : metrics_t)
  : metrics_t * result unit :=
  if is_dir a then (metrics, Ok tt) else scan_file w a metrics.

(** The samples an entry yields for a series, and the diagnostic it
    causes, both read off its visit from the empty dictionary. *)
Definition contribution (w : env) (a : artifact) (name : string)
  : list Float.float :=
  Metrics.samples name (fst (visit w a [])).

Definition diagnostic (w : env) (a : artifact) : list string :=
  match snd (visit w a []) with
  | Ok _ => []
  | Raise exc => [("[summarize] Skipping " ++ path a ++ " (" ++ exc ++ ")")%string]
  end.

(** The dictionary of series after the visits of the entries. *)
Definition scanned (w : env) (entries : list artifact) : metrics_t :=
  fold_left (fun metrics a => fst (visit w a metrics)) entries [].

End World.

(** ** More vocabulary *)

(** The nesting of a document: 1 for a scalar, one more than its deepest
    element for a list or a mapping. *)
Fixpoint height (v : value) : nat :=
  match v with
  | VList elements => S (list_max (map height elements))
  | VDict items => S (list_max (map (fun kv => height (snd kv)) items))
  | _ => 1
  end.

(** The code points below 256 that [str.isspace] takes for whitespace:
    tab, line feed, vertical tab, form feed, carriage return, the four
    separators, space, next line and the no-break space. *)
Definition whitespace : list nat :=
  [9; 10; 11; 12; 13; 28; 29; 30; 31; 32; 133; 160]%nat.

(** A line that is empty or holds only whitespace. *)
Definition is_blank (line : string) : bool :=
  forallb (fun c => existsb (Nat.eqb (nat_of_ascii c)) whitespace)
    (list_ascii_of_string line).

(** The lines of a [.jsonl] file that are decoded: the lines that are not
    blank, up to and including the first one that raises. *)
Fixpoint decoded_lines (json_loads : string -> result value)
    (lines : list string) : list string :=
  match lines with
  | [] => []
  | line :: rest =>
      if is_blank line then decoded_lines json_loads rest
      else if is_ok (snd (load_and_collect json_loads line []))
      then line :: decoded_lines json_loads rest
      else [line]
  end.

(** The lines [run_tool] prints before it looks at [dry_run]. *)
Definition banner (tool config : string) (model : option string)
    (extra command : list string) : list string :=
  ["[benchmark] Tool     : " ++ tool;
   "[benchmark] Config   : " ++ config]%string
  ++ match model with
     | Some (String c m) => [("[benchmark] Model    : " ++ String c m)%string]
     | _ => []
     end
  ++ [("[benchmark] Extra    : "
       ++ match extra with
          | [] => "(none)"
          | _ => Str.join " " extra
          end)%string;
      ("[benchmark] Command  : " ++ Str.join " " command)%string].

(** Printing lines one after the other: the lines written, and the
    exception of the first line that the stream does not take. *)
Fixpoint first_refusal (print : string -> result unit) (lines : list string)
  : list string * option string :=
  match lines with
  | [] => ([], None)
  | line :: rest =>
      match print line with
      | Ok _ =>
          let '(written, refusal) := first_refusal print rest in
          (line :: written, refusal)
      | Raise exc => ([], Some exc)
      end
  end.



(** ** Sample worlds *)

Module SampleWorld.

(** [format(x, '8.3f')]: the value in thousandths, rounded to the nearest
    with ties to even, the sign also of a zero, padded to eight
    characters. *)
Definition thousandths (m : positive) (e : Z) : Z :=
  if (0 <=? e)%Z then (Z.pos m * 2 ^ e * 1000)%Z
  else
    let num := (Z.pos m * 1000)%Z in
    let den := (2 ^ (- e))%Z in
    let q := (num / den)%Z in
    let r := (num mod den)%Z in
    if (2 * r <? den)%Z then q
    else if (den <? 2 * r)%Z then (q + 1)%Z
    else if Z.even q then q else (q + 1)%Z.

Definition digits3 (n : Z) : string :=
  Str.repeat "0" (3 - String.length (Str.of_Z n)) ++ Str.of_Z n.

Definition format_8_3f (x : Float.float) : string :=
  Str.rjust 8
    match x with
    | S754_nan => "nan"
    | S754_infinity false => "inf"
    | S754_infinity true => "-inf"
    | S754_zero s => (if s then "-" else "") ++ "0.000"
    | S754_finite s m e =>
        let t := thousandths m e in
        (if s then "-" else "") ++ Str.of_Z (t / 1000) ++ "."
        ++ digits3 (t mod 1000)
    end%string.

(** A standard output that takes ASCII only, as under
    [PYTHONIOENCODING=ascii]. *)
Definition ascii_only (line : string) : result unit :=
  if forallb (fun c => (nat_of_ascii c <? 128)%nat) (list_ascii_of_string line)
  then Ok tt
  else Raise "'ascii' codec can't encode character: ordinal not in range(128)".

Definition takes_all (line : string) : result unit := Ok tt.

(** A world with the sample decoder and no yaml module, in which every
    path exists, every directory has the given listing, the standard
    error takes every line and [mkdir] succeeds. *)
Definition make (print_stdout : string -> result unit)
    (listing : list World.listed) (frames : nat)
    (which : string -> bool) (subprocess_run : list string -> result Z)
  : World.env :=
  World.mk_env Sample.loads None Sample.beyond format_8_3f
    print_stdout takes_all (fun _ => Ok true) (fun _ => listing)
    frames
    (fun _ => "maximum recursion depth exceeded while calling a Python object")
    which subprocess_run SampleRun.joinpath SampleRun.timestamp
    SampleRun.mkdir.

(** The world in which nothing fails and every child returns 3. *)
Definition calm (listing : list World.listed) : World.env :=
  make takes_all listing 990 SampleRun.which (fun _ => Ok 3%Z).

(** The letter e with an acute accent, code point 233. *)
Definition e_acute : string := String (ascii_of_nat 233) "".

Definition TAB : string := String (ascii_of_nat 9) "".

(** Line-delimited files: the two lines of [Sample.file_lines] with a
    line of spaces and a tab and an empty line between them; and three
    lines of which the second is not JSON. *)
Definition file_lines_blank : artifact :=
  Sample.jsonl_file "runs/log.jsonl"
    (Sample.text_x1 ++ Str.LF ++ "  " ++ TAB ++ Str.LF ++ Str.LF
     ++ Sample.text_x3 ++ Str.LF).

Definition file_interrupted : artifact :=
  Sample.jsonl_file "runs/log.jsonl"
    (Sample.text_x1 ++ Str.LF ++ Sample.text_broken ++ Str.LF
     ++ Sample.text_x3 ++ Str.LF).

End SampleWorld.
Lemma lt_rank (x y : Float.float) :
  Float.is_nan x = false -> Float.is_nan y = false ->
  (Float.lt x y = true <-> rank_lt (rank x) (rank y)).
Proof.
  unfold Float.lt, SFltb, rank_lt.
  destruct x as [sx|sx| |sx mx ex], y as [sy|sy| |sy my ey];
    simpl; try discriminate; intros _ _;
    try destruct sx; try destruct sy; simpl;
    try (split; [discriminate | lia]);
    try (split; [lia | discriminate]);
    try (split; [intros _; lia | reflexivity]).
  - rewrite Pos.compare_cont_spec; simpl.
    destruct (Z.compare_spec ex ey), (Pos.compare_spec mx my); simpl;
      split; try discriminate; try reflexivity; try lia.
  - rewrite Pos.compare_cont_spec; simpl.
    destruct (Z.compare_spec ex ey), (Pos.compare_spec mx my); simpl;
      split; try discriminate; try reflexivity; try lia.
Qed.



(** ** The statistics of a series do not depend on the order of ordinary samples *)

Lemma not_lt_trans (x y z : Float.float) :
  Float.is_nan x = false -> Float.is_nan y = false -> Float.is_nan z = false ->
  Float.lt y x = false -> Float.lt z y = false -> Float.lt z x = false.
Proof.
  intros Hx Hy Hz Hyx Hzy.
  destruct (Float.lt z x) eqn:Hzx; [|reflexivity].
  apply (lt_rank z x Hz Hx) in Hzx.
  assert (Nyx : ~ rank_lt (rank y) (rank x))
    by (intros C; apply (lt_rank y x Hy Hx) in C; congruence).
  assert (Nzy : ~ rank_lt (rank z) (rank y))
    by (intros C; apply (lt_rank z y Hz Hy) in C; congruence).
  unfold rank_lt in *. lia.
Qed.


Lemma not_lt_refl (x : Float.float) : Float.lt x x = false.
Proof.
  destruct (Float.is_nan x) eqn:Hx.
  - destruct x; try discriminate; reflexivity.
  - destruct (Float.lt x x) eqn:H; [|reflexivity].
    apply (lt_rank x x Hx Hx) in H. unfold rank_lt in H. lia.
Qed.

Lemma lt_asym (x y : Float.float) : Float.lt x y = true -> Float.lt y x = false.
Proof.
  intros H.
  assert (Hx : Float.is_nan x = false) by (destruct x; trivial; discriminate).
  assert (Hy : Float.is_nan y = false)
    by (destruct y; trivial; destruct x as [| | |]; discriminate).
  destruct (Float.lt y x) eqn:E; [|reflexivity].
  apply (lt_rank _ _ Hx Hy) in H. apply (lt_rank _ _ Hy Hx) in E.
  unfold rank_lt in *. lia.
Qed.


Lemma no_nan_in (xs : list Float.float) (x : Float.float) :
  no_nan xs -> In x xs -> Float.is_nan x = false.
Proof. unfold no_nan. rewrite Forall_forall. auto. Qed.

(** [min_from] returns an element that no element is below. *)
Lemma min_from_least (others : list Float.float) (first : Float.float) :
  no_nan (first :: others) ->
  In (Float.min_from first others) (first :: others)
  /\ forall y, In y (first :: others) ->
               Float.lt y (Float.min_from first others) = false.
Proof.
  revert first.
  induction others as [|x rest IH]; intros first Hn.
  - simpl. split; [now left|]. intros y [<-|[]]. apply not_lt_refl.
  - pose proof (no_nan_in _ first Hn (or_introl eq_refl)) as Hf.
    pose proof (no_nan_in _ x Hn (or_intror (or_introl eq_refl))) as Hx.
    assert (Hrest : no_nan rest) by (inversion Hn as [|? ? _ Hr]; now inversion Hr).
    change (Float.min_from first (x :: rest))
      with (Float.min_from (if Float.lt x first then x else first) rest).
    set (best := if Float.lt x first then x else first).
    assert (Hb : Float.is_nan best = false)
      by (unfold best; now destruct (Float.lt x first)).
    assert (Hn' : no_nan (best :: rest)) by now constructor.
    destruct (IH best Hn') as [Hin Hlow].
    pose proof (no_nan_in _ _ Hn' Hin) as Hmin.
    split.
    + destruct Hin as [Hin|Hin].
      * rewrite <- Hin. unfold best.
        destruct (Float.lt x first); simpl; auto.
      * simpl. auto.
    + intros y [Hy|[Hy|Hy]].
      * subst y. apply not_lt_trans with (y := best); trivial.
        -- apply Hlow. now left.
        -- unfold best. destruct (Float.lt x first) eqn:E.
           ++ now apply lt_asym.
           ++ apply not_lt_refl.
      * subst y. apply not_lt_trans with (y := best); trivial.
        -- apply Hlow. now left.
        -- unfold best.
           destruct (Float.lt x first) eqn:E; [apply not_lt_refl|trivial].
      * apply Hlow. now right.
Qed.

(** [max_from] returns an element that no element is above. *)
Lemma max_from_greatest (others : list Float.float) (first : Float.float) :
  no_nan (first :: others) ->
  In (Float.max_from first others) (first :: others)
  /\ forall y, In y (first :: others) ->
               Float.lt (Float.max_from first others) y = false.
Proof.
  revert first.
  induction others as [|x rest IH]; intros first Hn.
  - simpl. split; [now left|]. intros y [<-|[]]. apply not_lt_refl.
  - pose proof (no_nan_in _ first Hn (or_introl eq_refl)) as Hf.
    pose proof (no_nan_in _ x Hn (or_intror (or_introl eq_refl))) as Hx.
    assert (Hrest : no_nan rest) by (inversion Hn as [|? ? _ Hr]; now inversion Hr).
    change (Float.max_from first (x :: rest))
      with (Float.max_from (if Float.lt first x then x else first) rest).
    set (best := if Float.lt first x then x else first).
    assert (Hb : Float.is_nan best = false)
      by (unfold best; now destruct (Float.lt first x)).
    assert (Hn' : no_nan (best :: rest)) by now constructor.
    destruct (IH best Hn') as [Hin Hup].
    pose proof (no_nan_in _ _ Hn' Hin) as Hmax.
    split.
    + destruct Hin as [Hin|Hin].
      * rewrite <- Hin. unfold best.
        destruct (Float.lt first x); simpl; auto.
      * simpl. auto.
    + intros y [Hy|[Hy|Hy]].
      * subst y. apply not_lt_trans with (y := best); trivial.
        -- unfold best. destruct (Float.lt first x) eqn:E.
           ++ now apply lt_asym.
           ++ apply not_lt_refl.
        -- apply Hup. now left.
      * subst y. apply not_lt_trans with (y := best); trivial.
        -- unfold best.
           destruct (Float.lt first x) eqn:E; [apply not_lt_refl|trivial].
        -- apply Hup. now left.
      * apply Hup. now right.
Qed.









Section SeriesStatistics.

Variable beyond : list Float.float -> result Float.float.




End SeriesStatistics.

(** ** The dictionary of series *)

Lemma lookup_in_keys {V} (name : string) (d : list (string * V)) :
  Metrics.lookup name d = None <-> ~ In name (keys d).
Proof.
  induction d as [|[k v] rest IH]; simpl.
  - tauto.
  - destruct (String.eqb_spec k name).
    + split; [discriminate|]. intros H. exfalso. apply H. now left.
    + rewrite IH. tauto.
Qed.

Lemma lookup_app {V} (name : string) (d d' : list (string * V)) :
  Metrics.lookup name (d ++ d')
  = match Metrics.lookup name d with
    | Some v => Some v
    | None => Metrics.lookup name d'
    end.
Proof.
  induction d as [|[k v] rest IH]; simpl; trivial.
  now destruct (String.eqb k name).
Qed.

Lemma keys_getitem (name : string) (metrics : metrics_t) :
  NoDup (keys metrics) -> NoDup (keys (Metrics.getitem name metrics)).
Proof.
  intros Hn. unfold Metrics.getitem, Metrics.contains.
  destruct (Metrics.lookup name metrics) eqn:E; trivial.
  apply lookup_in_keys in E.
  unfold keys in *. rewrite map_app. simpl.
  apply Permutation_NoDup with (l := name :: map fst metrics).
  - apply Permutation_cons_append.
  - now constructor.
Qed.

Lemma samples_getitem (k name : string) (metrics : metrics_t) :
  Metrics.samples name (Metrics.getitem k metrics) = Metrics.samples name metrics.
Proof.
  unfold Metrics.getitem, Metrics.contains, Metrics.samples.
  destruct (Metrics.lookup k metrics) eqn:E; trivial.
  rewrite lookup_app. destruct (Metrics.lookup name metrics); trivial.
  simpl. now destruct (String.eqb k name).
Qed.

Lemma contains_getitem (k : string) (metrics : metrics_t) :
  Metrics.contains k (Metrics.getitem k metrics) = true.
Proof.
  unfold Metrics.getitem.
  destruct (Metrics.contains k metrics) eqn:E; trivial.
  unfold Metrics.contains in *. rewrite lookup_app.
  destruct (Metrics.lookup k metrics); trivial.
  simpl. now rewrite String.eqb_refl.
Qed.

Lemma keys_append (k : string) (x : Float.float) (metrics : metrics_t) :
  keys (Metrics.append k x metrics) = keys metrics.
Proof.
  induction metrics as [|[k' vs] rest IH]; simpl; trivial.
  destruct (String.eqb k' k); simpl; trivial. now f_equal.
Qed.

Lemma samples_append (k name : string) (x : Float.float) (metrics : metrics_t) :
  Metrics.contains k metrics = true ->
  Metrics.samples name (Metrics.append k x metrics)
  = Metrics.samples name metrics ++ (if String.eqb k name then [x] else []).
Proof.
  unfold Metrics.contains, Metrics.samples.
  induction metrics as [|[k' vs] rest IH]; simpl; [discriminate|].
  destruct (String.eqb_spec k' k) as [->|Hk]; simpl.
  - intros _. destruct (String.eqb_spec k name); trivial. now rewrite app_nil_r.
  - intros H. destruct (String.eqb_spec k' name) as [->|Hn].
    + destruct (String.eqb_spec k name); [congruence|]. now rewrite app_nil_r.
    + now apply IH.
Qed.

(** ** Appenders *)

Lemma appender_skip : appender (fun metrics => (metrics, Ok tt)).
Proof.
  intros m Hn. simpl. repeat split; trivial.
  intros name. unfold Metrics.samples at 3. simpl. now rewrite app_nil_r.
Qed.

Lemma appender_raise (exc : string) : appender (fun metrics => (metrics, Raise exc)).
Proof.
  intros m Hn. simpl. repeat split; trivial.
  intros name. unfold Metrics.samples at 3. simpl. now rewrite app_nil_r.
Qed.

Lemma appender_float (name : string) (x : Float.float) :
  appender (fun metrics =>
              (Metrics.append name x (Metrics.getitem name metrics), Ok tt)).
Proof.
  intros m Hn. cbn [fst snd]. repeat split.
  - rewrite keys_append. now apply keys_getitem.
  - intros n. rewrite !samples_append by apply contains_getitem.
    rewrite !samples_getitem. reflexivity.
Qed.

Lemma appender_touch (name exc : string) :
  appender (fun metrics => (Metrics.getitem name metrics, Raise exc)).
Proof.
  intros m Hn. cbn [fst snd]. repeat split.
  - now apply keys_getitem.
  - intros n. rewrite !samples_getitem.
    unfold Metrics.samples at 3. simpl. now rewrite app_nil_r.
Qed.

Lemma appender_and_then first second :
  appender first -> appender second -> appender (and_then first second).
Proof.
  intros Hf Hs m Hn. unfold and_then.
  destruct (Hf m Hn) as (Kf & Rf & Sf).
  destruct (Hf [] (NoDup_nil _)) as (Kf0 & _ & _).
  destruct (first m) as [m1 r1], (first []) as [m0 r0]; simpl in *. subst r1.
  destruct r0 as [[]|exc]; simpl.
  - destruct (Hs m1 Kf) as (K1 & R1 & S1).
    destruct (Hs m0 Kf0) as (K0 & R0 & S0).
    repeat split; trivial.
    + congruence.
    + intros name. rewrite S1, S0, Sf. now rewrite app_assoc.
  - repeat split; trivial.
Qed.

Lemma appender_ext step step' :
  (forall metrics, step metrics = step' metrics) -> appender step -> appender step'.
Proof.
  intros E H m Hn. rewrite <- !E. now apply H.
Qed.

Lemma collect_numeric_appender (payload : value) :
  forall prefix, appender (collect_numeric payload prefix).
Proof.
  induction payload as [| b | n | x | s | elements IH | items IH]
    using value_nested_ind; intros prefix.
  - apply appender_skip.
  - apply appender_skip.
  - simpl. destruct (Float.of_int n) as [x|exc].
    + apply appender_float.
    + apply appender_touch.
  - apply appender_float.
  - apply appender_skip.
  - simpl. generalize 0%nat.
    induction IH as [|v rest Hv _ IHrest]; intros idx.
    + apply appender_skip.
    + eapply appender_ext;
        [|apply (appender_and_then _ _ (Hv (prefix ++ Str.of_nat idx ++ ".")%string)
                   (IHrest (S idx)))].
      intros m. unfold and_then.
      destruct (collect_numeric v _ m) as [m' [[]|exc]]; reflexivity.
  - simpl.
    induction IH as [|[key v] rest Hv _ IHrest].
    + apply appender_skip.
    + eapply appender_ext;
        [|apply (appender_and_then _ _ (Hv (prefix ++ key ++ ".")%string) IHrest)].
      intros m. unfold and_then. simpl.
      destruct (collect_numeric v _ m) as [m' [[]|exc]]; reflexivity.
Qed.

(** ** The scan, file by file *)

Section ScanFacts.

Variable json_loads : string -> result value.
Variable yaml : option (string -> result value).

Lemma load_and_collect_appender loads text :
  appender (load_and_collect loads text).
Proof.
  unfold load_and_collect. destruct (loads text) as [data|exc].
  - apply collect_numeric_appender.
  - apply appender_raise.
Qed.

Lemma line_step_appender line : appender (line_step json_loads line).
Proof.
  unfold line_step. destruct (negb _).
  - apply appender_skip.
  - apply load_and_collect_appender.
Qed.

Lemma collect_lines_cons line rest metrics :
  collect_lines json_loads (line :: rest) metrics
  = and_then (line_step json_loads line) (collect_lines json_loads rest) metrics.
Proof.
  unfold and_then, line_step. simpl.
  destruct (negb _); reflexivity.
Qed.

Lemma collect_lines_appender lines : appender (collect_lines json_loads lines).
Proof.
  induction lines as [|line rest IH].
  - apply appender_skip.
  - eapply appender_ext.
    + intros m. symmetry. apply collect_lines_cons.
    + apply appender_and_then; [apply line_step_appender | exact IH].
Qed.

Lemma scan_file_appender a : appender (scan_file json_loads yaml a).
Proof.
  unfold scan_file.
  destruct (String.eqb (suffix a) ".json").
  { destruct (read_text a);
      [apply load_and_collect_appender | apply appender_raise]. }
  destruct (String.eqb (suffix a) ".jsonl").
  { destruct (read_text a);
      [apply collect_lines_appender | apply appender_raise]. }
  destruct yaml as [safe_load|]; [|apply appender_skip].
  destruct (_ || _); [|apply appender_skip].
  destruct (read_text a);
    [apply load_and_collect_appender | apply appender_raise].
Qed.

Lemma visit_appender a : appender (visit json_loads yaml a).
Proof.
  unfold visit. destruct (is_dir a).
  - apply appender_skip.
  - apply scan_file_appender.
Qed.

Lemma scan_cons a rest metrics err :
  scan json_loads yaml (a :: rest) metrics err
  = scan json_loads yaml rest (fst (visit json_loads yaml a metrics))
      (err ++ match snd (visit json_loads yaml a metrics) with
              | Ok _ => []
              | Raise exc => [skipping a exc]
              end).
Proof.
  unfold visit. simpl. destruct (is_dir a); simpl.
  - now rewrite app_nil_r.
  - destruct (scan_file json_loads yaml a metrics) as [m' [[]|exc]]; simpl;
      trivial. now rewrite app_nil_r.
Qed.

(** The scan adds to every series the contributions of the entries, in
    the order of the visit, and writes their diagnostics in that order. *)
Lemma scan_spec entries :
  forall metrics err,
    NoDup (keys metrics) ->
    NoDup (keys (fst (scan json_loads yaml entries metrics err)))
    /\ snd (scan json_loads yaml entries metrics err)
       = err ++ flat_map (diagnostic json_loads yaml) entries
    /\ forall name,
         Metrics.samples name (fst (scan json_loads yaml entries metrics err))
         = Metrics.samples name metrics
           ++ flat_map (fun a => contribution json_loads yaml a name) entries.
Proof.
  induction entries as [|a rest IH]; intros m err Hn.
  - simpl. rewrite app_nil_r. repeat split; trivial.
    intros name. now rewrite app_nil_r.
  - rewrite scan_cons.
    destruct (visit_appender a m Hn) as (K & R & S).
    destruct (IH (fst (visit json_loads yaml a m))
                (err ++ match snd (visit json_loads yaml a m) with
                        | Ok _ => []
                        | Raise exc => [skipping a exc]
                        end) K) as (K' & E' & S').
    repeat split; trivial.
    + rewrite E', R. simpl. unfold diagnostic at 2. now rewrite app_assoc.
    + intros name. rewrite S', S. simpl. unfold contribution at 2.
      now rewrite app_assoc.
Qed.

Lemma scanned_samples entries name :
  Metrics.samples name (scanned json_loads yaml entries)
  = flat_map (fun a => contribution json_loads yaml a name) entries.
Proof.
  unfold scanned.
  destruct (scan_spec entries [] [] (NoDup_nil _)) as (_ & _ & S).
  now rewrite S.
Qed.

Lemma scanned_keys entries : NoDup (keys (scanned json_loads yaml entries)).
Proof.
  unfold scanned. now destruct (scan_spec entries [] [] (NoDup_nil _)).
Qed.

(** *** Lines of a [.jsonl] file *)




End ScanFacts.

(** ** The summary loop *)

Lemma lookup_set {V} (k name : string) (v : V) (d : list (string * V)) :
  Metrics.lookup name (Metrics.set k v d)
  = if String.eqb k name then Some v else Metrics.lookup name d.
Proof.
  induction d as [|[k' old] rest IH]; simpl.
  - reflexivity.
  - destruct (String.eqb_spec k' k) as [->|Hk]; simpl.
    + now destruct (String.eqb k name).
    + rewrite IH. destruct (String.eqb_spec k' name) as [->|Hn]; trivial.
      destruct (String.eqb_spec k name); congruence.
Qed.

Lemma in_set {V} (k : string) (v : V) (d : list (string * V)) (e : string * V) :
  In e (Metrics.set k v d) -> e = (k, v) \/ In e d.
Proof.
  induction d as [|[k' old] rest IH]; simpl.
  - intros [<-|[]]. now left.
  - destruct (String.eqb_spec k' k) as [->|Hk]; simpl.
    + intros [<-|H]; auto.
    + intros [<-|H]; auto. destruct (IH H); auto.
Qed.

Lemma samples_cons (k name : string) (values : list Float.float)
    (rest : metrics_t) :
  Metrics.samples name ((k, values) :: rest)
  = if String.eqb k name then values else Metrics.samples name rest.
Proof. unfold Metrics.samples. simpl. now destruct (String.eqb k name). Qed.

Lemma samples_absent (name : string) (metrics : metrics_t) :
  ~ In name (keys metrics) -> Metrics.samples name metrics = [].
Proof.
  intros H. apply lookup_in_keys in H. unfold Metrics.samples. now rewrite H.
Qed.

Lemma samples_of_entry (name : string) (values : list Float.float)
    (metrics : metrics_t) :
  NoDup (keys metrics) -> In (name, values) metrics ->
  Metrics.samples name metrics = values.
Proof.
  induction metrics as [|[k vs] rest IH]; simpl; [tauto|].
  intros Hn Hin. inversion Hn as [|? ? Hk Hrest]; subst.
  rewrite samples_cons. destruct Hin as [E|Hin].
  - injection E as -> ->. now rewrite String.eqb_refl.
  - destruct (String.eqb_spec k name) as [->|Hneq]; [|now apply IH].
    exfalso. apply Hk. change name with (fst (name, values)).
    now apply in_map.
Qed.

Section SummaryLoop.

Variable beyond : list Float.float -> result Float.float.

(** The summary holds, for every series with samples, its statistics; the
    loop raises exactly when the statistics of one such series do. *)
Lemma summarize_metrics_spec (metrics : metrics_t) :
  forall summary,
    NoDup (keys metrics) ->
    match summarize_metrics beyond metrics summary with
    | Ok final =>
        forall name,
          match series_stats beyond metrics name with
          | None => Metrics.lookup name final = Metrics.lookup name summary
          | Some r => exists st, r = Ok st /\ Metrics.lookup name final = Some st
          end
    | Raise _ =>
        exists name exc, series_stats beyond metrics name = Some (Raise exc)
    end.
Proof.
  induction metrics as [|[k values] rest IH]; intros summary Hn.
  - simpl. intros name. reflexivity.
  - inversion Hn as [|? ? Hk Hrest]; subst.
    assert (Hk' : Metrics.samples k rest = []) by now apply samples_absent.
    simpl. destruct values as [|v values'].
    + specialize (IH summary Hrest).
      destruct (summarize_metrics beyond rest summary) as [final|exc].
      * intros name. specialize (IH name). unfold series_stats in *.
        rewrite samples_cons.
        destruct (String.eqb_spec k name) as [->|Hneq]; trivial.
        now rewrite Hk' in IH.
      * destruct IH as (name & exc' & IH). exists name, exc'.
        unfold series_stats in *. rewrite samples_cons.
        destruct (String.eqb_spec k name) as [->|Hneq]; trivial.
        now rewrite Hk' in IH.
    + set (values := v :: values') in *.
      destruct (summarize_values beyond values) as [st|exc] eqn:E; simpl.
      * specialize (IH (Metrics.set k st summary) Hrest).
        destruct (summarize_metrics beyond rest (Metrics.set k st summary)) as [final|exc].
        -- intros name. specialize (IH name). unfold series_stats in *.
           rewrite samples_cons. rewrite lookup_set in IH.
           destruct (String.eqb_spec k name) as [->|Hneq].
           ++ rewrite Hk' in IH. unfold values at 1. exists st. now split.
           ++ exact IH.
        -- destruct IH as (name & exc' & IH). exists name, exc'.
           unfold series_stats in *. rewrite samples_cons.
           destruct (String.eqb_spec k name) as [->|Hneq]; trivial.
           now rewrite Hk' in IH.
      * exists k, exc. unfold series_stats. rewrite samples_cons.
        rewrite String.eqb_refl. unfold values at 1. now f_equal.
Qed.

(** Every entry of the summary is the statistics of a series of the
    dictionary that has samples. *)
Lemma summarize_metrics_entries (metrics : metrics_t) :
  forall summary final,
    summarize_metrics beyond metrics summary = Ok final ->
    forall name st,
      In (name, st) final ->
      In (name, st) summary
      \/ exists values,
           In (name, values) metrics /\ values <> []
           /\ summarize_values beyond values = Ok st.
Proof.
  induction metrics as [|[k values] rest IH]; intros summary final H name st Hin.
  - simpl in H. injection H as <-. now left.
  - simpl in H. destruct values as [|v values'].
    + destruct (IH _ _ H _ _ Hin) as [?|(vs & I & N & S)]; auto.
      right. exists vs. simpl. auto.
    + set (values := v :: values') in *.
      destruct (summarize_values beyond values) as [st'|exc] eqn:E; simpl in H;
        [|discriminate].
      destruct (IH _ _ H _ _ Hin) as [Hs|(vs & I & N & S)].
      * apply in_set in Hs. destruct Hs as [Hs|Hs]; auto.
        injection Hs as -> ->. right. exists values.
        split; [now left|]. split; [discriminate|trivial].
      * right. exists vs. simpl. auto.
Qed.




End SummaryLoop.

(** ** Rounding never gives NaN *)

Lemma shr_1_nonneg (mrs : shr_record) :
  (0 <= shr_m mrs)%Z -> (0 <= shr_m (shr_1 mrs))%Z.
Proof.
  destruct mrs as [m r s]. simpl.
  destruct m as [|[p|p|]|[p|p|]]; simpl; lia.
Qed.

Lemma iter_shr_1_nonneg (p : positive) :
  forall mrs, (0 <= shr_m mrs)%Z -> (0 <= shr_m (iter_pos shr_1 p mrs))%Z.
Proof.
  induction p as [p IH|p IH|]; intros mrs H; simpl.
  - apply IH, IH, shr_1_nonneg, H.
  - apply IH, IH, H.
  - apply shr_1_nonneg, H.
Qed.

Lemma shr_fexp_nonneg (m e : Z) (l : location) :
  (0 <= m)%Z ->
  (0 <= shr_m (fst (shr_fexp Float.prec Float.emax m e l)))%Z.
Proof.
  intros H. unfold shr_fexp, shr.
  assert (H0 : (0 <= shr_m (shr_record_of_loc m l))%Z)
    by (destruct l as [|[]]; exact H).
  destruct (_ - e)%Z; simpl; trivial.
  now apply iter_shr_1_nonneg.
Qed.

Lemma round_nearest_even_nonneg (m : Z) (l : location) :
  (0 <= m)%Z -> (0 <= round_nearest_even m l)%Z.
Proof.
  intros H. destruct l as [|[]]; simpl; try lia.
  destruct (Z.even m); lia.
Qed.

Lemma binary_round_aux_not_nan (s : bool) (m e : Z) (l : location) :
  (0 <= m)%Z ->
  Float.is_nan (binary_round_aux Float.prec Float.emax s m e l) = false.
Proof.
  intros H. unfold binary_round_aux.
  pose proof (shr_fexp_nonneg m e l H) as H1.
  destruct (shr_fexp Float.prec Float.emax m e l) as [mrs' e'].
  simpl in H1.
  pose proof (shr_fexp_nonneg _ e' loc_Exact
                (round_nearest_even_nonneg _ (loc_of_shr_record mrs') H1)) as H2.
  destruct (shr_fexp Float.prec Float.emax
              (round_nearest_even (shr_m mrs') (loc_of_shr_record mrs')) e'
              loc_Exact) as [mrs'' e''].
  simpl in H2.
  destruct (shr_m mrs'') as [|p|p]; simpl; trivial.
  - now destruct (_ <=? _)%Z.
  - lia.
Qed.

Lemma round_not_nan (m e : Z) : Float.is_nan (Float.round m e) = false.
Proof.
  unfold Float.round, binary_normalize, binary_round.
  destruct m as [|p|p]; trivial.
  - destruct (shl_align _ _ _) as [mz ez].
    apply binary_round_aux_not_nan. lia.
  - destruct (shl_align _ _ _) as [mz ez].
    apply binary_round_aux_not_nan. lia.
Qed.

(** A float that [float(n)] returns is finite, so [int] converts it back. *)
Lemma of_int_to_int (n : Z) (x : Float.float) :
  Float.of_int n = Ok x -> is_ok (Float.to_int x) = true.
Proof.
  unfold Float.of_int, Float.of_Z.
  pose proof (round_not_nan n 0) as Hn.
  destruct (Float.round n 0) as [s|s| |s m e]; simpl in *;
    try discriminate; intros E; injection E as <-; reflexivity.
Qed.

(** ** Printing the table *)

Lemma in_insert_sorted (x name : string) (names : list string) :
  In x (Str.insert_sorted name names) <-> x = name \/ In x names.
Proof.
  induction names as [|other rest IH]; simpl.
  - intuition.
  - destruct (String.leb name other); simpl; rewrite ?IH; intuition.
Qed.

Lemma in_sorted (x : string) (names : list string) :
  In x (Str.sorted names) <-> In x names.
Proof.
  induction names as [|n rest IH]; simpl; [tauto|].
  rewrite in_insert_sorted, IH. intuition.
Qed.

Lemma lookup_in {V} (name : string) (v : V) (d : list (string * V)) :
  Metrics.lookup name d = Some v -> In (name, v) d.
Proof.
  induction d as [|[k v'] rest IH]; simpl; [discriminate|].
  destruct (String.eqb_spec k name) as [->|Hk].
  - intros E. injection E as ->. now left.
  - intros E. right. now apply IH.
Qed.

Section PrintFacts.

Variable beyond : list Float.float -> result Float.float.
Variable format_8_3f : Float.float -> string.

(** The rows are printed without an exception when every name is in the
    summary and every count converts to an integer. *)
Lemma print_rows_ok (summary : summary_t) (names : list string) :
  (forall name, In name names -> In name (keys summary)) ->
  (forall name st, In (name, st) summary ->
                   is_ok (Float.to_int (count st)) = true) ->
  forall out, snd (print_rows format_8_3f summary names out) = Ok tt.
Proof.
  intros Hk Hc. induction names as [|name rest IH]; intros out; simpl.
  - reflexivity.
  - destruct (Metrics.lookup name summary) as [st|] eqn:E.
    + pose proof (Hc name st (lookup_in _ _ _ E)) as Hst.
      unfold row. destruct (Float.to_int (count st)) as [n|]; [|discriminate].
      simpl. apply IH. intros n' Hn'. apply Hk. now right.
    + exfalso. apply lookup_in_keys in E. apply E, Hk. now left.
Qed.

Lemma print_summary_table_ok (metrics : metrics_t) (summary : summary_t) :
  summarize_metrics beyond metrics [] = Ok summary ->
  snd (print_summary_table format_8_3f summary) = Ok tt.
Proof.
  intros H. unfold print_summary_table.
  destruct summary as [|entry rest] eqn:Es; [reflexivity|].
  rewrite <- Es in *. apply print_rows_ok.
  - intros name Hn. apply (proj1 (in_sorted _ _)) in Hn. exact Hn.
  - intros name st Hin.
    destruct (summarize_metrics_entries beyond _ _ _ H _ _ Hin) as [[]|(vs & _ & _ & S)].
    unfold summarize_values in S.
    destruct (Float.of_int (Z.of_nat (List.length vs))) as [c|] eqn:Ec;
      [|discriminate].
    simpl in S.
    destruct (Float.fmean beyond vs); [|discriminate]. simpl in S.
    destruct (Float.min vs); [|discriminate]. simpl in S.
    destruct (Float.max vs); [|discriminate]. simpl in S.
    injection S as <-. simpl. eapply of_int_to_int, Ec.
Qed.

End PrintFacts.

Section MainFacts.

Variable json_loads : string -> result value.
Variable yaml : option (string -> result value).
Variable beyond : list Float.float -> result Float.float.
Variable format_8_3f : Float.float -> string.

Lemma summarize_artifacts_split entries :
  summarize_artifacts json_loads yaml beyond entries
  = (snd (scan json_loads yaml entries [] []),
     summarize_metrics beyond (scanned json_loads yaml entries) []).
Proof.
  unfold summarize_artifacts, scanned.
  now destruct (scan json_loads yaml entries [] []).
Qed.

(** The summarize command exits with status 0 whenever
    [summarize_artifacts] returns. *)
Lemma main_summarize_exit (directory : string) (entries : list artifact) :
  exit_status
    (main_summarize json_loads yaml beyond format_8_3f directory (Some entries))
  = match snd (summarize_artifacts json_loads yaml beyond entries) with
    | Ok _ => Exit 0
    | Raise exc => Uncaught exc
    end.
Proof.
  unfold main_summarize. rewrite summarize_artifacts_split. cbn [snd].
  destruct (summarize_metrics beyond (scanned json_loads yaml entries) [])
    as [summary|exc] eqn:E; [|reflexivity].
  pose proof (print_summary_table_ok beyond format_8_3f _ _ E) as P.
  destruct (print_summary_table format_8_3f summary) as [out r].
  simpl in P. now rewrite P.
Qed.

Lemma main_summarize_stderr (directory : string) (entries : list artifact) :
  stderr (main_summarize json_loads yaml beyond format_8_3f directory (Some entries))
  = flat_map (diagnostic json_loads yaml) entries.
Proof.
  unfold main_summarize. rewrite summarize_artifacts_split.
  destruct (scan_spec json_loads yaml entries [] [] (NoDup_nil _))
    as (_ & -> & _).
  destruct (summarize_metrics _ _) as [summary|exc]; [|reflexivity].
  destruct (print_summary_table format_8_3f summary) as [out [u|exc]];
    reflexivity.
Qed.

(** The scan of a list of entries in two parts. *)
Lemma scan_app (entries1 entries2 : list artifact) :
  forall metrics err,
    scan json_loads yaml (entries1 ++ entries2) metrics err
    = scan json_loads yaml entries2
        (fst (scan json_loads yaml entries1 metrics err))
        (snd (scan json_loads yaml entries1 metrics err)).
Proof.
  induction entries1 as [|a rest IH]; intros metrics err.
  - reflexivity.
  - rewrite <- app_comm_cons, !scan_cons. apply IH.
Qed.

Lemma scan_fst_err (entries : list artifact) :
  forall metrics err,
    fst (scan json_loads yaml entries metrics err)
    = fst (scan json_loads yaml entries metrics []).
Proof.
  induction entries as [|a rest IH]; intros metrics err.
  - reflexivity.
  - rewrite !scan_cons. rewrite IH. symmetry. apply IH.
Qed.

(** An entry whose visit leaves the dictionary as it is can be left out
    of the scan. *)
Lemma scanned_without (before after : list artifact) (bad : artifact) :
  (forall metrics, fst (visit json_loads yaml bad metrics) = metrics) ->
  scanned json_loads yaml (before ++ bad :: after)
  = scanned json_loads yaml (before ++ after).
Proof.
  intros H. unfold scanned. rewrite !scan_app, scan_cons, H.
  rewrite scan_fst_err. symmetry. apply scan_fst_err.
Qed.

Lemma summarize_all_empty (metrics : metrics_t) (summary : summary_t) :
  Forall (fun kv => snd kv = []) metrics ->
  summarize_metrics beyond metrics summary = Ok summary.
Proof.
  induction 1 as [|[k vs] rest Hv _ IH]; simpl; trivial.
  simpl in Hv. now subst vs.
Qed.

Lemma no_contribution (entries : list artifact) (name : string) :
  (forall a, In a entries -> contribution json_loads yaml a name = []) ->
  flat_map (fun a => contribution json_loads yaml a name) entries = [].
Proof.
  induction entries as [|a rest IH]; intros H; simpl; trivial.
  rewrite (H a (or_introl eq_refl)). apply IH.
  intros a' Ha'. apply H. now right.
Qed.

Lemma summarize_no_samples (entries : list artifact) :
  (forall a name, In a entries -> contribution json_loads yaml a name = []) ->
  snd (summarize_artifacts json_loads yaml beyond entries) = Ok [].
Proof.
  intros H. rewrite summarize_artifacts_split. cbn [snd].
  apply summarize_all_empty. apply Forall_forall. intros [k vs] Hin.
  simpl. rewrite <- (samples_of_entry k vs _ (scanned_keys _ _ entries) Hin).
  rewrite scanned_samples. apply no_contribution.
  intros a Ha. now apply H.
Qed.

End MainFacts.

(** ** Sorted names *)

Lemma name_le_trans (a b c : string) : name_le a b -> name_le b c -> name_le a c.
Proof.
  unfold name_le, String.leb. revert b c.
  induction a as [|x a IH]; intros [|y b] [|z c]; simpl; trivial;
    try discriminate.
  unfold Ascii.compare.
  destruct (N.compare_spec (N_of_ascii x) (N_of_ascii y)),
           (N.compare_spec (N_of_ascii y) (N_of_ascii z)),
           (N.compare_spec (N_of_ascii x) (N_of_ascii z));
    trivial; try discriminate; try lia.
  apply IH.
Qed.

Lemma insert_sorted_sorted (name : string) (names : list string) :
  StronglySorted name_le names ->
  StronglySorted name_le (Str.insert_sorted name names).
Proof.
  induction 1 as [|other rest Hs IH Hall]; simpl.
  - constructor; constructor.
  - destruct (String.leb name other) eqn:E.
    + constructor; [now constructor|].
      constructor; [exact E|].
      eapply Forall_impl; [|exact Hall].
      intros c Hc. now apply name_le_trans with other.
    + constructor; [exact IH|].
      apply Forall_forall. intros c Hc.
      apply in_insert_sorted in Hc. destruct Hc as [->|Hc].
      * destruct (String.leb_total name other) as [T|T]; [congruence|exact T].
      * rewrite Forall_forall in Hall. now apply Hall.
Qed.

Lemma sorted_sorted (names : list string) :
  StronglySorted name_le (Str.sorted names).
Proof.
  induction names as [|n rest IH]; simpl.
  - constructor.
  - now apply insert_sorted_sorted.
Qed.

Lemma insert_sorted_permutation (name : string) (names : list string) :
  Permutation (name :: names) (Str.insert_sorted name names).
Proof.
  induction names as [|other rest IH]; simpl; trivial.
  destruct (String.leb name other); trivial.
  eapply Permutation_trans; [apply perm_swap|]. now apply perm_skip.
Qed.

Lemma sorted_permutation (names : list string) :
  Permutation names (Str.sorted names).
Proof.
  induction names as [|n rest IH]; simpl; trivial.
  eapply Permutation_trans; [|apply insert_sorted_permutation].
  now apply perm_skip.
Qed.

(** Two sorted lists with the same elements are the same list. *)
Lemma sorted_unique (xs ys : list string) :
  StronglySorted name_le xs -> StronglySorted name_le ys ->
  Permutation xs ys -> xs = ys.
Proof.
  intros Hx. revert ys.
  induction Hx as [|x xs Hxs IH Hax]; intros ys Hy Hp.
  - apply Permutation_nil in Hp. now subst.
  - destruct Hy as [|y ys Hys Hay].
    + apply Permutation_sym, Permutation_nil in Hp. discriminate.
    + assert (E : x = y).
      { rewrite Forall_forall in Hax, Hay.
        assert (Ix : In x (y :: ys))
          by (eapply Permutation_in; [exact Hp | now left]).
        assert (Iy : In y (x :: xs))
          by (eapply Permutation_in; [apply Permutation_sym, Hp | now left]).
        destruct Ix as [<-|Ix]; trivial.
        destruct Iy as [<-|Iy]; trivial.
        apply String.leb_antisym; [apply Hax, Iy | apply Hay, Ix]. }
      subst y. f_equal. apply IH; trivial.
      now apply Permutation_cons_inv with x.
Qed.

Lemma sorted_of_permutation (xs ys : list string) :
  Permutation xs ys -> Str.sorted xs = Str.sorted ys.
Proof.
  intros Hp. apply sorted_unique; try apply sorted_sorted.
  eapply Permutation_trans; [apply Permutation_sym, sorted_permutation|].
  eapply Permutation_trans; [exact Hp|]. apply sorted_permutation.
Qed.

(** ** The keys of the summary *)

Lemma keys_set {V} (k : string) (v : V) (d : list (string * V)) :
  NoDup (keys d) -> NoDup (keys (Metrics.set k v d)).
Proof.
  induction d as [|[k' old] rest IH]; simpl; intros Hn.
  - constructor; [intros []|constructor].
  - inversion Hn as [|? ? Hk Hrest]; subst.
    destruct (String.eqb_spec k' k) as [->|Hneq]; simpl.
    + now constructor.
    + constructor; [|now apply IH].
      intros Hin. apply Hk.
      apply in_map_iff in Hin. destruct Hin as ([k2 v2] & E & Hin).
      simpl in E. subst k2.
      apply in_set in Hin. destruct Hin as [Hin|Hin].
      * injection Hin as E _. congruence.
      * change k' with (fst (k', v2)). now apply in_map.
Qed.

Lemma summarize_metrics_keys beyond (metrics : metrics_t) :
  forall summary final,
    NoDup (keys summary) ->
    summarize_metrics beyond metrics summary = Ok final ->
    NoDup (keys final).
Proof.
  induction metrics as [|[k values] rest IH]; intros summary final Hn H.
  - simpl in H. now injection H as <-.
  - simpl in H. destruct values as [|v values'].
    + now apply (IH summary).
    + destruct (summarize_values beyond (v :: values')) as [st|exc];
        simpl in H; [|discriminate].
      apply (IH (Metrics.set k st summary)); trivial. now apply keys_set.
Qed.

(** Summaries that hold the same statistics for every name print the same
    table. *)
Lemma print_rows_lookup format_8_3f (summary1 summary2 : summary_t)
    (names : list string) :
  (forall name, Metrics.lookup name summary1 = Metrics.lookup name summary2) ->
  forall out,
    print_rows format_8_3f summary1 names out
    = print_rows format_8_3f summary2 names out.
Proof.
  intros H. induction names as [|n rest IH]; intros out; simpl; trivial.
  rewrite H. destruct (Metrics.lookup n summary2); trivial.
  destruct (row format_8_3f n s); trivial.
Qed.

Lemma print_summary_table_lookup format_8_3f (summary1 summary2 : summary_t) :
  NoDup (keys summary1) -> NoDup (keys summary2) ->
  (forall name, Metrics.lookup name summary1 = Metrics.lookup name summary2) ->
  print_summary_table format_8_3f summary1
  = print_summary_table format_8_3f summary2.
Proof.
  intros N1 N2 H.
  assert (Hp : Permutation (keys summary1) (keys summary2)).
  { apply NoDup_Permutation; trivial. intros name.
    pose proof (lookup_in_keys name summary1) as L1.
    pose proof (lookup_in_keys name summary2) as L2.
    rewrite H in L1.
    destruct (Metrics.lookup name summary2).
    - split; intros _.
      + destruct (in_dec string_dec name (keys summary2)) as [I|I]; trivial.
        apply L2 in I. discriminate.
      + destruct (in_dec string_dec name (keys summary1)) as [I|I]; trivial.
        apply L1 in I. discriminate.
    - split; intros I; exfalso.
      + now apply (proj1 L1).
      + now apply (proj1 L2). }
  unfold print_summary_table.
  destruct summary1 as [|e1 r1] eqn:E1, summary2 as [|e2 r2] eqn:E2; trivial.
  - apply Permutation_nil in Hp. discriminate.
  - apply Permutation_sym, Permutation_nil in Hp. discriminate.
  - rewrite <- E1, <- E2 in *.
    fold (keys summary1). fold (keys summary2).
    rewrite (sorted_of_permutation _ _ Hp). now apply print_rows_lookup.
Qed.

(** ** Where the leaves of a document go *)

Lemma collect_dict (items : list (string * value)) (prefix : string)
    (metrics : metrics_t) :
  collect_numeric (VDict items) prefix metrics = walk_items prefix items metrics.
Proof.
  simpl. revert metrics.
  induction items as [|[key v] rest IH]; intros metrics; simpl; trivial.
  unfold and_then.
  destruct (collect_numeric v (prefix ++ key ++ ".") metrics) as [m' [[]|exc]];
    trivial.
Qed.

Lemma collect_list_from (elements : list value) (prefix : string) :
  forall idx metrics,
    (fix each_element (elements : list value) (idx : nat)
         (metrics : metrics_t) : metrics_t * result unit :=
       match elements with
       | [] => (metrics, Ok tt)
       | v :: rest =>
           match collect_numeric v (prefix ++ Str.of_nat idx ++ ".") metrics with
           | (metrics', Ok _) => each_element rest (S idx) metrics'
           | (metrics', Raise exc) => (metrics', Raise exc)
           end
       end) elements idx metrics
    = walk_elements prefix elements idx metrics.
Proof.
  induction elements as [|v rest IH]; intros idx metrics; simpl; trivial.
  unfold and_then.
  destruct (collect_numeric v (prefix ++ Str.of_nat idx ++ ".") metrics)
    as [m' [[]|exc]]; trivial.
Qed.

Lemma collect_list (elements : list value) (prefix : string)
    (metrics : metrics_t) :
  collect_numeric (VList elements) prefix metrics
  = walk_elements prefix elements 0 metrics.
Proof. simpl. apply collect_list_from. Qed.

Lemma walk_items_appender prefix items : appender (walk_items prefix items).
Proof.
  induction items as [|[key v] rest IH]; simpl.
  - apply appender_skip.
  - apply appender_and_then; [apply collect_numeric_appender | exact IH].
Qed.

Lemma walk_elements_appender prefix elements :
  forall idx, appender (walk_elements prefix elements idx).
Proof.
  induction elements as [|v rest IH]; intros idx; simpl.
  - apply appender_skip.
  - apply appender_and_then; [apply collect_numeric_appender | apply IH].
Qed.

(** What is in a series stays there through a step that only appends. *)
Lemma appender_keeps step metrics name leaf :
  appender step -> NoDup (keys metrics) ->
  has_sample name leaf metrics ->
  has_sample name leaf (fst (step metrics)).
Proof.
  intros Ha Hn (x & Hx & Hin). destruct (Ha metrics Hn) as (_ & _ & S).
  exists x. split; trivial. rewrite S. apply in_or_app. now left.
Qed.

(** When two steps in a row do not raise, the first does not. *)
Lemma and_then_ok first second metrics :
  snd (and_then first second metrics) = Ok tt ->
  snd (first metrics) = Ok tt
  /\ and_then first second metrics = second (fst (first metrics)).
Proof.
  unfold and_then.
  destruct (first metrics) as [m' [[]|exc]]; simpl; [auto|discriminate].
Qed.

Lemma walk_items_records name leaf prefix items key child :
  In (key, child) items ->
  records name leaf child (prefix ++ key ++ ".") ->
  forall metrics,
    NoDup (keys metrics) ->
    snd (walk_items prefix items metrics) = Ok tt ->
    has_sample name leaf (fst (walk_items prefix items metrics)).
Proof.
  intros Hin Hrec.
  induction items as [|[k v] rest IH]; intros metrics Hn Hok; [destruct Hin|].
  simpl in *. destruct (and_then_ok _ _ _ Hok) as [Hv E].
  rewrite E in *.
  destruct (collect_numeric_appender v (prefix ++ k ++ ".") metrics Hn)
    as (Hn' & _ & _).
  destruct Hin as [Heq|Hin].
  - injection Heq as -> ->.
    apply appender_keeps; trivial; [apply walk_items_appender|].
    now apply Hrec.
  - now apply IH.
Qed.

Lemma walk_elements_records name leaf prefix elements :
  forall idx pos child,
    nth_error elements pos = Some child ->
    records name leaf child (prefix ++ Str.of_nat (idx + pos) ++ ".") ->
    forall metrics,
      NoDup (keys metrics) ->
      snd (walk_elements prefix elements idx metrics) = Ok tt ->
      has_sample name leaf (fst (walk_elements prefix elements idx metrics)).
Proof.
  induction elements as [|v rest IH];
    intros idx pos child Hnth Hrec metrics Hn Hok.
  - destruct pos; discriminate.
  - simpl in *. destruct (and_then_ok _ _ _ Hok) as [Hv E].
    rewrite E in *.
    destruct (collect_numeric_appender v (prefix ++ Str.of_nat idx ++ ".")
                metrics Hn) as (Hn' & _ & _).
    destruct pos as [|pos]; simpl in Hnth.
    + injection Hnth as ->. rewrite Nat.add_0_r in Hrec.
      apply appender_keeps; trivial; [apply walk_elements_appender|].
      now apply Hrec.
    + apply (IH (S idx) pos child); trivial.
      now rewrite Nat.add_succ_comm.
Qed.

(** Every numeric leaf of a document whose walk does not raise is a sample
    of the series named by the prefix of the leaf without its trailing
    dots. *)
Lemma leaf_is_recorded (doc : value) (parts : list string) (leaf : value) :
  leaf_at doc parts leaf ->
  forall prefix,
    records (Str.rstrip Str.is_dot (prefix_from prefix parts)) leaf doc prefix.
Proof.
  induction 1 as [n|x|items key child parts leaf Hin Hleaf IH
                  |elements idx child parts leaf Hnth Hleaf IH];
    intros prefix metrics Hn Hok.
  - simpl in *. destruct (Float.of_int n) as [x|exc] eqn:E; [|discriminate].
    exists x. simpl. rewrite E. split; trivial.
    rewrite samples_append by apply contains_getitem.
    rewrite String.eqb_refl. apply in_or_app. right. now left.
  - exists x. split; trivial. simpl.
    rewrite samples_append by apply contains_getitem.
    rewrite String.eqb_refl. apply in_or_app. right. now left.
  - rewrite collect_dict in *. simpl prefix_from.
    eapply walk_items_records; eauto.
  - rewrite collect_list in *. simpl prefix_from.
    eapply walk_elements_records; eauto.
Qed.

(** *** The name of the series and the dotted path *)

Lemma append_nil_r (s : string) : (s ++ "")%string = s.
Proof. induction s as [|c s IH]; simpl; congruence. Qed.

Lemma append_assoc (s t u : string) :
  ((s ++ t) ++ u)%string = (s ++ t ++ u)%string.
Proof. induction s as [|c s IH]; simpl; congruence. Qed.

Lemma rstrip_app_dot (s : string) :
  Str.rstrip Str.is_dot (s ++ ".") = Str.rstrip Str.is_dot s.
Proof.
  induction s as [|c s IH]; simpl; trivial.
  now rewrite IH.
Qed.

Lemma prefix_from_app (prefix : string) (parts : list string) :
  prefix_from prefix parts = (prefix ++ prefix_from "" parts)%string.
Proof.
  revert prefix. induction parts as [|p rest IH]; intros prefix; simpl.
  - now rewrite append_nil_r.
  - rewrite IH, (IH (p ++ ".")%string). now rewrite append_assoc.
Qed.

Lemma prefix_from_join (parts : list string) :
  parts <> [] ->
  prefix_from "" parts = (Str.join "." parts ++ ".")%string.
Proof.
  induction parts as [|p rest IH]; intros Hne; [congruence|].
  simpl. rewrite prefix_from_app.
  destruct rest as [|q rest'].
  - simpl. now rewrite append_nil_r.
  - rewrite IH by discriminate.
    rewrite !append_assoc. reflexivity.
Qed.

(** The series is named by the dotted path with its trailing dots
    removed; that is the dotted path itself when it does not end with a
    dot. *)
Lemma series_name_of_path (parts : list string) :
  Str.rstrip Str.is_dot (prefix_from "" parts)
  = Str.rstrip Str.is_dot (Str.join "." parts).
Proof.
  destruct parts as [|p rest]; trivial.
  rewrite prefix_from_join by discriminate. apply rstrip_app_dot.
Qed.

(** * Facts about the script in a world that can fail *)

(** ** Traces *)

Lemma stdout_of_app (t1 t2 : list World.effect) :
  World.stdout_of (t1 ++ t2) = World.stdout_of t1 ++ World.stdout_of t2.
Proof.
  induction t1 as [|[] t1 IH]; simpl; trivial. now rewrite IH.
Qed.

Lemma stderr_of_app (t1 t2 : list World.effect) :
  World.stderr_of (t1 ++ t2) = World.stderr_of t1 ++ World.stderr_of t2.
Proof.
  induction t1 as [|[] t1 IH]; simpl; trivial. now rewrite IH.
Qed.

Lemma stdout_of_stdout (lines : list string) :
  World.stdout_of (map World.Stdout lines) = lines.
Proof. induction lines; simpl; congruence. Qed.

Lemma stderr_of_stdout (lines : list string) :
  World.stderr_of (map World.Stdout lines) = [].
Proof. induction lines; simpl; congruence. Qed.

Lemma stdout_of_stderr (lines : list string) :
  World.stdout_of (map World.Stderr lines) = [].
Proof. induction lines; simpl; congruence. Qed.

Lemma stderr_of_stderr (lines : list string) :
  World.stderr_of (map World.Stderr lines) = lines.
Proof. induction lines; simpl; congruence. Qed.

(** ** The walk with a bounded stack *)

Section BoundedWalk.

Variable w : World.env.

Lemma each_item_cons walk prefix key v rest metrics :
  World.each_item walk prefix ((key, v) :: rest) metrics
  = and_then (walk v (prefix ++ key ++ ".")%string)
      (World.each_item walk prefix rest) metrics.
Proof.
  unfold and_then. simpl.
  destruct (walk v _ metrics) as [m' [[]|exc]]; reflexivity.
Qed.

Lemma each_element_cons walk prefix v rest idx metrics :
  World.each_element walk prefix (v :: rest) idx metrics
  = and_then (walk v (prefix ++ Str.of_nat idx ++ ".")%string)
      (World.each_element walk prefix rest (S idx)) metrics.
Proof.
  unfold and_then. simpl.
  destruct (walk v _ metrics) as [m' [[]|exc]]; reflexivity.
Qed.

Lemma each_item_appender walk prefix items :
  (forall v p, appender (walk v p)) ->
  appender (World.each_item walk prefix items).
Proof.
  intros H. induction items as [|[key v] rest IH].
  - apply appender_skip.
  - eapply appender_ext.
    + intros m. symmetry. apply each_item_cons.
    + apply appender_and_then; [apply H | exact IH].
Qed.

Lemma each_element_appender walk prefix elements :
  (forall v p, appender (walk v p)) ->
  forall idx, appender (World.each_element walk prefix elements idx).
Proof.
  intros H. induction elements as [|v rest IH]; intros idx.
  - apply appender_skip.
  - eapply appender_ext.
    + intros m. symmetry. apply each_element_cons.
    + apply appender_and_then; [apply H | apply IH].
Qed.

Lemma bounded_walk_appender (left : nat) :
  forall payload prefix, appender (World.collect_numeric w left payload prefix).
Proof.
  induction left as [|left IH]; intros payload prefix.
  - apply appender_raise.
  - destruct payload as [| b | n | x | s | elements | items]; simpl.
    + apply appender_skip.
    + apply appender_skip.
    + destruct (Float.of_int n) as [x|exc].
      * apply appender_float.
      * apply appender_touch.
    + apply appender_float.
    + apply appender_skip.
    + apply each_element_appender, IH.
    + apply each_item_appender, IH.
Qed.

(** With frames enough for its nesting, the walk of a document is the
    walk of [collect_numeric]. *)
Lemma bounded_walk_fits (left : nat) :
  forall payload prefix metrics,
    height payload <= left ->
    World.collect_numeric w left payload prefix metrics
    = collect_numeric payload prefix metrics.
Proof.
  induction left as [|left IH]; intros payload prefix metrics H.
  - destruct payload; simpl in H; lia.
  - destruct payload as [| b | n | x | s | elements | items]; trivial.
    + rewrite collect_list. cbn [World.collect_numeric].
      cbn [height] in H. apply le_S_n in H.
      generalize 0%nat. revert metrics.
      induction elements as [|v rest IHl]; intros metrics idx; trivial.
      cbn [map list_max fold_right] in H.
      rewrite each_element_cons. cbn [walk_elements]. unfold and_then.
      rewrite IH by lia.
      destruct (collect_numeric v _ metrics) as [m' [[]|exc]]; trivial.
      apply IHl. unfold list_max. lia.
    + rewrite collect_dict. cbn [World.collect_numeric].
      cbn [height] in H. apply le_S_n in H.
      revert metrics.
      induction items as [|[key v] rest IHl]; intros metrics; trivial.
      cbn [map list_max fold_right snd] in H.
      rewrite each_item_cons. cbn [walk_items]. unfold and_then.
      rewrite IH by lia.
      destruct (collect_numeric v _ metrics) as [m' [[]|exc]]; trivial.
      apply IHl. unfold list_max. lia.
Qed.

End BoundedWalk.

(** ** The scan *)

Section WorldScan.

Variable w : World.env.

Lemma world_load_and_collect_appender loads text :
  appender (World.load_and_collect w loads text).
Proof.
  unfold World.load_and_collect. destruct (loads text) as [data|exc].
  - apply bounded_walk_appender.
  - apply appender_raise.
Qed.

Lemma world_collect_lines_appender lines :
  appender (World.collect_lines w lines).
Proof.
  induction lines as [|line rest IH].
  - apply appender_skip.
  - eapply appender_ext with
      (step := and_then
                 (fun m => if negb (Str.truthy (Str.strip line))
                           then (m, Ok tt)
                           else World.load_and_collect w (World.json_loads w)
                                  line m)
                 (World.collect_lines w rest)).
    + intros m. unfold and_then. simpl.
      destruct (negb _); reflexivity.
    + apply appender_and_then; [|exact IH].
      destruct (negb _).
      * apply appender_skip.
      * apply world_load_and_collect_appender.
Qed.

Lemma world_scan_file_appender a : appender (World.scan_file w a).
Proof.
  unfold World.scan_file.
  destruct (String.eqb (suffix a) ".json").
  { destruct (read_text a);
      [apply world_load_and_collect_appender | apply appender_raise]. }
  destruct (String.eqb (suffix a) ".jsonl").
  { destruct (read_text a);
      [apply world_collect_lines_appender | apply appender_raise]. }
  destruct (World.yaml w) as [safe_load|]; [|apply appender_skip].
  destruct (_ || _); [|apply appender_skip].
  destruct (read_text a);
    [apply world_load_and_collect_appender | apply appender_raise].
Qed.

Lemma world_visit_appender a : appender (World.visit w a).
Proof.
  unfold World.visit. destruct (is_dir a).
  - apply appender_skip.
  - apply world_scan_file_appender.
Qed.

(** The visits of the entries, from any dictionary. *)
Lemma world_visits entries :
  forall metrics,
    NoDup (keys metrics) ->
    NoDup (keys (fold_left (fun m a => fst (World.visit w a m)) entries metrics))
    /\ forall name,
         Metrics.samples name
           (fold_left (fun m a => fst (World.visit w a m)) entries metrics)
         = Metrics.samples name metrics
           ++ flat_map (fun a => World.contribution w a name) entries.
Proof.
  induction entries as [|a rest IH]; intros metrics Hn; simpl.
  - split; trivial. intros name. now rewrite app_nil_r.
  - destruct (world_visit_appender a metrics Hn) as (K & _ & S).
    destruct (IH _ K) as (K' & S'). split; trivial.
    intros name. rewrite S', S, <- app_assoc. reflexivity.
Qed.

Lemma world_scanned_keys entries : NoDup (keys (World.scanned w entries)).
Proof. apply world_visits. constructor. Qed.

Lemma world_scanned_samples entries name :
  Metrics.samples name (World.scanned w entries)
  = flat_map (fun a => World.contribution w a name) entries.
Proof.
  unfold World.scanned.
  now rewrite (proj2 (world_visits entries [] (NoDup_nil _)) name).
Qed.

(** When the listing completes and the standard error takes the
    diagnostics, the scan visits every entry and writes the diagnostics in
    the order of the visit. *)
Lemma world_scan_completes entries :
  forall metrics,
    NoDup (keys metrics) ->
    World.accepts (World.print_stderr w) (flat_map (World.diagnostic w) entries) ->
    World.scan w (map World.Entry entries) metrics
    = (map World.Stderr (flat_map (World.diagnostic w) entries),
       Ok (fold_left (fun m a => fst (World.visit w a m)) entries metrics)).
Proof.
  induction entries as [|a rest IH]; intros metrics Hn Hacc; trivial.
  destruct (world_visit_appender a metrics Hn) as (K & R & _).
  simpl in Hacc. apply Forall_app in Hacc. destruct Hacc as [Ha Hrest].
  specialize (IH _ K Hrest).
  cbn [map World.scan fold_left flat_map]. rewrite map_app.
  unfold World.diagnostic at 1. unfold World.diagnostic at 1 in Ha.
  rewrite <- R. unfold World.visit in *.
  destruct (is_dir a); [exact IH|].
  destruct (World.scan_file w a metrics) as [m' [[]|exc]]; cbn [fst snd] in *.
  - exact IH.
  - rewrite <- R in Ha. apply Forall_inv in Ha.
    unfold World.bind, World.eprint. rewrite Ha, IH. reflexivity.
Qed.

(** When the scan returns, the listing has completed and the standard
    error has taken the diagnostics. *)
Lemma world_scan_returns listing :
  forall metrics final,
    NoDup (keys metrics) ->
    snd (World.scan w listing metrics) = Ok final ->
    exists entries,
      listing = map World.Entry entries
      /\ World.accepts (World.print_stderr w)
           (flat_map (World.diagnostic w) entries).
Proof.
  induction listing as [|[a|exc] rest IH]; intros metrics final Hn H.
  - exists []. split; [reflexivity|constructor].
  - destruct (world_visit_appender a metrics Hn) as (K & R & _).
    cbn [World.scan] in H.
    assert (G : forall m', NoDup (keys m') ->
                snd (World.scan w rest m') = Ok final ->
                World.accepts (World.print_stderr w) (World.diagnostic w a) ->
                exists entries,
                  World.Entry a :: rest = map World.Entry entries
                  /\ World.accepts (World.print_stderr w)
                       (flat_map (World.diagnostic w) entries)).
    { intros m' Km Hm Ha. destruct (IH m' final Km Hm) as (entries & -> & Hacc).
      exists (a :: entries). split; [reflexivity|].
      simpl. apply Forall_app. now split. }
    unfold World.diagnostic in G. rewrite <- R in G. unfold World.visit in *.
    destruct (is_dir a).
    + apply (G metrics); trivial. constructor.
    + destruct (World.scan_file w a metrics) as [m' [[]|e]]; cbn [fst snd] in *.
      * apply (G m'); trivial. constructor.
      * unfold World.bind, World.eprint in H.
        destruct (World.print_stderr w _) as [[]|e'] eqn:Hp; [|discriminate].
        destruct (World.scan w rest m') as [t r] eqn:Hs. cbn [snd] in H.
        apply (G m'); trivial.
        -- now rewrite Hs.
        -- constructor; [exact Hp|constructor].
  - discriminate.
Qed.

(** An entry that cannot be examined ends the scan: the entries before
    it are visited, the entries after it are not. *)
Lemma world_scan_fails before exc after :
  forall metrics,
    NoDup (keys metrics) ->
    World.accepts (World.print_stderr w) (flat_map (World.diagnostic w) before) ->
    World.scan w (map World.Entry before ++ World.Fails exc :: after) metrics
    = (map World.Stderr (flat_map (World.diagnostic w) before), Raise exc).
Proof.
  induction before as [|a rest IH]; intros metrics Hn Hacc; trivial.
  destruct (world_visit_appender a metrics Hn) as (K & R & _).
  simpl in Hacc. apply Forall_app in Hacc. destruct Hacc as [Ha Hrest].
  specialize (IH _ K Hrest).
  cbn [map World.scan flat_map app]. rewrite map_app.
  unfold World.diagnostic at 1. unfold World.diagnostic at 1 in Ha.
  rewrite <- R. unfold World.visit in *.
  destruct (is_dir a); [exact IH|].
  destruct (World.scan_file w a metrics) as [m' [[]|e]]; cbn [fst snd] in *.
  - exact IH.
  - rewrite <- R in Ha. apply Forall_inv in Ha.
    unfold World.bind, World.eprint. rewrite Ha, IH. reflexivity.
Qed.

End WorldScan.

(** ** Blank lines *)

Lemma isspace_whitespace (c : ascii) :
  Str.isspace c = existsb (Nat.eqb (nat_of_ascii c)) whitespace.
Proof. destruct c as [[] [] [] [] [] [] [] []]; reflexivity. Qed.

Lemma lstrip_empty (p : ascii -> bool) (s : string) :
  Str.truthy (Str.lstrip p s) = negb (forallb p (list_ascii_of_string s)).
Proof.
  induction s as [|c rest IH]; simpl; trivial.
  destruct (p c); simpl; trivial.
Qed.

Lemma rstrip_empty (p : ascii -> bool) (s : string) :
  forallb p (list_ascii_of_string s) = true -> Str.rstrip p s = "".
Proof.
  induction s as [|c rest IH]; simpl; trivial.
  intros H. apply andb_prop in H. destruct H as [Hc Hr].
  now rewrite (IH Hr), Hc.
Qed.

(** What [rstrip] leaves holds a character outside the set, when the
    string does. *)
Lemma rstrip_keeps_other (p : ascii -> bool) (s : string) :
  forallb p (list_ascii_of_string s) = false ->
  forallb p (list_ascii_of_string (Str.rstrip p s)) = false.
Proof.
  induction s as [|c rest IH]; simpl; trivial.
  destruct (forallb p (list_ascii_of_string rest)) eqn:Er.
  - rewrite (rstrip_empty p rest Er), andb_true_r. intros Hc.
    rewrite Hc. simpl. now rewrite Hc.
  - intros _. specialize (IH eq_refl).
    destruct (Str.rstrip p rest) as [|c' kept] eqn:Ek; [discriminate|].
    cbn [list_ascii_of_string forallb]. cbn [list_ascii_of_string forallb] in IH.
    rewrite IH. apply andb_false_r.
Qed.

Lemma is_blank_isspace (line : string) :
  is_blank line = forallb Str.isspace (list_ascii_of_string line).
Proof.
  unfold is_blank. induction (list_ascii_of_string line) as [|c rest IH];
    cbn [forallb]; trivial.
  now rewrite IH, isspace_whitespace.
Qed.

Lemma strip_blank (line : string) :
  Str.truthy (Str.strip line) = negb (is_blank line).
Proof.
  unfold Str.strip. rewrite lstrip_empty, is_blank_isspace. f_equal.
  destruct (forallb Str.isspace (list_ascii_of_string line)) eqn:E.
  - now rewrite (rstrip_empty _ _ E).
  - now apply rstrip_keeps_other.
Qed.

(** ** Printing *)

Lemma first_refusal_accepts (print : string -> result unit)
    (lines : list string) :
  World.accepts print lines -> first_refusal print lines = (lines, None).
Proof.
  induction 1 as [|line rest Hl _ IH]; simpl; trivial.
  now rewrite Hl, IH.
Qed.

Lemma first_refusal_refused (print : string -> result unit)
    (before after : list string) (line exc : string) :
  World.accepts print before -> print line = Raise exc ->
  first_refusal print (before ++ line :: after) = (before, Some exc).
Proof.
  intros Hb Hl. induction Hb as [|l rest Ha _ IH]; simpl.
  - now rewrite Hl.
  - now rewrite Ha, IH.
Qed.

Lemma first_refusal_none (print : string -> result unit)
    (lines written : list string) :
  first_refusal print lines = (written, None) ->
  written = lines /\ World.accepts print lines.
Proof.
  revert written. induction lines as [|line rest IH]; intros written; simpl.
  - intros H. injection H as <-. split; [reflexivity|constructor].
  - destruct (print line) as [[]|exc] eqn:E; [|discriminate].
    destruct (first_refusal print rest) as [wr rf]. intros H.
    injection H as <- ->. destruct (IH wr eq_refl) as [-> Ha].
    split; [reflexivity|]. now constructor.
Qed.

Lemma bind_print (w : World.env) {A} (line : string) (k : unit -> World.io A) :
  World.bind (World.print w line) k
  = match World.print_stdout w line with
    | Ok _ => (World.Stdout line :: fst (k tt), snd (k tt))
    | Raise exc => ([], Raise exc)
    end.
Proof.
  unfold World.bind, World.print.
  destruct (World.print_stdout w line) as [[]|exc]; trivial.
  now destruct (k tt).
Qed.

Lemma print_rows_out format_8_3f (summary : summary_t) (names : list string) :
  forall out,
    print_rows format_8_3f summary names out
    = (out ++ fst (print_rows format_8_3f summary names []),
       snd (print_rows format_8_3f summary names [])).
Proof.
  induction names as [|name rest IH]; intros out; simpl.
  - now rewrite app_nil_r.
  - destruct (Metrics.lookup name summary) as [st|]; simpl;
      [|now rewrite app_nil_r].
    destruct (row format_8_3f name st) as [line|exc]; simpl;
      [|now rewrite app_nil_r].
    rewrite (IH (out ++ [line])), (IH [line]). simpl.
    now rewrite <- app_assoc.
Qed.

(** The rows are printed in order until the stream refuses one. *)
Lemma world_print_rows (w : World.env) (summary : summary_t)
    (names : list string) :
  World.print_rows w summary names
  = match first_refusal (World.print_stdout w)
            (fst (print_rows (World.format_8_3f w) summary names [])) with
    | (written, None) =>
        (map World.Stdout written,
         snd (print_rows (World.format_8_3f w) summary names []))
    | (written, Some exc) => (map World.Stdout written, Raise exc)
    end.
Proof.
  induction names as [|name rest IH]; trivial.
  cbn [World.print_rows print_rows].
  destruct (Metrics.lookup name summary) as [st|]; trivial.
  unfold World.lift at 1. cbn [World.bind app].
  destruct (row (World.format_8_3f w) name st) as [line|exc]; trivial.
  unfold World.lift at 1. cbn [World.bind app].
  rewrite bind_print, (print_rows_out _ _ _ [line]). cbn [fst snd app].
  cbn [first_refusal].
  destruct (World.print_stdout w line) as [[]|exc]; trivial.
  rewrite IH.
  destruct (first_refusal _ _) as [written [exc|]]; reflexivity.
Qed.

Lemma world_print_summary_table (w : World.env) (summary : summary_t) :
  World.print_summary_table w summary
  = match first_refusal (World.print_stdout w)
            (table (World.format_8_3f w) summary) with
    | (written, None) =>
        (map World.Stdout written,
         snd (print_summary_table (World.format_8_3f w) summary))
    | (written, Some exc) => (map World.Stdout written, Raise exc)
    end.
Proof.
  unfold table, World.print_summary_table, print_summary_table.
  destruct summary as [|entry rest].
  - unfold World.print, no_metrics. cbn [fst snd first_refusal].
    destruct (World.print_stdout w _) as [[]|exc]; reflexivity.
  - rewrite print_rows_out. cbn [fst snd app first_refusal].
    rewrite !bind_print, world_print_rows.
    destruct (World.print_stdout w header) as [[]|exc]; trivial.
    destruct (World.print_stdout w (Str.repeat _ _)) as [[]|exc]; trivial.
    destruct (first_refusal _ _) as [written [exc|]]; reflexivity.
Qed.

Lemma world_print_summary_table_lookup (w : World.env)
    (summary1 summary2 : summary_t) :
  NoDup (keys summary1) -> NoDup (keys summary2) ->
  (forall name, Metrics.lookup name summary1 = Metrics.lookup name summary2) ->
  World.print_summary_table w summary1 = World.print_summary_table w summary2.
Proof.
  intros H1 H2 H. rewrite !world_print_summary_table. unfold table.
  now rewrite (print_summary_table_lookup _ _ _ H1 H2 H).
Qed.

(** ** The summary *)

Section WorldSummary.

Variable beyond : list Float.float -> result Float.float.


(** The summary is returned exactly when the statistics of every series
    with samples can be computed. *)
Lemma summary_returned (metrics : metrics_t) :
  NoDup (keys metrics) ->
  is_ok (summarize_metrics beyond metrics []) = true
  <-> forall name,
        Metrics.samples name metrics <> [] ->
        is_ok (summarize_values beyond (Metrics.samples name metrics)) = true.
Proof.
  intros Hn. pose proof (summarize_metrics_spec beyond metrics [] Hn) as S.
  destruct (summarize_metrics beyond metrics []) as [summary|exc]; simpl;
    split; trivial; try discriminate.
  - intros _ name Hne. specialize (S name). unfold series_stats in S.
    destruct (Metrics.samples name metrics); [congruence|].
    destruct S as (st & -> & _). reflexivity.
  - intros H. destruct S as (name & e & S). unfold series_stats in S.
    specialize (H name).
    destruct (Metrics.samples name metrics); [discriminate|].
    injection S as S. rewrite S in H. simpl in H. apply H. discriminate.
Qed.

End WorldSummary.

(** ** The summarize command *)

Section WorldMain.

Variable w : World.env.

Lemma world_summarize_completes (directory : string)
    (entries : list artifact) :
  World.rglob w directory = map World.Entry entries ->
  World.accepts (World.print_stderr w) (flat_map (World.diagnostic w) entries) ->
  World.summarize_artifacts w directory
  = (map World.Stderr (flat_map (World.diagnostic w) entries),
     summarize_metrics (World.fsum_beyond w) (World.scanned w entries) []).
Proof.
  intros Hl Ha. unfold World.summarize_artifacts. rewrite Hl.
  rewrite (world_scan_completes w entries [] (NoDup_nil _) Ha).
  unfold World.bind, World.lift. now rewrite app_nil_r.
Qed.

(** The trace of the scan holds diagnostics only. *)
Lemma world_scan_trace listing :
  forall metrics,
    fst (World.scan w listing metrics)
    = map World.Stderr (World.stderr_of (fst (World.scan w listing metrics))).
Proof.
  induction listing as [|[a|exc] rest IH]; intros metrics; trivial.
  cbn [World.scan]. destruct (is_dir a); [apply IH|].
  destruct (World.scan_file w a metrics) as [m' [[]|e]]; [apply IH|].
  unfold World.bind, World.eprint.
  destruct (World.print_stderr w _) as [[]|e']; trivial.
  specialize (IH m'). destruct (World.scan w rest m') as [t r].
  cbn [fst app] in *. cbn [World.stderr_of map]. now rewrite <- IH.
Qed.

Lemma world_summarize_trace (directory : string) :
  fst (World.summarize_artifacts w directory)
  = map World.Stderr
      (World.stderr_of (fst (World.summarize_artifacts w directory))).
Proof.
  unfold World.summarize_artifacts.
  pose proof (world_scan_trace (World.rglob w directory) []) as H.
  destruct (World.scan w (World.rglob w directory) []) as [t [m|exc]];
    cbn [fst] in *; unfold World.bind, World.lift; cbn [fst].
  - now rewrite app_nil_r.
  - exact H.
Qed.

(** The command, once the directory exists. *)
Lemma world_main_summarize (directory : string) :
  World.exists_ w directory = Ok true ->
  World.main_summarize w directory
  = match World.summarize_artifacts w directory with
    | (diagnostics, Raise exc) => (diagnostics, Uncaught exc)
    | (diagnostics, Ok summary) =>
        match World.print_summary_table w summary with
        | (printed, Ok _) => (diagnostics ++ printed, Exit 0)
        | (printed, Raise exc) => (diagnostics ++ printed, Uncaught exc)
        end
    end.
Proof.
  intros He. unfold World.main_summarize. rewrite He.
  destruct (World.summarize_artifacts w directory) as [d [summary|exc]];
    trivial.
  unfold World.bind at 1.
  destruct (World.print_summary_table w summary) as [p [[]|exc]]; simpl;
    now rewrite ?app_nil_r.
Qed.

End WorldMain.

(** * The claims *)

(** ** Dotted paths (C2) *)

(** The example of the specification: one JSON file holding the nested
    mapping yields exactly the two series a.b and a.c, each with one
    sample. *)
Lemma nested_document_summary
    (json_loads : string -> result value)
    (yaml : option (string -> result value))
    (beyond : list Float.float -> result Float.float) (name text : string) :
  json_loads text = Ok Sample.doc_nested ->
  summarize_artifacts json_loads yaml beyond [Sample.json_file name text]
  = ([], Ok [("a.b", mk_stats Sample.one Sample.one Sample.one Sample.one);
             ("a.c", mk_stats Sample.one Sample.two_and_a_half
                       Sample.two_and_a_half Sample.two_and_a_half)]).
Proof.
  intros H. unfold summarize_artifacts, scan, scan_file, load_and_collect.
  simpl. rewrite H. vm_compute. reflexivity.
Qed.

(** In general: a numeric leaf of a document whose walk does not raise is
    a sample of the series named by its dotted path, provided the dotted
    path does not end with a dot. *)
Lemma leaf_recorded_under_dotted_path (doc : value) (parts : list string)
    (leaf : value) (metrics : metrics_t) :
  leaf_at doc parts leaf ->
  Str.rstrip Str.is_dot (Str.join "." parts) = Str.join "." parts ->
  NoDup (keys metrics) ->
  snd (collect_numeric doc "" metrics) = Ok tt ->
  has_sample (Str.join "." parts) leaf (fst (collect_numeric doc "" metrics)).
Proof.
  intros Hleaf Hdot Hn Hok.
  rewrite <- Hdot, <- series_name_of_path.
  now apply (leaf_is_recorded doc parts leaf Hleaf "").
Qed.

(** C2, at the input where the code departs from the claim: the leaf under
    the key [a.] (its dotted path is [a.]) is recorded under the series
    [a], because [rstrip] removes every trailing dot and not only the
    separator that the walk added; no series [a.] exists. *)
Theorem C2_key_ending_with_dot :
  collect_numeric Sample.doc_dotted "" [] = ([("a", [Sample.one])], Ok tt)
  /\ summarize_artifacts Sample.loads None Sample.beyond
       [Sample.json_file "runs/dotted.json" Sample.text_dotted]
     = ([], Ok [("a", mk_stats Sample.one Sample.one Sample.one Sample.one)])
  /\ Str.join "." ["a."] = "a.".
Proof. repeat split; vm_compute; reflexivity. Qed.

(** ** Scalars that are not numbers (C3) *)

(** C3: booleans, strings and null are dropped without an error and leave
    the dictionary as it is; a float is appended to the series of its
    prefix, and so is an integer that converts to a float; hence the
    document with a boolean and a string leaves the dictionary as it is,
    and a directory holding only that document has an empty summary. *)
Theorem C3_only_numbers_are_collected :
  (forall b prefix metrics,
      collect_numeric (VBool b) prefix metrics = (metrics, Ok tt))
  /\ (forall s prefix metrics,
         collect_numeric (VStr s) prefix metrics = (metrics, Ok tt))
  /\ (forall prefix metrics,
         collect_numeric VNone prefix metrics = (metrics, Ok tt))
  /\ (forall x prefix metrics,
         let name := Str.rstrip Str.is_dot prefix in
         Metrics.samples name (fst (collect_numeric (VFloat x) prefix metrics))
         = Metrics.samples name metrics ++ [x])
  /\ (forall n prefix metrics,
         let name := Str.rstrip Str.is_dot prefix in
         Metrics.samples name (fst (collect_numeric (VInt n) prefix metrics))
         = Metrics.samples name metrics
           ++ match Float.of_int n with Ok x => [x] | Raise _ => [] end)
  /\ (forall prefix metrics,
         collect_numeric Sample.doc_flag prefix metrics = (metrics, Ok tt))
  /\ (forall json_loads yaml beyond name text,
         json_loads text = Ok Sample.doc_flag ->
         summarize_artifacts json_loads yaml beyond [Sample.json_file name text]
         = ([], Ok [])).
Proof.
  repeat split; try reflexivity.
  - intros x prefix metrics name. simpl.
    rewrite samples_append by apply contains_getitem.
    now rewrite samples_getitem, String.eqb_refl.
  - intros n prefix metrics name. simpl.
    destruct (Float.of_int n) as [x|exc]; simpl.
    + rewrite samples_append by apply contains_getitem.
      now rewrite samples_getitem, String.eqb_refl.
    + now rewrite samples_getitem, app_nil_r.
  - intros json_loads yaml beyond name text H.
    unfold summarize_artifacts, scan, scan_file, load_and_collect.
    simpl. now rewrite H.
Qed.

Lemma C3_only_numbers_are_collected_witness :
  summarize_artifacts Sample.loads None Sample.beyond
    [Sample.json_file "runs/flags.json" Sample.text_flag]
  = ([], Ok []).
Proof.
  apply (proj2 (proj2 (proj2 (proj2 (proj2 (proj2
           C3_only_numbers_are_collected)))))).
  vm_compute. reflexivity.
Defined.

(** ** Line-delimited files (C5) *)

Section JsonLines.

Variable json_loads : string -> result value.

Lemma collect_lines_blank (line : string) (rest : list string)
    (metrics : metrics_t) :
  is_blank line = true ->
  collect_lines json_loads (line :: rest) metrics
  = collect_lines json_loads rest metrics.
Proof.
  intros H. cbn [collect_lines]. now rewrite strip_blank, H.
Qed.

Lemma collect_lines_nonblank (line : string) (rest : list string)
    (metrics : metrics_t) :
  is_blank line = false ->
  collect_lines json_loads (line :: rest) metrics
  = and_then (load_and_collect json_loads line)
      (collect_lines json_loads rest) metrics.
Proof.
  intros H. cbn [collect_lines]. rewrite strip_blank, H. cbn [negb].
  unfold and_then.
  destruct (load_and_collect json_loads line metrics) as [m' [[]|exc]];
    reflexivity.
Qed.

(** The samples of a file are those of its decoded lines, in order. *)
Lemma collect_lines_decoded (lines : list string) (name : string) :
  Metrics.samples name (fst (collect_lines json_loads lines []))
  = flat_map
      (fun line =>
         Metrics.samples name (fst (load_and_collect json_loads line [])))
      (decoded_lines json_loads lines).
Proof.
  induction lines as [|line rest IH]; trivial.
  cbn [decoded_lines]. destruct (is_blank line) eqn:B.
  - now rewrite collect_lines_blank.
  - rewrite collect_lines_nonblank by exact B. unfold and_then.
    destruct (load_and_collect_appender json_loads line [] (NoDup_nil _))
      as (K & _ & _).
    destruct (load_and_collect json_loads line []) as [m1 [[]|exc]] eqn:E;
      cbn [fst snd is_ok flat_map] in *; rewrite E; cbn [fst snd is_ok].
    + destruct (collect_lines_appender json_loads rest m1 K) as (_ & _ & S).
      now rewrite S, IH.
    + now rewrite app_nil_r.
Qed.

Lemma collect_lines_returns (lines : list string) :
  is_ok (snd (collect_lines json_loads lines [])) = true
  <-> Forall
        (fun line => is_ok (snd (load_and_collect json_loads line [])) = true)
        (decoded_lines json_loads lines).
Proof.
  induction lines as [|line rest IH].
  - split; [constructor | reflexivity].
  - cbn [decoded_lines]. destruct (is_blank line) eqn:B.
    + now rewrite collect_lines_blank.
    + rewrite collect_lines_nonblank by exact B. unfold and_then.
      destruct (load_and_collect_appender json_loads line [] (NoDup_nil _))
        as (K & _ & _).
      destruct (load_and_collect json_loads line []) as [m1 [[]|exc]] eqn:E;
        cbn [fst snd is_ok] in *.
      * destruct (collect_lines_appender json_loads rest m1 K) as (_ & R & _).
        rewrite R. split.
        -- intros H. constructor; [now rewrite E | now apply IH].
        -- intros H. apply IH. now apply Forall_inv_tail in H.
      * split; [discriminate|]. intros H. apply Forall_inv in H.
        now rewrite E in H.
Qed.

Lemma decoded_lines_all (lines : list string) :
  is_ok (snd (collect_lines json_loads lines [])) = true ->
  decoded_lines json_loads lines
  = filter (fun line => negb (is_blank line)) lines.
Proof.
  induction lines as [|line rest IH]; trivial.
  cbn [decoded_lines filter]. destruct (is_blank line) eqn:B; cbn [negb].
  - now rewrite collect_lines_blank.
  - rewrite collect_lines_nonblank by exact B. unfold and_then.
    destruct (load_and_collect_appender json_loads line [] (NoDup_nil _))
      as (K & _ & _).
    destruct (load_and_collect json_loads line []) as [m1 [[]|exc]];
      cbn [fst snd is_ok] in *; [|discriminate].
    destruct (collect_lines_appender json_loads rest m1 K) as (_ & R & _).
    rewrite R. intros H. now rewrite IH.
Qed.

End JsonLines.

(** C5, as amended: the lines of a [.jsonl] file are the lines of its
    text; a line that is empty or holds only whitespace is skipped; every
    other line is decoded on its own and walked into the same dictionary,
    up to and including the first line that raises, so that every series
    holds the samples of the decoded lines in their order; the file is
    read to its end exactly when no decoded line raises, and then every
    line that is not blank is decoded; and the file with the two lines
    that decode to the mappings of x to 1 and of x to 3, with or without
    blank lines between them, yields the series x with count 2, mean 2.0,
    min 1.0 and max 3.0. *)
Theorem C5_jsonl_lines :
  (forall json_loads yaml a text metrics,
      suffix a = ".jsonl" -> read_text a = Ok text ->
      scan_file json_loads yaml a metrics
      = collect_lines json_loads (Str.splitlines text) metrics)
  /\ (forall json_loads line rest metrics,
         is_blank line = true ->
         collect_lines json_loads (line :: rest) metrics
         = collect_lines json_loads rest metrics)
  /\ (forall json_loads line rest metrics,
         is_blank line = false ->
         collect_lines json_loads (line :: rest) metrics
         = and_then (load_and_collect json_loads line)
             (collect_lines json_loads rest) metrics)
  /\ (forall json_loads lines name,
         Metrics.samples name (fst (collect_lines json_loads lines []))
         = flat_map
             (fun line =>
                Metrics.samples name (fst (load_and_collect json_loads line [])))
             (decoded_lines json_loads lines))
  /\ (forall json_loads lines,
         is_ok (snd (collect_lines json_loads lines [])) = true
         <-> Forall
               (fun line =>
                  is_ok (snd (load_and_collect json_loads line [])) = true)
               (decoded_lines json_loads lines))
  /\ (forall json_loads lines,
         is_ok (snd (collect_lines json_loads lines [])) = true ->
         decoded_lines json_loads lines
         = filter (fun line => negb (is_blank line)) lines)
  /\ (forall json_loads yaml beyond,
         json_loads Sample.text_x1 = Ok (Sample.doc_x (VInt 1)) ->
         json_loads Sample.text_x3 = Ok (Sample.doc_x (VInt 3)) ->
         summarize_artifacts json_loads yaml beyond [Sample.file_lines]
         = ([], Ok [("x", mk_stats Sample.two Sample.two Sample.one
                            Sample.three)])
         /\ summarize_artifacts json_loads yaml beyond
              [SampleWorld.file_lines_blank]
            = ([], Ok [("x", mk_stats Sample.two Sample.two Sample.one
                               Sample.three)])).
Proof.
  split; [|split; [|split; [|split; [|split; [|split]]]]].
  - intros json_loads yaml a text metrics Hs Hr.
    unfold scan_file. rewrite Hs, Hr. reflexivity.
  - intros json_loads. apply collect_lines_blank.
  - intros json_loads. apply collect_lines_nonblank.
  - intros json_loads. apply collect_lines_decoded.
  - intros json_loads. apply collect_lines_returns.
  - intros json_loads. apply decoded_lines_all.
  - intros json_loads yaml beyond H1 H3.
    assert (L : collect_lines json_loads [Sample.text_x1; Sample.text_x3] []
                = ([("x", [Sample.one; Sample.three])], Ok tt)).
    { rewrite collect_lines_nonblank by (vm_compute; reflexivity).
      unfold and_then at 1, load_and_collect at 1. rewrite H1.
      replace (collect_numeric (Sample.doc_x (VInt 1)) "" [])
        with ([("x", [Sample.one])], @Ok unit tt) by (vm_compute; reflexivity).
      rewrite collect_lines_nonblank by (vm_compute; reflexivity).
      unfold and_then at 1, load_and_collect at 1. rewrite H3.
      vm_compute. reflexivity. }
    assert (S : forall a text,
               is_dir a = false -> suffix a = ".jsonl" ->
               read_text a = Ok text ->
               collect_lines json_loads (Str.splitlines text) []
               = ([("x", [Sample.one; Sample.three])], Ok tt) ->
               summarize_artifacts json_loads yaml beyond [a]
               = ([], Ok [("x", mk_stats Sample.two Sample.two Sample.one
                                  Sample.three)])).
    { intros a text Hd Hs Hr Hc. unfold summarize_artifacts.
      rewrite scan_cons. unfold visit, scan_file.
      rewrite Hd, Hs, Hr. cbn [String.eqb Ascii.eqb Bool.eqb].
      rewrite Hc. vm_compute. reflexivity. }
    split.
    + apply (S _ (Sample.text_x1 ++ Str.LF ++ Sample.text_x3 ++ Str.LF)%string);
        trivial.
    + apply (S _ (Sample.text_x1 ++ Str.LF ++ "  " ++ SampleWorld.TAB ++ Str.LF
                  ++ Str.LF ++ Sample.text_x3 ++ Str.LF)%string);
        trivial.
Qed.

(** C5 fails as stated: the second of three lines is not JSON; the third
    line decodes on its own to a sample of x, but it is never decoded, so
    the series x has count 1 and not 2. *)
Lemma C5_counterexample_line_after_failure :
  fst (load_and_collect Sample.loads Sample.text_x3 [])
  = [("x", [Sample.three])]
  /\ scan_file Sample.loads None SampleWorld.file_interrupted []
     = ([("x", [Sample.one])], Raise Sample.broken_message)
  /\ summarize_artifacts Sample.loads None Sample.beyond
       [SampleWorld.file_interrupted]
     = (["[summarize] Skipping runs/log.jsonl (Expecting property name enclosed in double quotes: line 1 column 2 (char 1))"],
        Ok [("x", mk_stats Sample.one Sample.one Sample.one Sample.one)]).
Proof. split; [|split]; vm_compute; reflexivity. Qed.

Lemma C5_jsonl_lines_witness :
  summarize_artifacts Sample.loads None Sample.beyond [Sample.file_lines]
  = ([], Ok [("x", mk_stats Sample.two Sample.two Sample.one Sample.three)])
  /\ summarize_artifacts Sample.loads None Sample.beyond
       [SampleWorld.file_lines_blank]
     = ([], Ok [("x", mk_stats Sample.two Sample.two Sample.one Sample.three)]).
Proof.
  apply (proj2 (proj2 (proj2 (proj2 (proj2 (proj2 C5_jsonl_lines))))));
    vm_compute; reflexivity.
Defined.

(** ** Order of the visit (C1) *)

Section OrderOfVisit.

Variable json_loads : string -> result value.
Variable yaml : option (string -> result value).
Variable beyond : list Float.float -> result Float.float.


(** ** Entries of the summary (C6) *)

(** C6: whenever the summary is returned, each of its entries belongs to
    a series that the scan filled with at least one sample, and its count
    is the number of those samples, at least 1, as a float. *)
Theorem C6_no_empty_series (entries : list artifact) (summary : summary_t) :
  snd (summarize_artifacts json_loads yaml beyond entries) = Ok summary ->
  forall name st,
    In (name, st) summary ->
    let values := Metrics.samples name (scanned json_loads yaml entries) in
    values <> []
    /\ (1 <= List.length values)%nat
    /\ Float.of_int (Z.of_nat (List.length values)) = Ok (count st)
    /\ summarize_values beyond values = Ok st.
Proof.
  rewrite summarize_artifacts_split. unfold snd at 1. intros H name st Hin.
  set (values := Metrics.samples name (scanned json_loads yaml entries)).
  destruct (summarize_metrics_entries beyond _ _ _ H _ _ Hin) as [[]|(vs & I & N & S)].
  assert (E : values = vs)
    by (apply samples_of_entry; [apply scanned_keys | exact I]).
  rewrite E. repeat split; trivial.
  - destruct vs; [congruence | simpl; lia].
  - unfold summarize_values in S.
    destruct (Float.of_int (Z.of_nat (List.length vs))) as [c|]; [|discriminate].
    simpl in S.
    destruct (Float.fmean beyond vs); [|discriminate]. simpl in S.
    destruct (Float.min vs); [|discriminate]. simpl in S.
    destruct (Float.max vs); [|discriminate]. simpl in S.
    injection S as <-. reflexivity.
Qed.

End OrderOfVisit.



Lemma C6_no_empty_series_witness :
  let values :=
    Metrics.samples "x"
      (scanned Sample.loads None [Sample.file_one; Sample.file_three]) in
  values <> []
  /\ (1 <= List.length values)%nat
  /\ Float.of_int (Z.of_nat (List.length values)) = Ok Sample.two
  /\ summarize_values Sample.beyond values
     = Ok (mk_stats Sample.two Sample.two Sample.one Sample.three).
Proof.
  refine (C6_no_empty_series Sample.loads None Sample.beyond
            [Sample.file_one; Sample.file_three]
            [("x", mk_stats Sample.two Sample.two Sample.one Sample.three)]
            _ "x" (mk_stats Sample.two Sample.two Sample.one Sample.three) _).
  - vm_compute. reflexivity.
  - simpl. left. reflexivity.
Defined.

(** ** Files that fail to parse (C4) *)

Section ParseErrors.

Variable w : World.env.


Lemma stdout_of_run (diagnostics written : list string) :
  World.stdout_of (map World.Stderr diagnostics ++ map World.Stdout written)
  = written.
Proof. now rewrite stdout_of_app, stdout_of_stderr, stdout_of_stdout. Qed.

Lemma stderr_of_run (diagnostics written : list string) :
  World.stderr_of (map World.Stderr diagnostics ++ map World.Stdout written)
  = diagnostics.
Proof.
  now rewrite stderr_of_app, stderr_of_stderr, stderr_of_stdout, app_nil_r.
Qed.


(** ** No metrics (C9) *)

Lemma no_samples_no_summary (beyond : list Float.float -> result Float.float)
    (metrics : metrics_t) :
  NoDup (keys metrics) ->
  (forall name, Metrics.samples name metrics = []) ->
  summarize_metrics beyond metrics [] = Ok [].
Proof.
  intros Hn H. apply summarize_all_empty. apply Forall_forall.
  intros [k values] Hin. cbn [snd].
  rewrite <- (samples_of_entry k values metrics Hn Hin). apply H.
Qed.

(** C9, as amended: when the directory exists and the standard output
    takes the line, the command prints the line
    [[summarize] No numeric metrics discovered in artifacts.] and nothing
    else, and returns 0, for an empty directory, for a directory whose
    listing completes and none of whose entries yields a sample (the
    standard error taking the diagnostics), and whenever
    [summarize_artifacts] returns the empty summary. *)
Theorem C9_no_metrics (directory : string) :
  World.exists_ w directory = Ok true ->
  World.print_stdout w "[summarize] No numeric metrics discovered in artifacts."
  = Ok tt ->
  (World.rglob w directory = [] ->
   World.main_summarize w directory
   = ([World.Stdout "[summarize] No numeric metrics discovered in artifacts."],
      Exit 0))
  /\ (forall entries,
         World.rglob w directory = map World.Entry entries ->
         (forall a name, In a entries -> World.contribution w a name = []) ->
         World.accepts (World.print_stderr w)
           (flat_map (World.diagnostic w) entries) ->
         World.stdout_of (fst (World.main_summarize w directory))
         = ["[summarize] No numeric metrics discovered in artifacts."]
         /\ snd (World.main_summarize w directory) = Exit 0)
  /\ (snd (World.summarize_artifacts w directory) = Ok [] ->
      World.stdout_of (fst (World.main_summarize w directory))
      = ["[summarize] No numeric metrics discovered in artifacts."]
      /\ snd (World.main_summarize w directory) = Exit 0).
Proof.
  intros He Hp.
  assert (G : snd (World.summarize_artifacts w directory) = Ok [] ->
              World.stdout_of (fst (World.main_summarize w directory))
              = ["[summarize] No numeric metrics discovered in artifacts."]
              /\ snd (World.main_summarize w directory) = Exit 0).
  { intros H. rewrite (world_main_summarize w directory He).
    pose proof (world_summarize_trace w directory) as T.
    destruct (World.summarize_artifacts w directory) as [d r].
    cbn [fst snd] in *. subst r.
    unfold World.print_summary_table, World.print. rewrite Hp.
    cbn [fst snd]. split; trivial.
    rewrite T, stdout_of_app, stdout_of_stderr. reflexivity. }
  split; [|split; [|exact G]].
  - intros Hl. unfold World.main_summarize, World.summarize_artifacts.
    rewrite He, Hl. cbn. unfold World.print. rewrite Hp. reflexivity.
  - intros entries Hl Hnone Ha. apply G.
    rewrite (world_summarize_completes w directory entries Hl Ha). cbn [snd].
    apply no_samples_no_summary; [apply world_scanned_keys|].
    intros name. rewrite world_scanned_samples.
    clear Hl Ha. induction entries as [|a rest IH]; trivial.
    cbn [flat_map]. rewrite (Hnone a name (or_introl eq_refl)).
    apply IH. intros b n Hb. apply Hnone. now right.
Qed.

End ParseErrors.



(** C9 fails as stated: a directory with no numeric content, one of
    whose entries cannot be examined by [is_dir()], ends the command
    with an uncaught exception; nothing is printed. *)
Lemma C9_counterexample_unexamined_entry :
  World.main_summarize
    (SampleWorld.calm
       [World.Entry (Sample.json_file "runs/flags.json" Sample.text_flag);
        World.Fails "[Errno 13] Permission denied: 'runs/locked/notes.txt'"])
    "runs"
  = ([], Uncaught "[Errno 13] Permission denied: 'runs/locked/notes.txt'").
Proof. vm_compute. reflexivity. Qed.

Lemma C9_no_metrics_witness :
  World.stdout_of
    (fst (World.main_summarize
            (SampleWorld.calm
               [World.Entry (Sample.json_file "runs/flags.json" Sample.text_flag)])
            "runs"))
  = ["[summarize] No numeric metrics discovered in artifacts."]
  /\ snd (World.main_summarize
            (SampleWorld.calm
               [World.Entry (Sample.json_file "runs/flags.json" Sample.text_flag)])
            "runs")
     = Exit 0.
Proof.
  apply (proj1 (proj2 (C9_no_metrics
                         (SampleWorld.calm
                            [World.Entry
                               (Sample.json_file "runs/flags.json"
                                  Sample.text_flag)])
                         "runs" eq_refl eq_refl))
           [Sample.json_file "runs/flags.json" Sample.text_flag] eq_refl).
  - intros a name [<-|[]]. vm_compute. reflexivity.
  - apply Forall_forall. intros line _. reflexivity.
Defined.

(** ** The command builder (C7, C8) *)

Lemma profile_cases (tool : string) (meta : profile) :
  Metrics.lookup tool TOOL_COMMANDS = Some meta ->
  (tool, meta) = ("openai-evals", mk_profile ["oaieval"; "run"] None (Some "--model"))
  \/ (tool, meta) = ("helm", mk_profile ["helm-run"] (Some "--config") (Some "--model"))
  \/ (tool, meta) = ("lm-eval", mk_profile ["lm_eval"] (Some "--config") (Some "--model")).
Proof.
  intros H. apply lookup_in in H. unfold TOOL_COMMANDS in H. simpl in H.
  destruct H as [H|[H|[H|[]]]]; auto.
Qed.

Lemma supported_lookup (tool : string) :
  supported tool -> exists meta, Metrics.lookup tool TOOL_COMMANDS = Some meta.
Proof.
  intros H. destruct (Metrics.lookup tool TOOL_COMMANDS) as [meta|] eqn:E.
  - now exists meta.
  - apply lookup_in_keys in E. contradiction.
Qed.

(** C7 fails as stated in two ways: a model that is the empty string is
    supplied and yet no model flag is inserted, and with no model the
    command holds the model flag that came with the extra arguments. *)
Lemma C7_counterexample_empty_model :
  build_command "helm" "suite.yaml" (Some "") []
  = Ok ["helm-run"; "--config"; "suite.yaml"]
  /\ ~ In "--model" ["helm-run"; "--config"; "suite.yaml"]
  /\ build_command "helm" "suite.yaml" None ["--model"; "m"]
     = Ok ["helm-run"; "--config"; "suite.yaml"; "--model"; "m"]
  /\ In "--model" ["helm-run"; "--config"; "suite.yaml"; "--model"; "m"].
Proof.
  repeat split.
  - simpl. intros [H|[H|[H|[]]]]; discriminate.
  - simpl. auto.
Qed.

(** C7, as amended: every profile has the model flag [--model]; with no
    model, or the empty string as model, the command is the executable of
    the profile, the config arguments and the extra arguments, and nothing
    else; with a model that is not empty, the model flag and then the model
    come between the config arguments and the extra arguments. *)
Theorem C7_model_flag (tool : string) (meta : profile) (config : string)
    (extra : list string) :
  Metrics.lookup tool TOOL_COMMANDS = Some meta ->
  model_flag meta = Some "--model"
  /\ (forall model,
         given model = false ->
         build_command tool config model extra
         = Ok (executable meta ++ config_arguments meta config ++ extra))
  /\ (forall m,
         Str.truthy m = true ->
         build_command tool config (Some m) extra
         = Ok (executable meta ++ config_arguments meta config
               ++ "--model" :: m :: extra)).
Proof.
  intros H. unfold build_command. rewrite H.
  destruct (profile_cases tool meta H) as [E|[E|E]];
    injection E as -> ->; (split; [reflexivity|]); split.
  all: try (intros [m|] Hm; [simpl in Hm; simpl; rewrite Hm|]; reflexivity).
  all: intros m Hm; simpl; rewrite Hm; reflexivity.
Qed.

Lemma C7_model_flag_witness :
  build_command "openai-evals" "suite.yaml" None ["--seed"; "7"]
  = Ok ["oaieval"; "run"; "suite.yaml"; "--seed"; "7"]
  /\ build_command "openai-evals" "suite.yaml" (Some "gpt-4") ["--seed"; "7"]
     = Ok ["oaieval"; "run"; "suite.yaml"; "--model"; "gpt-4"; "--seed"; "7"].
Proof.
  destruct (C7_model_flag "openai-evals"
              (mk_profile ["oaieval"; "run"] None (Some "--model"))
              "suite.yaml" ["--seed"; "7"] eq_refl) as (_ & Hnone & Hsome).
  split.
  - exact (Hnone None eq_refl).
  - exact (Hsome "gpt-4" eq_refl).
Defined.

(** C8: for a tool that is not a key of the table, [build_command] raises
    the error that names the tool and lists the supported ones; it returns
    no command, and [run_tool] raises the same error before it prints
    anything, searches the path or spawns a process. *)
Theorem C8_unknown_tool (tool config : string) (model : option string)
    (extra : list string) :
  ~ supported tool ->
  build_command tool config model extra = Raise (unsupported_tool tool)
  /\ unsupported_tool tool
     = ("Unsupported tool '" ++ tool
        ++ "'. Expected one of ['helm', 'lm-eval', 'openai-evals']")%string
  /\ forall which subprocess_run dry_run,
       run_tool which subprocess_run tool config model dry_run extra
       = ([], Raise (unsupported_tool tool)).
Proof.
  intros H. apply lookup_in_keys in H.
  assert (E : build_command tool config model extra
              = Raise (unsupported_tool tool))
    by (unfold build_command; now rewrite H).
  repeat split; trivial.
  intros which subprocess_run dry_run. unfold run_tool. now rewrite E.
Qed.

Lemma C8_unknown_tool_witness :
  build_command "mmlu" "suite.yaml" (Some "gpt-4") []
  = Raise "Unsupported tool 'mmlu'. Expected one of ['helm', 'lm-eval', 'openai-evals']".
Proof.
  refine (proj1 (C8_unknown_tool "mmlu" "suite.yaml" (Some "gpt-4") [] _)).
  unfold supported. simpl. intros [H|[H|[H|[]]]]; discriminate.
Defined.

(** ** Supported tools *)

Section DryRun.

Variable which : string -> bool.
Variable subprocess_run : list string -> Z.

Lemma build_command_supported tool config model extra :
  supported tool ->
  exists exe rest,
    build_command tool config model extra = Ok (exe :: rest).
Proof.
  intros H. destruct (supported_lookup tool H) as [meta Hm].
  unfold build_command. rewrite Hm.
  destruct (profile_cases tool meta Hm) as [E|[E|E]];
    injection E as -> ->;
    destruct model as [[|c m]|]; simpl; eauto.
Qed.

End DryRun.


(** ** Dry runs (C10) *)

Lemma bind_lift_ok {A B} (a : A) (k : A -> World.io B) :
  World.bind (World.lift (Ok a)) k = k a.
Proof. unfold World.bind, World.lift. now destruct (k a). Qed.

Lemma bind_ret {A B} (a : A) (k : A -> World.io B) :
  World.bind (World.ret a) k = k a.
Proof. unfold World.bind, World.ret. now destruct (k a). Qed.

Lemma bind_ok {A B} (done : list World.effect) (a : A)
    (k : A -> World.io B) :
  World.bind (done, Ok a) k = (done ++ fst (k a), snd (k a)).
Proof. unfold World.bind. now destruct (k a). Qed.

(** Printed lines are neither a search of the path nor a child. *)
Lemma prints_only (lines : list string) :
  existsb World.is_looked_up (map World.Stdout lines) = false
  /\ existsb World.is_child (map World.Stdout lines) = false.
Proof. induction lines; simpl; auto. Qed.

Section DryRunInWorld.

Variable w : World.env.

(** The dry run prints the banner and the notice, line by line, and
    stops at the first line that the standard output does not take. *)
Lemma world_dry_run (tool config : string) (model : option string)
    (extra command : list string) :
  build_command tool config model extra = Ok command ->
  World.run_tool w tool config model true extra
  = match first_refusal (World.print_stdout w)
            (banner tool config model extra command
             ++ ["[benchmark] Dry run requested. Command not executed."]) with
    | (written, None) => (map World.Stdout written, Ok 0%Z)
    | (written, Some exc) => (map World.Stdout written, Raise exc)
    end.
Proof.
  intros E. unfold World.run_tool, banner. rewrite E, bind_lift_ok.
  destruct model as [[|c m]|]; cbn [given Str.truthy app first_refusal];
    rewrite ?bind_ret, !bind_print;
    repeat match goal with
      | |- context [World.print_stdout w ?l] =>
          destruct (World.print_stdout w l) as [[]|?]; [|reflexivity]
      end; reflexivity.
Qed.

(** The run that is not dry, once the standard output has taken the
    banner. *)
Lemma world_real_run (tool config : string) (model : option string)
    (extra command : list string) :
  build_command tool config model extra = Ok command ->
  World.accepts (World.print_stdout w)
    (banner tool config model extra command) ->
  World.run_tool w tool config model false extra
  = World.bind
      (map World.Stdout (banner tool config model extra command), Ok tt)
      (fun _ =>
         World.bind (World.command_available w command)
           (fun available =>
              if negb available then
                World.bind
                  (World.print w
                     ("[benchmark] ERROR    : Executable not found on PATH. "
                      ++ "Install the relevant framework or run with --dry-run."))
                  (fun _ => World.ret 127%Z)
              else
                World.bind (([World.Child command], World.subprocess_run w command)
                            : World.io Z)
                  (fun code =>
                     World.bind
                       (World.print w ("[benchmark] Exit code: " ++ Str.of_Z code))
                       (fun _ => World.ret code)))).
Proof.
  intros E. unfold World.run_tool, banner. rewrite E, bind_lift_ok.
  set (rest := World.bind (World.command_available w command) _).
  destruct model as [[|c m]|]; cbn [given Str.truthy app map];
    intros H; unfold World.accepts in H; rewrite ?bind_ret, !bind_print;
    repeat match goal with
      | H : Forall _ (?l :: _) |- _ =>
          let Hl := fresh "Hl" in
          pose proof (Forall_inv H) as Hl; cbv beta in Hl; rewrite Hl;
          apply Forall_inv_tail in H
      end;
    unfold World.bind at 1; destruct rest as [t r]; reflexivity.
Qed.

(** C10, as amended: for every supported tool the builder returns a
    command, and the dry run prints the banner and the notice line by
    line up to the first line that the standard output does not take;
    it returns 0 when every line is taken and raises the exception of
    [print] otherwise; in either case it neither searches the path nor
    spawns a process, whatever the path holds.  A run that returns 127
    is not a dry run; and a run that is not dry, of a command whose
    executable is not found, returns 127 without spawning, once the
    standard output takes its lines. *)
Theorem C10_dry_run (tool config : string) (model : option string)
    (extra : list string) :
  supported tool ->
  exists command,
    build_command tool config model extra = Ok command
    /\ World.run_tool w tool config model true extra
       = match first_refusal (World.print_stdout w)
               (banner tool config model extra command
                ++ ["[benchmark] Dry run requested. Command not executed."])
         with
         | (written, None) => (map World.Stdout written, Ok 0%Z)
         | (written, Some exc) => (map World.Stdout written, Raise exc)
         end
    /\ existsb World.is_looked_up
         (fst (World.run_tool w tool config model true extra)) = false
    /\ existsb World.is_child
         (fst (World.run_tool w tool config model true extra)) = false
    /\ (World.accepts (World.print_stdout w)
          (banner tool config model extra command
           ++ ["[benchmark] Dry run requested. Command not executed."]) ->
        snd (World.run_tool w tool config model true extra) = Ok 0%Z)
    /\ (forall dry_run,
           snd (World.run_tool w tool config model dry_run extra) = Ok 127%Z ->
           dry_run = false)
    /\ (forall exe rest,
           command = exe :: rest ->
           World.which w exe = false ->
           World.accepts (World.print_stdout w)
             (banner tool config model extra command
              ++ ["[benchmark] ERROR    : Executable not found on PATH. Install the relevant framework or run with --dry-run."]) ->
           World.run_tool w tool config model false extra
           = (map World.Stdout (banner tool config model extra command)
              ++ [World.Looked_up exe;
                  World.Stdout
                    "[benchmark] ERROR    : Executable not found on PATH. Install the relevant framework or run with --dry-run."],
              Ok 127%Z)).
Proof.
  intros H.
  destruct (build_command_supported tool config model extra H)
    as (exe & rest & E).
  exists (exe :: rest). split; [exact E|].
  pose proof (world_dry_run tool config model extra _ E) as D.
  split; [exact D|]. split; [|split; [|split; [|split]]].
  - rewrite D. destruct (first_refusal _ _) as [written [exc|]];
      apply prints_only.
  - rewrite D. destruct (first_refusal _ _) as [written [exc|]];
      apply prints_only.
  - intros Ha. rewrite D, (first_refusal_accepts _ _ Ha). reflexivity.
  - intros [|] H127; [|reflexivity]. rewrite D in H127.
    destruct (first_refusal _ _) as [written [exc|]]; discriminate.
  - intros exe' rest' Ec Hw Ha. injection Ec as <- <-.
    apply Forall_app in Ha. destruct Ha as [Hb He].
    rewrite (world_real_run tool config model extra _ E Hb).
    apply Forall_inv in He.
    unfold World.command_available, World.bind, World.print, World.ret.
    rewrite Hw. cbn [negb]. change (_ ++ _)%string with
      "[benchmark] ERROR    : Executable not found on PATH. Install the relevant framework or run with --dry-run.".
    rewrite He. reflexivity.
Qed.

End DryRunInWorld.

(** C10 fails as stated in two ways: for a tool that is not supported the
    dry run raises the error of [build_command]; and for a config path
    that the standard output cannot encode it raises the error of
    [print], after the first line of the banner.  Neither returns an exit
    code. *)
Lemma C10_counterexample_dry_run_raises :
  World.run_tool (SampleWorld.calm []) "mmlu" "suite.yaml" None true []
  = ([], Raise "Unsupported tool 'mmlu'. Expected one of ['helm', 'lm-eval', 'openai-evals']")
  /\ World.run_tool
       (SampleWorld.make SampleWorld.ascii_only [] 990 SampleRun.which
          (fun _ => Ok 3%Z))
       "helm" ("caf" ++ SampleWorld.e_acute ++ ".yaml") None true []
     = ([World.Stdout "[benchmark] Tool     : helm"],
        Raise "'ascii' codec can't encode character: ordinal not in range(128)").
Proof. split; vm_compute; reflexivity. Qed.

Lemma C10_dry_run_witness :
  World.run_tool (SampleWorld.make SampleWorld.takes_all [] 990 (fun _ => false)
                    (fun _ => Ok 0%Z))
    "lm-eval" "suite.yaml" (Some "gpt-4") true []
  = ([World.Stdout "[benchmark] Tool     : lm-eval";
      World.Stdout "[benchmark] Config   : suite.yaml";
      World.Stdout "[benchmark] Model    : gpt-4";
      World.Stdout "[benchmark] Extra    : (none)";
      World.Stdout "[benchmark] Command  : lm_eval --config suite.yaml --model gpt-4";
      World.Stdout "[benchmark] Dry run requested. Command not executed."],
     Ok 0%Z).
Proof.
  destruct (C10_dry_run
              (SampleWorld.make SampleWorld.takes_all [] 990 (fun _ => false)
                 (fun _ => Ok 0%Z))
              "lm-eval" "suite.yaml" (Some "gpt-4") [])
    as (command & Ec & Hrun & _).
  - unfold supported. simpl. auto.
  - injection Ec as <-. rewrite Hrun. vm_compute. reflexivity.
Defined.

(** * Further properties of the code *)

(** ** The walk of a document *)

Lemma and_then_keeps (P : metrics_t -> Prop)
    (first second : metrics_t -> metrics_t * result unit) :
  (forall m, P m -> P (fst (first m))) ->
  (forall m, P m -> P (fst (second m))) ->
  forall m, P m -> P (fst (and_then first second m)).
Proof.
  intros Hf Hs m Hm. unfold and_then.
  pose proof (Hf m Hm) as H1.
  destruct (first m) as [m' [[]|exc]]; simpl in *; auto.
Qed.

(** A step over the dictionary keeps [P] when the walk of every document
    does. *)
Lemma walk_keeps (P : metrics_t -> Prop) :
  (forall prefix m, P m -> P (Metrics.getitem (Str.rstrip Str.is_dot prefix) m)) ->
  (forall prefix x m, P m -> P (Metrics.append (Str.rstrip Str.is_dot prefix) x m)) ->
  forall payload prefix m, P m -> P (fst (collect_numeric payload prefix m)).
Proof.
  intros Hget Happ payload.
  induction payload as [| b | n | x | s | elements IH | items IH]
    using value_nested_ind; intros prefix m Hm; trivial.
  - simpl. destruct (Float.of_int n); simpl; auto.
  - simpl. auto.
  - rewrite collect_list. generalize 0%nat. revert m Hm.
    induction IH as [|v rest Hv _ IHrest]; intros m Hm idx; simpl; trivial.
    apply and_then_keeps; auto.
  - rewrite collect_dict. revert m Hm.
    induction IH as [|[key v] rest Hv _ IHrest]; intros m Hm; simpl; trivial.
    apply and_then_keeps; auto.
Qed.

(** X1. The walk only appends: from a dictionary with distinct keys it
    leaves distinct keys, every series keeps the samples it had, in
    their order, before the ones the walk adds, and whether the walk
    raises does not depend on what the dictionary held. *)
Theorem X1_walk_only_appends (payload : value) (prefix : string)
    (metrics : metrics_t) :
  NoDup (keys metrics) ->
  NoDup (keys (fst (collect_numeric payload prefix metrics)))
  /\ snd (collect_numeric payload prefix metrics)
     = snd (collect_numeric payload prefix [])
  /\ forall name,
       Metrics.samples name (fst (collect_numeric payload prefix metrics))
       = Metrics.samples name metrics
         ++ Metrics.samples name (fst (collect_numeric payload prefix [])).
Proof. apply collect_numeric_appender. Qed.

Lemma X1_walk_only_appends_witness :
  Metrics.samples "x"
    (fst (collect_numeric (Sample.doc_x (VInt 3)) "" [("x", [Sample.one])]))
  = [Sample.one] ++ [Sample.three].
Proof.
  refine (proj2 (proj2 (X1_walk_only_appends (Sample.doc_x (VInt 3)) ""
                          [("x", [Sample.one])] _)) "x").
  repeat constructor. simpl. tauto.
Defined.


(** *** The names of the series *)

Lemma rstrip_idempotent (s : string) :
  Str.rstrip Str.is_dot (Str.rstrip Str.is_dot s) = Str.rstrip Str.is_dot s.
Proof.
  induction s as [|c s IH]; simpl; trivial.
  destruct (Str.rstrip Str.is_dot s) as [|k kept] eqn:E.
  - destruct (Str.is_dot c) eqn:D; simpl; [reflexivity|now rewrite D].
  - remember (String k kept) as t. simpl. rewrite IH. now subst t.
Qed.

Lemma rstrip_length (s : string) :
  (String.length (Str.rstrip Str.is_dot s) <= String.length s)%nat.
Proof.
  induction s as [|c s IH]; simpl; trivial.
  destruct (Str.rstrip Str.is_dot s) as [|k kept].
  - destruct (Str.is_dot c); simpl; lia.
  - simpl in *. lia.
Qed.

Lemma append_length (s t : string) :
  String.length (s ++ t) = (String.length s + String.length t)%nat.
Proof. induction s as [|c s IH]; simpl; congruence. Qed.

(** A name that [rstrip] leaves alone does not end with a dot. *)
Lemma undotted_no_trailing_dot (name t : string) :
  undotted name -> name <> (t ++ ".")%string.
Proof.
  unfold undotted. intros H E. subst name. rewrite rstrip_app_dot in H.
  pose proof (rstrip_length t) as L. rewrite H, append_length in L.
  simpl in L. lia.
Qed.

Lemma getitem_undotted (prefix : string) (m : metrics_t) :
  Forall undotted (keys m) ->
  Forall undotted (keys (Metrics.getitem (Str.rstrip Str.is_dot prefix) m)).
Proof.
  intros H. unfold Metrics.getitem. destruct (Metrics.contains _ m); trivial.
  unfold keys. rewrite map_app. apply Forall_app. split; trivial.
  constructor; [apply rstrip_idempotent | constructor].
Qed.

Lemma walk_undotted (payload : value) (prefix : string) (m : metrics_t) :
  Forall undotted (keys m) ->
  Forall undotted (keys (fst (collect_numeric payload prefix m))).
Proof.
  apply (walk_keeps (fun m => Forall undotted (keys m))).
  - apply getitem_undotted.
  - intros p x m' H. now rewrite keys_append.
Qed.

Section ScanInvariant.

Variable json_loads : string -> result value.
Variable yaml : option (string -> result value).
Variable P : metrics_t -> Prop.
Hypothesis walk_P :
  forall payload prefix m, P m -> P (fst (collect_numeric payload prefix m)).

Lemma load_and_collect_keeps loads text m :
  P m -> P (fst (load_and_collect loads text m)).
Proof.
  intros H. unfold load_and_collect. destruct (loads text); simpl; auto.
Qed.

Lemma collect_lines_keeps lines :
  forall m, P m -> P (fst (collect_lines json_loads lines m)).
Proof.
  induction lines as [|line rest IH]; intros m H; simpl; trivial.
  destruct (negb _); auto.
  pose proof (load_and_collect_keeps json_loads line m H) as H1.
  destruct (load_and_collect json_loads line m) as [m' [[]|exc]]; simpl in *;
    auto.
Qed.

Lemma scan_file_keeps a m :
  P m -> P (fst (scan_file json_loads yaml a m)).
Proof.
  intros H. unfold scan_file.
  destruct (String.eqb (suffix a) ".json").
  { destruct (read_text a); simpl; trivial. now apply load_and_collect_keeps. }
  destruct (String.eqb (suffix a) ".jsonl").
  { destruct (read_text a); simpl; trivial. now apply collect_lines_keeps. }
  destruct yaml as [safe_load|]; simpl; trivial.
  destruct (_ || _); simpl; trivial.
  destruct (read_text a); simpl; trivial. now apply load_and_collect_keeps.
Qed.

(** What the walk keeps, the whole scan keeps. *)
Lemma scan_keeps entries :
  forall m err, P m -> P (fst (scan json_loads yaml entries m err)).
Proof.
  induction entries as [|a rest IH]; intros m err H; simpl; trivial.
  destruct (is_dir a); auto.
  pose proof (scan_file_keeps a m H) as H1.
  destruct (scan_file json_loads yaml a m) as [m' [[]|exc]]; simpl in *; auto.
Qed.

End ScanInvariant.

(** X4. No series of the summary has a name that ends with a dot:
    [rstrip] leaves every name it returns alone. *)
Theorem X4_no_name_ends_with_dot
    (json_loads : string -> result value)
    (yaml : option (string -> result value))
    (beyond : list Float.float -> result Float.float)
    (entries : list artifact) (summary : summary_t) :
  snd (summarize_artifacts json_loads yaml beyond entries) = Ok summary ->
  forall name st,
    In (name, st) summary ->
    Str.rstrip Str.is_dot name = name
    /\ forall t, name <> (t ++ ".")%string.
Proof.
  rewrite summarize_artifacts_split. unfold snd at 1. intros H name st Hin.
  destruct (summarize_metrics_entries beyond _ _ _ H _ _ Hin)
    as [[]|(vs & I & _ & _)].
  assert (U : undotted name).
  { assert (A : Forall undotted (keys (scanned json_loads yaml entries))).
    { unfold scanned.
      apply (scan_keeps json_loads yaml (fun m => Forall undotted (keys m))).
      - intros payload prefix m. apply walk_undotted.
      - constructor. }
    rewrite Forall_forall in A. apply A.
    change name with (fst (name, vs)). now apply in_map. }
  split; [exact U|]. intros t. now apply undotted_no_trailing_dot.
Qed.

Lemma X4_no_name_ends_with_dot_witness :
  Str.rstrip Str.is_dot "a" = "a" /\ forall t, "a" <> (t ++ ".")%string.
Proof.
  refine (X4_no_name_ends_with_dot Sample.loads None Sample.beyond
            [Sample.json_file "runs/dotted.json" Sample.text_dotted]
            [("a", mk_stats Sample.one Sample.one Sample.one Sample.one)]
            _ "a" (mk_stats Sample.one Sample.one Sample.one Sample.one) _).
  - vm_compute. reflexivity.
  - simpl. left. reflexivity.
Defined.

(** X5. Every numeric leaf of a document whose walk does not raise is a
    sample of the series named by the dotted path of its keys and
    indices, without the dots the path ends with. *)
Theorem X5_leaf_series (doc : value) (parts : list string) (leaf : value)
    (metrics : metrics_t) :
  leaf_at doc parts leaf ->
  NoDup (keys metrics) ->
  snd (collect_numeric doc "" metrics) = Ok tt ->
  exists x,
    sample_of leaf = Some x
    /\ In x (Metrics.samples (Str.rstrip Str.is_dot (Str.join "." parts))
               (fst (collect_numeric doc "" metrics))).
Proof.
  intros Hleaf Hn Hok. rewrite <- series_name_of_path.
  exact (leaf_is_recorded doc parts leaf Hleaf "" metrics Hn Hok).
Qed.

Lemma X5_leaf_series_witness :
  exists x,
    sample_of (VFloat Sample.two_and_a_half) = Some x
    /\ In x (Metrics.samples (Str.rstrip Str.is_dot (Str.join "." ["a"; "c"]))
               (fst (collect_numeric Sample.doc_nested "" []))).
Proof.
  apply X5_leaf_series.
  - apply leaf_in_dict with (child := VDict [("b", VInt 1);
                                             ("c", VFloat Sample.two_and_a_half)]).
    + simpl. left. reflexivity.
    + apply leaf_in_dict with (child := VFloat Sample.two_and_a_half).
      * simpl. right. left. reflexivity.
      * constructor.
  - constructor.
  - vm_compute. reflexivity.
Defined.

(** ** The scan of the directory *)


(** X7. Without the yaml module a [.yml] or [.yaml] file is passed over
    like a file of another type; with it, the file is handled as a
    [.json] file is, with [safe_load] as the decoder. *)
Theorem X7_yaml_files
    (json_loads : string -> result value) (a : artifact) :
  suffix a = ".yml" \/ suffix a = ".yaml" ->
  (forall rest metrics err,
      scan json_loads None (a :: rest) metrics err
      = scan json_loads None rest metrics err)
  /\ (forall safe_load metrics,
         scan_file json_loads (Some safe_load) a metrics
         = scan_file safe_load None
             (mk_artifact (path a) ".json" (is_dir a) (read_text a)) metrics).
Proof.
  intros H. split.
  - intros rest metrics err. simpl. destruct (is_dir a); trivial.
    unfold scan_file. destruct H as [-> | ->]; reflexivity.
  - intros safe_load metrics. unfold scan_file.
    destruct H as [-> | ->]; reflexivity.
Qed.

Lemma X7_yaml_files_witness :
  scan_file Sample.loads (Some Sample.loads)
    (mk_artifact "runs/one.yaml" ".yaml" false (Ok Sample.text_x1)) []
  = scan_file Sample.loads None
      (mk_artifact "runs/one.yaml" ".json" false (Ok Sample.text_x1)) [].
Proof.
  refine (proj2 (X7_yaml_files Sample.loads
                   (mk_artifact "runs/one.yaml" ".yaml" false
                      (Ok Sample.text_x1)) _) Sample.loads []).
  right. reflexivity.
Defined.


(** X9. A [.jsonl] file is given up at its first line that raises: the
    lines before it are collected, the lines after it are not decoded. *)
Theorem X9_jsonl_first_failure
    (json_loads : string -> result value)
    (before after : list string) (bad exc : string) (metrics : metrics_t) :
  is_ok (snd (collect_lines json_loads before metrics)) = true ->
  snd (line_step json_loads bad
         (fst (collect_lines json_loads before metrics))) = Raise exc ->
  collect_lines json_loads (before ++ bad :: after) metrics
  = (fst (line_step json_loads bad
            (fst (collect_lines json_loads before metrics))),
     Raise exc).
Proof.
  revert metrics. induction before as [|line rest IH]; intros metrics Hok Hbad.
  - change ([] ++ bad :: after) with (bad :: after).
    change (fst (collect_lines json_loads [] metrics)) with metrics in *.
    rewrite collect_lines_cons. unfold and_then.
    destruct (line_step json_loads bad metrics) as [m' r]. simpl in Hbad.
    now subst r.
  - rewrite <- app_comm_cons, !collect_lines_cons in *. unfold and_then in *.
    destruct (line_step json_loads line metrics) as [m' [[]|e]];
      simpl in *; [|discriminate].
    now apply IH.
Qed.

Lemma X9_jsonl_first_failure_witness :
  collect_lines Sample.loads
    ([Sample.text_x1] ++ Sample.text_broken :: [Sample.text_x3]) []
  = ([("x", [Sample.one])], Raise Sample.broken_message).
Proof.
  apply (X9_jsonl_first_failure Sample.loads [Sample.text_x1]
           [Sample.text_x3] Sample.text_broken Sample.broken_message []);
    vm_compute; reflexivity.
Defined.

(** ** The summary *)

Section SummaryProperties.

Variable json_loads : string -> result value.
Variable yaml : option (string -> result value).
Variable beyond : list Float.float -> result Float.float.

(** X10. When the summary is returned, its keys are distinct and it
    binds a name exactly when the series of that name has samples, to
    the statistics of all the samples the scan collected for it. *)
Theorem X10_summary_of_series (entries : list artifact) (summary : summary_t) :
  snd (summarize_artifacts json_loads yaml beyond entries) = Ok summary ->
  NoDup (keys summary)
  /\ forall name,
       match Metrics.samples name (scanned json_loads yaml entries) with
       | [] => Metrics.lookup name summary = None
       | values =>
           exists st,
             summarize_values beyond values = Ok st
             /\ Metrics.lookup name summary = Some st
       end.
Proof.
  rewrite summarize_artifacts_split. unfold snd at 1. intros H. split.
  - eapply summarize_metrics_keys; [|exact H]. constructor.
  - intros name.
    pose proof (summarize_metrics_spec beyond _ []
                  (scanned_keys json_loads yaml entries)) as S.
    rewrite H in S. specialize (S name). unfold series_stats in S.
    destruct (Metrics.samples name (scanned json_loads yaml entries));
      [exact S|].
    destruct S as (st & E & L). now exists st.
Qed.

(** X12. Within the range of [fsum], the statistics of a series with
    samples raise exactly when the series holds both infinities, and then
    with the error of [fsum]. *)
Theorem X12_statistics_raise (values : list Float.float) :
  values <> [] ->
  Float.in_range values = true ->
  is_ok (Float.of_int (Z.of_nat (List.length values))) = true ->
  if existsb Float.eqb_pos_inf values && existsb Float.eqb_neg_inf values
  then summarize_values beyond values = Raise "-inf + inf in fsum"
  else is_ok (summarize_values beyond values) = true.
Proof.
  intros Hne Hr Hc. unfold summarize_values, Float.fmean, Float.div_int.
  destruct (Float.of_int (Z.of_nat (List.length values))) as [c|];
    [|discriminate].
  destruct values as [|v vs]; [congruence|].
  unfold Float.fsum. rewrite Hr. cbn [negb bind].
  destruct (existsb Float.eqb_pos_inf (v :: vs)
            && existsb Float.eqb_neg_inf (v :: vs)); [reflexivity|].
  destruct (existsb Float.is_nan (v :: vs)); [reflexivity|].
  destruct (existsb Float.eqb_pos_inf (v :: vs)); [reflexivity|].
  destruct (existsb Float.eqb_neg_inf (v :: vs)); reflexivity.
Qed.

End SummaryProperties.

Lemma X10_summary_of_series_witness :
  exists st,
    summarize_values Sample.beyond [Sample.one; Sample.three] = Ok st
    /\ Metrics.lookup "x"
         [("x", mk_stats Sample.two Sample.two Sample.one Sample.three)]
       = Some st.
Proof.
  exact (proj2 (X10_summary_of_series Sample.loads None Sample.beyond
                  [Sample.file_one; Sample.file_three]
                  [("x", mk_stats Sample.two Sample.two Sample.one Sample.three)]
                  eq_refl) "x").
Defined.

Lemma X12_statistics_raise_witness :
  summarize_values Sample.beyond [Float.inf; Sample.one; Float.neg_inf]
  = Raise "-inf + inf in fsum".
Proof.
  apply (X12_statistics_raise Sample.beyond
           [Float.inf; Sample.one; Float.neg_inf]).
  - discriminate.
  - vm_compute. reflexivity.
  - vm_compute. reflexivity.
Defined.

(** X13. For a series without NaN, the minimum and the maximum of the
    summary are samples of the series, no sample is below the minimum or
    above the maximum, and the maximum is not below the minimum. *)
Theorem X13_min_max_bound_the_series
    (beyond : list Float.float -> result Float.float)
    (values : list Float.float) (st : stats) :
  summarize_values beyond values = Ok st ->
  no_nan values ->
  In (min st) values /\ In (max st) values
  /\ (forall v, In v values ->
                Float.lt v (min st) = false /\ Float.lt (max st) v = false)
  /\ Float.lt (max st) (min st) = false.
Proof.
  intros H Hn. unfold summarize_values in H.
  destruct (Float.of_int _) as [c|]; [|discriminate]. simpl in H.
  destruct (Float.fmean beyond values) as [m|]; [|discriminate]. simpl in H.
  destruct values as [|x xs]; [discriminate|]. simpl in H.
  injection H as <-. simpl.
  destruct (min_from_least xs x Hn) as [Imin Lmin].
  destruct (max_from_greatest xs x Hn) as [Imax Lmax].
  repeat split; auto.
Qed.

Lemma X13_min_max_bound_the_series_witness :
  In Sample.one [Sample.three; Sample.one; Sample.two]
  /\ In Sample.three [Sample.three; Sample.one; Sample.two]
  /\ (forall v, In v [Sample.three; Sample.one; Sample.two] ->
                Float.lt v Sample.one = false
                /\ Float.lt Sample.three v = false)
  /\ Float.lt Sample.three Sample.one = false.
Proof.
  apply (X13_min_max_bound_the_series Sample.beyond
           [Sample.three; Sample.one; Sample.two]
           (mk_stats Sample.three Sample.two Sample.one Sample.three)).
  - vm_compute. reflexivity.
  - repeat constructor.
Defined.

(** X14. The minimum and the maximum of a series are NaN exactly when its
    first sample is NaN: a NaN met later never replaces the candidate,
    and a NaN candidate is never replaced. *)
Theorem X14_nan_first (first : Float.float) (others : list Float.float) :
  Float.is_nan (Float.min_from first others) = Float.is_nan first
  /\ Float.is_nan (Float.max_from first others) = Float.is_nan first.
Proof.
  assert (L : forall a b, Float.lt a b = true ->
                          Float.is_nan a = false /\ Float.is_nan b = false).
  { intros a b H. split.
    - destruct a; trivial; discriminate.
    - destruct b; trivial. destruct a; discriminate. }
  split; revert first; induction others as [|x rest IH]; intros first;
    trivial.
  - change (Float.min_from first (x :: rest))
      with (Float.min_from (if Float.lt x first then x else first) rest).
    rewrite IH. destruct (Float.lt x first) eqn:E; trivial.
    destruct (L _ _ E) as [-> ->]. reflexivity.
  - change (Float.max_from first (x :: rest))
      with (Float.max_from (if Float.lt first x then x else first) rest).
    rewrite IH. destruct (Float.lt first x) eqn:E; trivial.
    destruct (L _ _ E) as [-> ->]. reflexivity.
Qed.

(** ** The printed table *)

Section TableProperties.

Variable json_loads : string -> result value.
Variable yaml : option (string -> result value).
Variable beyond : list Float.float -> result Float.float.
Variable format_8_3f : Float.float -> string.

Lemma print_rows_lines (summary : summary_t) (names : list string) :
  (forall name, In name names -> In name (keys summary)) ->
  (forall name st, In (name, st) summary ->
                   is_ok (Float.to_int (count st)) = true) ->
  forall out,
    exists rows,
      print_rows format_8_3f summary names out = (out ++ rows, Ok tt)
      /\ Forall2
           (fun name line =>
              exists st,
                Metrics.lookup name summary = Some st
                /\ row format_8_3f name st = Ok line)
           names rows.
Proof.
  intros Hk Hc. induction names as [|name rest IH]; intros out; simpl.
  - exists []. rewrite app_nil_r. split; [reflexivity|constructor].
  - destruct (Metrics.lookup name summary) as [st|] eqn:E.
    + pose proof (Hc name st (lookup_in _ _ _ E)) as Hst.
      destruct (row format_8_3f name st) as [line|exc] eqn:R.
      * destruct (IH (fun n Hn => Hk n (or_intror Hn)) (out ++ [line]))
          as (rows & Ep & Hf).
        exists (line :: rows). rewrite Ep, <- app_assoc. split; trivial.
        constructor; trivial. now exists st.
      * unfold row in R.
        destruct (Float.to_int (count st)); discriminate.
    + exfalso. apply lookup_in_keys in E. apply E, Hk. now left.
Qed.

End TableProperties.


(** ** The command builder and the runner *)

(** X17. [build_command] returns a command exactly for the supported
    tools; the command it returns is not empty, ends with the extra
    arguments as they were given, and holds the config path before
    them. *)
Theorem X17_built_command (tool config : string) (model : option string)
    (extra : list string) :
  (is_ok (build_command tool config model extra) = true <-> supported tool)
  /\ forall command,
       build_command tool config model extra = Ok command ->
       command <> []
       /\ exists front, command = front ++ extra /\ In config front.
Proof.
  split.
  - split.
    + intros H. destruct (in_dec string_dec tool (keys TOOL_COMMANDS)) as [I|I];
        trivial.
      apply lookup_in_keys in I. unfold build_command in H. rewrite I in H.
      discriminate.
    + intros H. destruct (supported_lookup tool H) as [meta Hm].
      unfold build_command. now rewrite Hm.
  - intros command H. unfold build_command in H.
    destruct (Metrics.lookup tool TOOL_COMMANDS) as [meta|] eqn:Hm;
      [|discriminate].
    injection H as <-. cbv zeta.
    assert (F : exists front,
               match model, model_flag meta with
               | Some m, Some flag =>
                   if Str.truthy m && Str.truthy flag
                   then match config_flag meta with
                        | Some flag0 =>
                            if Str.truthy flag0
                            then executable meta ++ [flag0; config]
                            else executable meta ++ [config]
                        | None => executable meta ++ [config]
                        end ++ [flag; m]
                   else match config_flag meta with
                        | Some flag0 =>
                            if Str.truthy flag0
                            then executable meta ++ [flag0; config]
                            else executable meta ++ [config]
                        | None => executable meta ++ [config]
                        end
               | _, _ => match config_flag meta with
                        | Some flag0 =>
                            if Str.truthy flag0
                            then executable meta ++ [flag0; config]
                            else executable meta ++ [config]
                        | None => executable meta ++ [config]
                        end
               end = front /\ In config front).
    { eexists. split; [reflexivity|].
      destruct (profile_cases tool meta Hm) as [E|[E|E]];
        injection E as -> ->; simpl;
        destruct model as [[|c m]|]; simpl; tauto. }
    destruct F as (front & -> & I). split.
    + destruct front; [destruct I | discriminate].
    + now exists front.
Qed.

Section RunnerProperties.

Variable which : string -> bool.
Variable subprocess_run : list string -> Z.


Variable exists_ : string -> bool.
Variable joinpath : string -> string -> string.
Variable timestamp : string.
Variable mkdir : string -> result unit.

(** X19. The run command rejects a tool outside the table and a config
    path that does not exist with status 2, before it creates a
    directory, searches the path or spawns a process. *)
Theorem X19_run_rejected (args : run_args) :
  Metrics.contains (arg_tool args) TOOL_COMMANDS = false
  \/ exists_ (arg_config args) = false ->
  let '(trace, status) :=
    main_run which subprocess_run exists_ joinpath timestamp mkdir args in
  status = Exit 2
  /\ existsb is_made_dirs trace = false
  /\ existsb is_process trace = false.
Proof.
  intros H. unfold main_run.
  destruct (Metrics.contains (arg_tool args) TOOL_COMMANDS); simpl.
  - destruct H as [H|H]; [discriminate|]. rewrite H. simpl. auto.
  - auto.
Qed.


End RunnerProperties.



Lemma X17_built_command_witness :
  supported "helm"
  /\ exists front,
       ["helm-run"; "--config"; "suite.yaml"; "--model"; "gpt-4"; "--seed"; "7"]
       = front ++ ["--seed"; "7"]
       /\ In "suite.yaml" front.
Proof.
  split.
  - exact (proj1 (proj1 (X17_built_command "helm" "suite.yaml" (Some "gpt-4")
                           ["--seed"; "7"])) eq_refl).
  - exact (proj2 (proj2 (X17_built_command "helm" "suite.yaml" (Some "gpt-4")
                           ["--seed"; "7"]) _ eq_refl)).
Defined.


Lemma X19_run_rejected_witness :
  main_run SampleRun.which SampleRun.subprocess_run SampleRun.exists_
    SampleRun.joinpath SampleRun.timestamp SampleRun.mkdir
    (SampleRun.args "helm" "missing.yaml" false)
  = ([Parser_error "Configuration file 'missing.yaml' does not exist."],
     Exit 2).
Proof.
  pose proof (X19_run_rejected SampleRun.which SampleRun.subprocess_run
                SampleRun.exists_ SampleRun.joinpath SampleRun.timestamp
                SampleRun.mkdir (SampleRun.args "helm" "missing.yaml" false)
                (or_intror eq_refl)) as H.
  destruct (main_run SampleRun.which SampleRun.subprocess_run
              SampleRun.exists_ SampleRun.joinpath SampleRun.timestamp
              SampleRun.mkdir (SampleRun.args "helm" "missing.yaml" false))
    as [trace status] eqn:E.
  destruct H as (-> & _). vm_compute in E. injection E as <-. reflexivity.
Defined.




(** * Further properties, in a world that can fail *)

Section WorldProperties.

Variable w : World.env.

(** ** The walk with a bounded stack *)

Lemma numberless_bounded (left : nat) :
  forall payload prefix metrics,
    numberless payload = true ->
    fst (World.collect_numeric w left payload prefix metrics) = metrics
    /\ forall exc,
         snd (World.collect_numeric w left payload prefix metrics) = Raise exc ->
         exists v, exc = World.recursion_error w v.
Proof.
  induction left as [|left IH]; intros payload prefix metrics Hn.
  - split; [reflexivity|]. intros exc E. injection E as <-. now exists payload.
  - destruct payload as [| b | n | x | s | elements | items];
      try discriminate; try (split; [reflexivity | discriminate]).
    + cbn [World.collect_numeric]. cbn [numberless] in Hn.
      generalize 0%nat.
      induction elements as [|v rest IHl]; intros idx.
      * split; [reflexivity | discriminate].
      * cbn [forallb] in Hn. apply andb_true_iff in Hn.
        destruct Hn as [Hv Hrest].
        rewrite each_element_cons. unfold and_then.
        destruct (IH v (prefix ++ Str.of_nat idx ++ ".")%string metrics Hv)
          as [Hf He].
        destruct (World.collect_numeric w left v _ metrics) as [m' [[]|exc]];
          cbn [fst snd] in *; subst m'.
        -- apply IHl, Hrest.
        -- split; [reflexivity|]. intros e E. injection E as <-. now apply He.
    + cbn [World.collect_numeric]. cbn [numberless] in Hn.
      induction items as [|[key v] rest IHl].
      * split; [reflexivity | discriminate].
      * cbn [forallb snd] in Hn. apply andb_true_iff in Hn.
        destruct Hn as [Hv Hrest].
        rewrite each_item_cons. unfold and_then.
        destruct (IH v (prefix ++ key ++ ".")%string metrics Hv) as [Hf He].
        destruct (World.collect_numeric w left v _ metrics) as [m' [[]|exc]];
          cbn [fst snd] in *; subst m'.
        -- apply IHl, Hrest.
        -- split; [reflexivity|]. intros e E. injection E as <-. now apply He.
Qed.

Lemma numberless_walk (payload : value) :
  numberless payload = true ->
  forall prefix metrics,
    collect_numeric payload prefix metrics = (metrics, Ok tt).
Proof.
  induction payload as [| b | n | x | s | elements IH | items IH]
    using value_nested_ind; intros Hn prefix metrics; try reflexivity;
    try discriminate.
  - rewrite collect_list. generalize 0%nat. simpl in Hn.
    induction IH as [|v rest Hv _ IHrest]; intros idx; simpl; trivial.
    simpl in Hn. apply andb_true_iff in Hn. destruct Hn as [Hv' Hrest].
    unfold and_then. rewrite (Hv Hv'). now apply IHrest.
  - rewrite collect_dict. simpl in Hn.
    induction IH as [|[key v] rest Hv _ IHrest]; simpl; trivial.
    simpl in Hn, Hv. apply andb_true_iff in Hn. destruct Hn as [Hv' Hrest].
    unfold and_then. rewrite (Hv Hv'). now apply IHrest.
Qed.

(** X2. A document without numbers leaves the dictionary as it is,
    whether the walk returns or raises; the walk can only raise
    [RecursionError], and it does not raise when the interpreter has
    frames for the nesting of the document. *)
Theorem X2_numberless_document (payload : value) :
  numberless payload = true ->
  forall left prefix metrics,
    fst (World.collect_numeric w left payload prefix metrics) = metrics
    /\ (forall exc,
           snd (World.collect_numeric w left payload prefix metrics)
           = Raise exc ->
           exists v, exc = World.recursion_error w v)
    /\ (height payload <= left ->
        World.collect_numeric w left payload prefix metrics
        = (metrics, Ok tt)).
Proof.
  intros Hn left prefix metrics.
  destruct (numberless_bounded left payload prefix metrics Hn) as [Hf He].
  split; [exact Hf|]. split; [exact He|].
  intros Hh. rewrite bounded_walk_fits by exact Hh.
  now apply numberless_walk.
Qed.




(** ** The scan of the directory *)

(** X6. An entry that [is_dir()] classifies as a directory, and a file
    whose suffix is none of [.json], [.jsonl], [.yml] and [.yaml], is
    passed over: it is not read, so it adds no sample and no diagnostic
    even when reading it would fail.  An entry that cannot be examined
    ends the scan with its exception: the entries before it have been
    visited and their diagnostics written, the entries after it are not
    visited. *)
Theorem X6_other_entries_are_ignored (a : artifact)
    (rest : list World.listed) (metrics : metrics_t) :
  is_dir a = true \/ known_suffix (suffix a) = false ->
  World.scan w (World.Entry a :: rest) metrics = World.scan w rest metrics
  /\ forall before exc,
       World.accepts (World.print_stderr w)
         (flat_map (World.diagnostic w) before) ->
       World.scan w (map World.Entry before ++ World.Fails exc :: rest) []
       = (map World.Stderr (flat_map (World.diagnostic w) before), Raise exc).
Proof.
  intros H. split.
  - cbn [World.scan]. destruct H as [H|H]; [now rewrite H|].
    destruct (is_dir a); trivial.
    unfold World.scan_file. unfold known_suffix in H.
    apply orb_false_iff in H. destruct H as [H Hyaml].
    apply orb_false_iff in H. destruct H as [H Hyml].
    apply orb_false_iff in H. destruct H as [Hjson Hjsonl].
    rewrite Hjson, Hjsonl, Hyml, Hyaml.
    now destruct (World.yaml w).
  - intros before exc Ha. apply world_scan_fails; trivial. constructor.
Qed.

(** ** The summary *)

(** X11. [summarize_artifacts] returns a summary exactly when the
    listing of the directory completes, the standard error takes the
    diagnostics, and the statistics of every series with samples can be
    computed. *)
Theorem X11_summary_is_returned (directory : string) :
  is_ok (snd (World.summarize_artifacts w directory)) = true
  <-> exists entries,
        World.rglob w directory = map World.Entry entries
        /\ World.accepts (World.print_stderr w)
             (flat_map (World.diagnostic w) entries)
        /\ forall name,
             Metrics.samples name (World.scanned w entries) <> [] ->
             is_ok (summarize_values (World.fsum_beyond w)
                      (Metrics.samples name (World.scanned w entries)))
             = true.
Proof.
  split.
  - intros H.
    destruct (World.scan w (World.rglob w directory) []) as [t [m|exc]] eqn:Es.
    + destruct (world_scan_returns w (World.rglob w directory) [] m
                  (NoDup_nil _)) as (entries & Hl & Ha);
        [now rewrite Es|].
      exists entries. split; [exact Hl|]. split; [exact Ha|].
      rewrite (world_summarize_completes w directory entries Hl Ha) in H.
      cbn [snd] in H.
      now apply (summary_returned _ _ (world_scanned_keys w entries)).
    + unfold World.summarize_artifacts in H. rewrite Es in H. discriminate.
  - intros (entries & Hl & Ha & Hs).
    rewrite (world_summarize_completes w directory entries Hl Ha). cbn [snd].
    now apply (summary_returned _ _ (world_scanned_keys w entries)).
Qed.

(** ** The printed table *)

(** The lines of the table of a summary that [summarize_metrics] has
    returned and that is not empty. *)
Lemma table_lines (metrics : metrics_t) (summary : summary_t) :
  summarize_metrics (World.fsum_beyond w) metrics [] = Ok summary ->
  summary <> [] ->
  exists rows,
    table (World.format_8_3f w) summary
    = "Metric                                   | Count |     Mean |      Min |      Max"
      :: Str.repeat "-" 81 :: rows
    /\ Forall2
         (fun name line =>
            exists st,
              Metrics.lookup name summary = Some st
              /\ row (World.format_8_3f w) name st = Ok line)
         (Str.sorted (keys summary)) rows.
Proof.
  intros H Hne.
  destruct (print_rows_lines (World.format_8_3f w) summary
              (Str.sorted (keys summary)))
    with (out := [header; Str.repeat "-" 81]) as (rows & Ep & Hf).
  - intros name Hn. now apply (proj1 (in_sorted _ _)) in Hn.
  - intros name st Hin.
    destruct (summarize_metrics_entries _ _ _ _ H _ _ Hin)
      as [[]|(vs & _ & _ & S)].
    unfold summarize_values in S.
    destruct (Float.of_int (Z.of_nat (List.length vs))) as [c|] eqn:Ec;
      [|discriminate].
    simpl in S.
    destruct (Float.fmean (World.fsum_beyond w) vs); [|discriminate].
    simpl in S.
    destruct (Float.min vs); [|discriminate]. simpl in S.
    destruct (Float.max vs); [|discriminate]. simpl in S.
    injection S as <-. simpl. eapply of_int_to_int, Ec.
  - exists rows. split; [|exact Hf].
    unfold table, print_summary_table. destruct summary; [congruence|].
    change (String.length header) with 81. unfold keys in Ep. rewrite Ep.
    reflexivity.
Qed.

(** X15. For a summary that [summarize_artifacts] returns and that is
    not empty, the table is the header, a rule of as many dashes as the
    header is long (81), and one row for every series of the summary, in
    ascending order of the names; its lines are printed in this order up
    to the first line that the standard output does not take, whose
    exception ends the printing; when every line is taken, nothing is
    raised. *)
Theorem X15_table_rows (directory : string) (summary : summary_t) :
  snd (World.summarize_artifacts w directory) = Ok summary ->
  summary <> [] ->
  exists rows,
    Forall2
      (fun name line =>
         exists st,
           Metrics.lookup name summary = Some st
           /\ row (World.format_8_3f w) name st = Ok line)
      (Str.sorted (keys summary)) rows
    /\ StronglySorted name_le (Str.sorted (keys summary))
    /\ Permutation (keys summary) (Str.sorted (keys summary))
    /\ NoDup (keys summary)
    /\ World.print_summary_table w summary
       = match first_refusal (World.print_stdout w)
               ("Metric                                   | Count |     Mean |      Min |      Max"
                :: Str.repeat "-" 81 :: rows) with
         | (written, None) => (map World.Stdout written, Ok tt)
         | (written, Some exc) => (map World.Stdout written, Raise exc)
         end.
Proof.
  intros H Hne.
  assert (M : exists metrics,
             summarize_metrics (World.fsum_beyond w) metrics [] = Ok summary).
  { unfold World.summarize_artifacts in H.
    destruct (World.scan w (World.rglob w directory) []) as [t [m|exc]];
      [|discriminate].
    exists m. unfold World.bind, World.lift in H. exact H. }
  destruct M as (metrics & M).
  destruct (table_lines metrics summary M Hne) as (rows & Et & Hf).
  exists rows. split; [exact Hf|]. split; [apply sorted_sorted|].
  split; [apply sorted_permutation|].
  split; [eapply summarize_metrics_keys; [|exact M]; constructor|].
  rewrite world_print_summary_table, Et.
  now rewrite (print_summary_table_ok _ _ _ _ M).
Qed.

(** X16. The summarize command.  When [exists()] raises, the command
    ends with that exception; for a directory that does not exist it
    calls [parser.error] and does nothing else.  Otherwise the script
    writes to the standard error the diagnostics of the scan and nothing
    else, and to the standard output nothing when [summarize_artifacts]
    raises, and the lines of the table that the standard output takes
    when it returns; it returns 0 exactly when [summarize_artifacts]
    returns and the standard output takes every line of the table. *)
Theorem X16_summarize_command (directory : string) :
  match World.exists_ w directory with
  | Raise exc => World.main_summarize w directory = ([], Uncaught exc)
  | Ok false =>
      World.main_summarize w directory
      = ([World.Argparse_error
            ("Artifact directory '" ++ directory ++ "' does not exist.")],
         Exit 2)
  | Ok true =>
      World.stderr_of (fst (World.main_summarize w directory))
      = World.stderr_of (fst (World.summarize_artifacts w directory))
      /\ World.stdout_of (fst (World.main_summarize w directory))
         = match snd (World.summarize_artifacts w directory) with
           | Ok summary =>
               fst (first_refusal (World.print_stdout w)
                      (table (World.format_8_3f w) summary))
           | Raise _ => []
           end
      /\ (snd (World.main_summarize w directory) = Exit 0
          <-> exists summary,
                snd (World.summarize_artifacts w directory) = Ok summary
                /\ World.accepts (World.print_stdout w)
                     (table (World.format_8_3f w) summary))
  end.
Proof.
  destruct (World.exists_ w directory) as [[|]|exc] eqn:He;
    try (unfold World.main_summarize; now rewrite He).
  rewrite (world_main_summarize w directory He).
  pose proof (world_summarize_trace w directory) as T.
  assert (M : forall summary,
             snd (World.summarize_artifacts w directory) = Ok summary ->
             snd (print_summary_table (World.format_8_3f w) summary) = Ok tt).
  { intros summary H. unfold World.summarize_artifacts in H.
    destruct (World.scan w (World.rglob w directory) []) as [t [m|exc]];
      [|discriminate].
    unfold World.bind, World.lift in H. cbn [snd] in H.
    now apply (print_summary_table_ok _ _ _ _ H). }
  destruct (World.summarize_artifacts w directory) as [d [summary|exc]];
    cbn [fst snd] in *; remember (World.stderr_of d) as diagnostics;
    clear Heqdiagnostics; subst d.
  - rewrite world_print_summary_table, (M summary eq_refl).
    destruct (first_refusal (World.print_stdout w)
                (table (World.format_8_3f w) summary))
      as [written [exc|]] eqn:Ef; cbn [fst snd];
      (split; [apply stderr_of_run|]);
      (split; [apply stdout_of_run|]).
    + split; [discriminate|]. intros (s & Es & Ha). injection Es as <-.
      rewrite (first_refusal_accepts _ _ Ha) in Ef. discriminate.
    + split; trivial. intros _. exists summary. split; trivial.
      now apply first_refusal_none in Ef.
  - split; trivial. split.
    + now rewrite stdout_of_stderr.
    + split; [discriminate|]. intros (s & Es & _). discriminate.
Qed.

(** ** The runner *)

(** X18. A run that is not dry, of a command whose executable is found,
    once the standard output has taken the banner: the path is searched
    once, for the first word of the command, and [subprocess.run] is
    called once, with the command as it was built.  When it returns, its
    return code is printed and returned (the exception of [print] is
    raised if the line is not taken); when it raises, the exception
    leaves [run_tool] and no exit code is printed or returned. *)
Theorem X18_real_run (tool config : string) (model : option string)
    (extra : list string) (exe : string) (rest : list string) :
  build_command tool config model extra = Ok (exe :: rest) ->
  World.which w exe = true ->
  World.accepts (World.print_stdout w)
    (banner tool config model extra (exe :: rest)) ->
  World.run_tool w tool config model false extra
  = match World.subprocess_run w (exe :: rest) with
    | Ok code =>
        match World.print_stdout w
                ("[benchmark] Exit code: " ++ Str.of_Z code) with
        | Ok _ =>
            (map World.Stdout (banner tool config model extra (exe :: rest))
             ++ [World.Looked_up exe; World.Child (exe :: rest);
                 World.Stdout ("[benchmark] Exit code: " ++ Str.of_Z code)],
             Ok code)
        | Raise exc =>
            (map World.Stdout (banner tool config model extra (exe :: rest))
             ++ [World.Looked_up exe; World.Child (exe :: rest)],
             Raise exc)
        end
    | Raise exc =>
        (map World.Stdout (banner tool config model extra (exe :: rest))
         ++ [World.Looked_up exe; World.Child (exe :: rest)],
         Raise exc)
    end.
Proof.
  intros E Hw Ha. rewrite (world_real_run w tool config model extra _ E Ha).
  unfold World.command_available, World.bind, World.print, World.ret.
  rewrite Hw. cbn [negb].
  destruct (World.subprocess_run w (exe :: rest)) as [code|exc]; trivial.
  destruct (World.print_stdout w _) as [[]|exc]; reflexivity.
Qed.

(** X21. The run command, for a tool that [parse_args] has accepted and
    a config path that exists: the directory of the run is created
    first; when [mkdir] or the print of the directory raises, the command
    ends with that exception and [run_tool] is not called; otherwise
    [build_command] returns a command, the command ends as [run_tool]
    does, with its exit code or with its exception, and the operating
    system reports the exit code modulo 256. *)
Theorem X21_run_exit_status (args : run_args) :
  supported (arg_tool args) ->
  World.exists_ w (arg_config args) = Ok true ->
  let run_dir :=
    World.joinpath w
      (World.joinpath w (arg_artifacts args) (arg_tool args))
      (World.timestamp w) in
  let announcement :=
    ("[benchmark] Outputs will be saved under: " ++ run_dir)%string in
  let run :=
    World.run_tool w (arg_tool args) (arg_config args) (arg_model args)
      (arg_dry_run args) (arg_extra args) in
  match World.mkdir w run_dir with
  | Raise exc =>
      World.main_run w args = ([World.Makedirs run_dir], Uncaught exc)
  | Ok _ =>
      match World.print_stdout w announcement with
      | Raise exc =>
          World.main_run w args = ([World.Makedirs run_dir], Uncaught exc)
      | Ok _ =>
          is_ok (build_command (arg_tool args) (arg_config args)
                   (arg_model args) (arg_extra args)) = true
          /\ fst (World.main_run w args)
             = World.Makedirs run_dir :: World.Stdout announcement :: fst run
          /\ match snd run with
             | Ok code =>
                 snd (World.main_run w args) = Exit code
                 /\ World.reported (snd (World.main_run w args))
                    = (code mod 256)%Z
             | Raise exc => snd (World.main_run w args) = Uncaught exc
             end
      end
  end.
Proof.
  intros Hs He run_dir announcement run.
  unfold World.main_run, World.ensure_output_directory. rewrite He.
  fold run_dir.
  destruct (World.mkdir w run_dir) as [[]|exc]; [|reflexivity].
  rewrite bind_ok. cbn [World.ret fst snd app].
  rewrite bind_ok, bind_print. fold announcement.
  destruct (World.print_stdout w announcement) as [[]|exc]; [|reflexivity].
  fold run. cbn [fst snd app]. split.
  - destruct (build_command_supported (arg_tool args) (arg_config args)
                (arg_model args) (arg_extra args) Hs) as (exe & rest & ->).
    reflexivity.
  - destruct run as [t [code|exc]]; cbn [fst snd World.finish app];
      (split; [reflexivity|]); [split|]; reflexivity.
Qed.

End WorldProperties.

Lemma X2_numberless_document_witness :
  World.collect_numeric (SampleWorld.calm []) 990
    (VDict [("tags", VList [VStr "a"; VNone]); ("ok", VBool true)])
    "" [("x", [Sample.one])]
  = ([("x", [Sample.one])], Ok tt)
  /\ fst (World.collect_numeric (SampleWorld.calm []) 3
            (VList [VList [VList [VList [VStr "a"]]]]) "" [("x", [Sample.one])])
     = [("x", [Sample.one])].
Proof.
  split.
  - apply (X2_numberless_document (SampleWorld.calm [])
             (VDict [("tags", VList [VStr "a"; VNone]); ("ok", VBool true)])
             eq_refl 990 "" [("x", [Sample.one])]).
    apply Nat.leb_le. reflexivity.
  - apply (X2_numberless_document (SampleWorld.calm [])
             (VList [VList [VList [VList [VStr "a"]]]]) eq_refl 3 ""
             [("x", [Sample.one])]).
Defined.


Lemma X6_other_entries_are_ignored_witness :
  World.scan (SampleWorld.calm [])
    [World.Entry (mk_artifact "runs/notes.txt" ".txt" false
                    (Raise "'utf-8' codec can't decode byte 0xff"));
     World.Entry Sample.file_one] []
  = World.scan (SampleWorld.calm []) [World.Entry Sample.file_one] [].
Proof.
  apply (proj1 (X6_other_entries_are_ignored (SampleWorld.calm [])
                  (mk_artifact "runs/notes.txt" ".txt" false
                     (Raise "'utf-8' codec can't decode byte 0xff"))
                  [World.Entry Sample.file_one] [] (or_intror eq_refl))).
Defined.

Lemma X11_summary_is_returned_witness :
  is_ok (snd (World.summarize_artifacts
                (SampleWorld.calm
                   [World.Entry Sample.file_one; World.Entry Sample.file_three])
                "runs"))
  = true.
Proof.
  apply (proj2 (X11_summary_is_returned
                  (SampleWorld.calm
                     [World.Entry Sample.file_one; World.Entry Sample.file_three])
                  "runs")).
  exists [Sample.file_one; Sample.file_three]. split; [reflexivity|]. split.
  - apply Forall_forall. intros line _. reflexivity.
  - intros name.
    set (metrics := World.scanned _ _). vm_compute in (value of metrics).
    subst metrics. unfold Metrics.samples, Metrics.lookup.
    destruct (String.eqb "x" name); intros H.
    + vm_compute. reflexivity.
    + now contradiction H.
Defined.

Lemma X15_table_rows_witness :
  exists rows,
    Forall2
      (fun name line =>
         exists st,
           Metrics.lookup name
             [("x", mk_stats Sample.two Sample.two Sample.one Sample.three)]
           = Some st
           /\ row SampleWorld.format_8_3f name st = Ok line)
      ["x"] rows
    /\ World.print_summary_table (SampleWorld.calm [])
         [("x", mk_stats Sample.two Sample.two Sample.one Sample.three)]
       = (map World.Stdout
            ("Metric                                   | Count |     Mean |      Min |      Max"
             :: Str.repeat "-" 81 :: rows),
          Ok tt).
Proof.
  destruct (X15_table_rows
              (SampleWorld.calm
                 [World.Entry Sample.file_one; World.Entry Sample.file_three])
              "runs"
              [("x", mk_stats Sample.two Sample.two Sample.one Sample.three)])
    as (rows & Hf & _ & _ & _ & Hp).
  - vm_compute. reflexivity.
  - discriminate.
  - exists rows. split; [exact Hf|].
    rewrite first_refusal_accepts in Hp
      by (apply Forall_forall; intros line _; reflexivity).
    exact Hp.
Defined.

Lemma X16_summarize_command_witness :
  snd (World.main_summarize
         (SampleWorld.calm
            [World.Entry Sample.file_one; World.Entry Sample.file_three])
         "runs")
  = Exit 0.
Proof.
  pose proof (X16_summarize_command
                (SampleWorld.calm
                   [World.Entry Sample.file_one; World.Entry Sample.file_three])
                "runs") as H.
  change (World.exists_ _ "runs") with (@Ok bool true) in H.
  cbv beta iota in H. destruct H as (_ & _ & H). apply H.
  exists [("x", mk_stats Sample.two Sample.two Sample.one Sample.three)].
  split.
  - vm_compute. reflexivity.
  - apply Forall_forall. intros line _. reflexivity.
Defined.

Lemma X18_real_run_witness :
  World.run_tool
    (SampleWorld.make SampleWorld.takes_all [] 990 SampleRun.which
       (fun _ => Raise "[Errno 8] Exec format error: 'helm-run'"))
    "helm" "suite.yaml" (Some "gpt-4") false ["--seed"; "7"]
  = ([World.Stdout "[benchmark] Tool     : helm";
      World.Stdout "[benchmark] Config   : suite.yaml";
      World.Stdout "[benchmark] Model    : gpt-4";
      World.Stdout "[benchmark] Extra    : --seed 7";
      World.Stdout "[benchmark] Command  : helm-run --config suite.yaml --model gpt-4 --seed 7";
      World.Looked_up "helm-run";
      World.Child ["helm-run"; "--config"; "suite.yaml"; "--model"; "gpt-4";
                   "--seed"; "7"]],
     Raise "[Errno 8] Exec format error: 'helm-run'").
Proof.
  rewrite (X18_real_run
             (SampleWorld.make SampleWorld.takes_all [] 990 SampleRun.which
                (fun _ => Raise "[Errno 8] Exec format error: 'helm-run'"))
             "helm" "suite.yaml" (Some "gpt-4") ["--seed"; "7"] "helm-run"
             ["--config"; "suite.yaml"; "--model"; "gpt-4"; "--seed"; "7"]
             eq_refl eq_refl).
  - vm_compute. reflexivity.
  - apply Forall_forall. intros line _. reflexivity.
Defined.

(** A child that signal 9 killed has the return code -9; the operating
    system reports 247. *)
Lemma X21_run_exit_status_witness :
  snd (World.main_run
         (SampleWorld.make SampleWorld.takes_all [] 990 SampleRun.which
            (fun _ => Ok (-9)%Z))
         (SampleRun.args "helm" "suite.yaml" false))
  = Exit (-9)
  /\ World.reported
       (snd (World.main_run
               (SampleWorld.make SampleWorld.takes_all [] 990 SampleRun.which
                  (fun _ => Ok (-9)%Z))
               (SampleRun.args "helm" "suite.yaml" false)))
     = 247%Z.
Proof.
  pose proof (X21_run_exit_status
                (SampleWorld.make SampleWorld.takes_all [] 990 SampleRun.which
                   (fun _ => Ok (-9)%Z))
                (SampleRun.args "helm" "suite.yaml" false)) as H.
  cbv zeta in H.
  change (World.mkdir _ _) with (@Ok unit tt) in H.
  change (World.print_stdout _ _) with (@Ok unit tt) in H.
  cbv beta iota in H.
  destruct H as (_ & _ & H).
  - unfold supported. simpl. auto.
  - reflexivity.
  - change (snd (World.run_tool _ _ _ _ _ _)) with (@Ok Z (-9)%Z) in H at 1.
    cbv beta iota in H. exact H.
Defined.

(** ** The two parts of the model *)

Section UnfailingWorld.

Variable w : World.env.








End UnfailingWorld.

